(** * GlobalProtect log cleaner (gp-logs-cleaner/gateway_parser.py)

    A shallow embedding of the [GatewayParser] class: the timestamp
    extractor, the gateway record extractor, the gateway list remover and
    the time-window filter, followed by the properties of the
    specification that concern them.

    Conventions of the model.
    - A Python [str] is a [string]; the file contents are the decoded text
      (the source opens every file as UTF-8 text), read as a sequence of
      8-bit characters, so the class [\d] is the ten ASCII digits.
    - The file system is a finite map from paths to contents; every write
      succeeds (permission and disk errors are outside the model).
    - [print] appends one message to the console; the formatted text of a
      message is abstracted by a constructor carrying the printed values.
    - Python exceptions are the [Raise] case of [result]; [try]/[except]
      is a [match] on it.
    - The part of the Python library the code calls ([re], [int],
      [datetime.strptime], [sorted], file objects) is modelled in module
      [Py]; the XML parser [ET.fromstring] is an argument of the
      functions that call it. *)

From Stdlib Require Import ZArith List Ascii String Bool Lia Sorted Permutation.
From Stdlib Require Import DecimalString.
From stdpp Require Import gmap strings.

(* ===================================================================== *)
(** * Part I: definitions *)
(* ===================================================================== *)

(** ** The Python library, as far as the source uses it *)
Module Py.

(** *** Exceptions *)

Inductive exn : Type :=
| ValueError
| ParseError
| FileNotFoundError
| ZeroDivisionError.

Inductive result (A : Type) : Type :=
| Ok (a : A)
| Raise (e : exn).
Arguments Ok {A} a.
Arguments Raise {A} e.

#[global] Instance result_ret : MRet result := fun A a => Ok a.

#[global] Instance result_bind : MBind result := fun A B k r =>
  match r with
  | Ok a => k a
  | Raise e => Raise e
  end.

Fixpoint mapM {A B : Type} (f : A -> result B) (l : list A) : result (list B) :=
  match l with
  | [] => Ok []
  | a :: l' => b ← f a; bs ← mapM f l'; Ok (b :: bs)
  end.

(** *** Characters *)

Definition code (c : ascii) : Z := Z.of_nat (nat_of_ascii c).

Definition is_digit (c : ascii) : bool :=
  ((48 <=? code c) && (code c <=? 57))%Z.

Definition digit_val (c : ascii) : Z := (code c - 48)%Z.

Definition digit_in (lo hi : Z) (c : ascii) : bool :=
  (is_digit c && (lo <=? digit_val c) && (digit_val c <=? hi))%Z.

(** [str.isspace] on the 8-bit range: TAB..CR, FS..US and the space. *)
Definition is_space (c : ascii) : bool :=
  (((9 <=? code c) && (code c <=? 13))
   || ((28 <=? code c) && (code c <=? 32)))%Z.

Definition lower (c : ascii) : ascii :=
  if ((65 <=? code c) && (code c <=? 90))%Z
  then ascii_of_nat (nat_of_ascii c + 32) else c.

(** *** Strings *)

(** [s[:n]] *)
Fixpoint take (n : nat) (s : string) : string :=
  match n, s with
  | S k, String c t => String c (take k t)
  | _, _ => EmptyString
  end.

(** [s[n:]] *)
Fixpoint drop (n : nat) (s : string) : string :=
  match n, s with
  | S k, String _ t => drop k t
  | _, _ => s
  end.

(** [needle in s] *)
Fixpoint contains (needle s : string) : bool :=
  String.prefix needle s
  || match s with
     | EmptyString => false
     | String _ t => contains needle t
     end.

(** *** [re]: the fragment of regular expressions the source writes

    [Lit c] a literal character, [Dig] the class [\d], [DigPlus] the
    greedy [\d+], [AnyLazy] the lazy [.*?] under [re.DOTALL], [Grp] the
    opening parenthesis of group 1, which in both patterns of the source
    closes at the end of the pattern. *)

Inductive atom : Type :=
| Lit (c : ascii)
| Dig
| DigPlus
| AnyLazy
| Grp.

Fixpoint lits (s : string) : list atom :=
  match s with
  | EmptyString => []
  | String c t => Lit c :: lits t
  end.

Definition digs (n : nat) : list atom := repeat Dig n.

(** Backtracking match of [re] at the head of [s].  The result is
    [(g, r)]: [r] is what follows the match, [g] the suffix of the subject
    at which group 1 opened. *)
Fixpoint match_here (re : list atom) (s : string) {struct re}
  : option (string * string) :=
  match re with
  | [] => Some (s, s)
  | Lit c :: re' =>
      match s with
      | String d t => if Ascii.eqb c d then match_here re' t else None
      | EmptyString => None
      end
  | Dig :: re' =>
      match s with
      | String d t => if is_digit d then match_here re' t else None
      | EmptyString => None
      end
  | DigPlus :: re' =>
      (fix plus (u : string) : option (string * string) :=
         match u with
         | String d t =>
             if is_digit d
             then match plus t with
                  | Some m => Some m
                  | None => match_here re' t
                  end
             else None
         | EmptyString => None
         end) s
  | AnyLazy :: re' =>
      (fix lazy (u : string) : option (string * string) :=
         match match_here re' u with
         | Some m => Some m
         | None =>
             match u with
             | String _ t => lazy t
             | EmptyString => None
             end
         end) s
  | Grp :: re' =>
      match match_here re' s with
      | Some (_, r) => Some (s, r)
      | None => None
      end
  end.

(** The text between the suffix [s] and its later suffix [r]. *)
Definition span (s r : string) : string :=
  take (String.length s - String.length r) s.

Record Match : Type := mkMatch { group0 : string; group1 : string }.

(** [re.search]: the match at the leftmost position that has one. *)
Fixpoint search (re : list atom) (s : string) : option Match :=
  match match_here re s with
  | Some (g, r) => Some (mkMatch (span s r) (span g r))
  | None =>
      match s with
      | String _ t => search re t
      | EmptyString => None
      end
  end.

(** [re.sub]: every non-overlapping match, leftmost first, replaced by
    [repl].  [skip] counts the characters of the current match that are
    still to be passed over. *)
Fixpoint sub_from (re : list atom) (repl : string) (skip : nat) (s : string)
  {struct s} : string :=
  match skip with
  | S k =>
      match s with
      | String _ t => sub_from re repl k t
      | EmptyString => EmptyString
      end
  | O =>
      match match_here re s with
      | Some (_, r) =>
          match s with
          | String c t =>
              match String.length s - String.length r with
              | O => repl +:+ String c (sub_from re repl 0 t)
              | S k => repl +:+ sub_from re repl k t
              end
          | EmptyString => repl
          end
      | None =>
          match s with
          | String c t => String c (sub_from re repl 0 t)
          | EmptyString => EmptyString
          end
      end
  end.

Definition sub (re : list atom) (repl s : string) : string :=
  sub_from re repl 0 s.

(** *** [str.strip()] and [int(text)], base 10 *)

Fixpoint lstrip (p : ascii -> bool) (s : string) : string :=
  match s with
  | String c t => if p c then lstrip p t else s
  | EmptyString => EmptyString
  end.

Fixpoint rstrip (p : ascii -> bool) (s : string) : string :=
  match s with
  | String c t =>
      match rstrip p t with
      | EmptyString => if p c then EmptyString else String c EmptyString
      | t' => String c t'
      end
  | EmptyString => EmptyString
  end.

(** [s.strip()] *)
Definition strip (s : string) : string := rstrip is_space (lstrip is_space s).

(** The white space that [int] skips around the number: TAB..CR and the
    space. *)
Definition is_c_space (c : ascii) : bool :=
  (((9 <=? code c) && (code c <=? 13)) || (code c =? 32))%Z.

(** [int] strips that white space, allows one sign, and lets single
    underscores separate digits. *)

(** [after_us] tells that the previous character was an underscore (or
    that no digit has been read yet): a digit must follow. *)
Fixpoint digits (acc : Z) (after_us : bool) (s : string) : option Z :=
  match s with
  | EmptyString => if after_us then None else Some acc
  | String c t =>
      if is_digit c then digits (10 * acc + digit_val c)%Z false t
      else if Ascii.eqb c "_"%char
           then (if after_us then None else digits acc true t)
           else None
  end.

Definition int_digits (u : string) : result Z :=
  match digits 0 true u with
  | Some v => Ok v
  | None => Raise ValueError
  end.

Definition int (text : string) : result Z :=
  match rstrip is_c_space (lstrip is_c_space text) with
  | String c u =>
      if Ascii.eqb c "-" then v ← int_digits u; Ok (- v)%Z
      else if Ascii.eqb c "+" then int_digits u
      else int_digits (String c u)
  | EmptyString => Raise ValueError
  end.

(** *** [datetime] *)

Record datetime : Type := mkdatetime {
  year : Z; month : Z; day : Z;
  hour : Z; minute : Z; second : Z; microsecond : Z
}.

Definition is_leap (y : Z) : bool :=
  ((y mod 4 =? 0) && (negb (y mod 100 =? 0) || (y mod 400 =? 0)))%Z.

Definition days_in_month (y m : Z) : Z :=
  (if m =? 2 then (if is_leap y then 29 else 28)
   else if (m =? 4) || (m =? 6) || (m =? 9) || (m =? 11) then 30
   else 31)%Z.

Definition between (lo hi x : Z) : bool := ((lo <=? x) && (x <=? hi))%Z.

(** The constructor [datetime(y, mo, d, h, mi, s, us)] with its range
    checks. *)
Definition make_datetime (y mo d h mi s us : Z) : result datetime :=
  if between 1 9999 y && between 1 12 mo && between 1 (days_in_month y mo) d
     && between 0 23 h && between 0 59 mi && between 0 59 s
     && between 0 999999 us
  then Ok (mkdatetime y mo d h mi s us)
  else Raise ValueError.

(** [dt.replace(microsecond=us)] *)
Definition replace_microsecond (dt : datetime) (us : Z) : result datetime :=
  make_datetime (year dt) (month dt) (day dt)
                (hour dt) (minute dt) (second dt) us.

Definition fields (d : datetime) : list Z :=
  [year d; month d; day d; hour d; minute d; second d; microsecond d].

Fixpoint lex_lt (a b : list Z) : bool :=
  match a, b with
  | x :: a', y :: b' => ((x <? y) || ((x =? y) && lex_lt a' b'))%Z
  | [], _ :: _ => true
  | _, [] => false
  end.

(** [a < b] on naive datetimes. *)
Definition dt_lt (a b : datetime) : bool := lex_lt (fields a) (fields b).
(** [a > b] *)
Definition dt_gt (a b : datetime) : bool := dt_lt b a.
(** [a <= b] *)
Definition dt_le (a b : datetime) : bool := negb (dt_lt b a).

(** *** [datetime.strptime]

    The format is turned into a regular expression, directive by
    directive, and matched with backtracking; [candidates] lists the ways
    one directive can match at the head of the subject, in the order the
    regular expression tries them. *)

Inductive directive : Type :=
| D_m | D_d | D_Y | D_y | D_H | D_M | D_S | D_f
| D_space
| D_lit (c : ascii).

Record tm : Type := mktm {
  tm_year : Z; tm_mon : Z; tm_mday : Z;
  tm_hour : Z; tm_min : Z; tm_sec : Z; tm_frac : Z
}.

Definition tm0 : tm := mktm 1900 1 1 0 0 0 0.

Definition two (lo1 hi1 lo2 hi2 : Z) (s : string) : list (Z * string) :=
  match s with
  | String a (String b t) =>
      if digit_in lo1 hi1 a && digit_in lo2 hi2 b
      then [((10 * digit_val a + digit_val b)%Z, t)] else []
  | _ => []
  end.

Definition one (lo hi : Z) (s : string) : list (Z * string) :=
  match s with
  | String a t => if digit_in lo hi a then [(digit_val a, t)] else []
  | EmptyString => []
  end.

Definition four (s : string) : list (Z * string) :=
  match s with
  | String a (String b (String c (String d t))) =>
      if is_digit a && is_digit b && is_digit c && is_digit d
      then [((1000 * digit_val a + 100 * digit_val b
              + 10 * digit_val c + digit_val d)%Z, t)]
      else []
  | _ => []
  end.

(** [[0-9]{1,6}], longest first; the value is padded with zeros on the
    right to six digits. *)
Fixpoint frac (n : nat) (acc : Z) (s : string) : list (Z * string) :=
  match n with
  | O => []
  | S k =>
      match s with
      | String c t =>
          if is_digit c
          then let v := (10 * acc + digit_val c)%Z in
               frac k v t ++ [((v * 10 ^ Z.of_nat k)%Z, t)]
          else []
      | EmptyString => []
      end
  end.

(** [\s+], longest first *)
Fixpoint spaces (s : string) : list string :=
  match s with
  | String c t => if is_space c then spaces t ++ [t] else []
  | EmptyString => []
  end.

Definition upd (f : Z -> tm -> tm) (l : list (Z * string))
  : list ((tm -> tm) * string) :=
  map (fun p => (f (fst p), snd p)) l.

Definition century (v : Z) : Z := (if v <=? 68 then 2000 + v else 1900 + v)%Z.

Definition candidates (d : directive) (s : string)
  : list ((tm -> tm) * string) :=
  match d with
  | D_m => upd (fun v t => mktm (tm_year t) v (tm_mday t) (tm_hour t)
                                (tm_min t) (tm_sec t) (tm_frac t))
               (two 1 1 0 2 s ++ two 0 0 1 9 s ++ one 1 9 s)
  | D_d => upd (fun v t => mktm (tm_year t) (tm_mon t) v (tm_hour t)
                                (tm_min t) (tm_sec t) (tm_frac t))
               (two 3 3 0 1 s ++ two 1 2 0 9 s ++ two 0 0 1 9 s ++ one 1 9 s
                ++ match s with
                   | String " " t => one 1 9 t
                   | _ => []
                   end)
  | D_Y => upd (fun v t => mktm v (tm_mon t) (tm_mday t) (tm_hour t)
                                (tm_min t) (tm_sec t) (tm_frac t))
               (four s)
  | D_y => upd (fun v t => mktm (century v) (tm_mon t) (tm_mday t) (tm_hour t)
                                (tm_min t) (tm_sec t) (tm_frac t))
               (two 0 9 0 9 s)
  | D_H => upd (fun v t => mktm (tm_year t) (tm_mon t) (tm_mday t) v
                                (tm_min t) (tm_sec t) (tm_frac t))
               (two 2 2 0 3 s ++ two 0 1 0 9 s ++ one 0 9 s)
  | D_M => upd (fun v t => mktm (tm_year t) (tm_mon t) (tm_mday t) (tm_hour t)
                                v (tm_sec t) (tm_frac t))
               (two 0 5 0 9 s ++ one 0 9 s)
  | D_S => upd (fun v t => mktm (tm_year t) (tm_mon t) (tm_mday t) (tm_hour t)
                                (tm_min t) v (tm_frac t))
               (two 6 6 0 1 s ++ two 0 5 0 9 s ++ one 0 9 s)
  | D_f => upd (fun v t => mktm (tm_year t) (tm_mon t) (tm_mday t) (tm_hour t)
                                (tm_min t) (tm_sec t) v)
               (frac 6 0 s)
  | D_space => map (fun r => (fun t => t, r)) (spaces s)
  | D_lit c =>
      match s with
      | String d t =>
          if Ascii.eqb (lower c) (lower d) then [(fun t => t, t)] else []
      | EmptyString => []
      end
  end.

Fixpoint first_some {A B : Type} (f : A -> option B) (l : list A) : option B :=
  match l with
  | [] => None
  | a :: l' =>
      match f a with
      | Some b => Some b
      | None => first_some f l'
      end
  end.

Fixpoint strp (fmt : list directive) (s : string) (acc : tm)
  : option (tm * string) :=
  match fmt with
  | [] => Some (acc, s)
  | d :: fmt' =>
      first_some (fun c => strp fmt' (snd c) (fst c acc)) (candidates d s)
  end.

(** [datetime.strptime(s, fmt)]: no match, text left over after the
    match, or a field out of range raise [ValueError]. *)
Definition strptime (s : string) (fmt : list directive) : result datetime :=
  match strp fmt s tm0 with
  | Some (t, EmptyString) =>
      make_datetime (tm_year t) (tm_mon t) (tm_mday t)
                    (tm_hour t) (tm_min t) (tm_sec t) (tm_frac t)
  | _ => Raise ValueError
  end.

(** *** [str] comparison and [sorted]

    [a < b] on [str] compares code points, a proper prefix being smaller;
    on UTF-8 text the order of the encodings is the order of the code
    points. *)
Fixpoint codes (s : string) : list Z :=
  match s with
  | EmptyString => []
  | String c t => code c :: codes t
  end.

Definition str_lt (a b : string) : bool := lex_lt (codes a) (codes b).

(** [sorted(l, key=...)] is a stable sort that compares keys with [<]
    only: an element goes before the first one that is not smaller. *)
Fixpoint insert {A : Type} (lt : A -> A -> bool) (x : A) (l : list A) : list A :=
  match l with
  | [] => [x]
  | y :: l' => if lt y x then y :: insert lt x l' else x :: l
  end.

Definition sorted {A : Type} (lt : A -> A -> bool) (l : list A) : list A :=
  fold_right (insert lt) [] l.

(** [x] may stand before [y]: [y] is not smaller than [x]. *)
Definition le {A : Type} (lt : A -> A -> bool) (x y : A) : Prop :=
  lt y x = false.

(** *** [xml.etree.ElementTree]

    An element with its tag, its [text] (absent when no character data
    precedes the first child) and its children. *)
#[local] Unset Elimination Schemes.
Inductive Element : Type :=
| Elem (tag : string) (text : option string) (children : list Element).
#[local] Set Elimination Schemes.

Definition etag (e : Element) : string :=
  match e with Elem t _ _ => t end.
Definition etext (e : Element) : option string :=
  match e with Elem _ x _ => x end.
Definition echildren (e : Element) : list Element :=
  match e with Elem _ _ c => c end.

(** [element.find(tag)]: the first child with that tag. *)
Definition find (e : Element) (tag : string) : option Element :=
  List.find (fun c => String.eqb (etag c) tag) (echildren e).

(** [element.findall(tag)]: the children with that tag, in document
    order. *)
Definition findall (e : Element) (tag : string) : list Element :=
  List.filter (fun c => String.eqb (etag c) tag) (echildren e).

(** *** Files and the console

    A file holds the text that [read()] returns for it; a text written by
    the code is the text a later [read()] returns. *)

Definition newline : ascii := ascii_of_nat 10.

(** [f.readlines()]: the lines with their terminators. *)
Fixpoint readlines (s : string) : list string :=
  match s with
  | EmptyString => []
  | String c t =>
      if Ascii.eqb c newline then String c EmptyString :: readlines t
      else match readlines t with
           | [] => [String c EmptyString]
           | l :: ls => String c l :: ls
           end
  end.

(** [f.writelines(lines)] writes the concatenation. *)
Definition joinlines (lines : list string) : string :=
  fold_right String.append EmptyString lines.

Section IO.
Context {msg : Type}.

Record world : Type := mkWorld {
  files : gmap string string;
  console : list msg
}.

Definition io (A : Type) : Type := world -> result A * world.

#[global] Instance io_ret : MRet io := fun A a w => (Ok a, w).

#[global] Instance io_bind : MBind io := fun A B k m w =>
  match m w with
  | (Ok a, w') => k a w'
  | (Raise e, w') => (Raise e, w')
  end.

Definition lift {A : Type} (r : result A) : io A := fun w => (r, w).

Definition print (m : msg) : io unit := fun w =>
  (Ok tt, mkWorld (files w) (console w ++ [m])).

(** [open(path, 'r').read()] *)
Definition read_file (path : string) : io string := fun w =>
  match files w !! path with
  | Some content => (Ok content, w)
  | None => (Raise FileNotFoundError, w)
  end.

(** [open(path, 'w').write(content)] *)
Definition write_file (path content : string) : io unit := fun w =>
  (Ok tt, mkWorld (<[path := content]> (files w)) (console w)).

(** [shutil.copy2(src, dst)] *)
Definition copy2 (src dst : string) : io unit :=
  content ← read_file src; write_file dst content.

(** [try: body / except Exception as e: handler e] *)
Definition try_except {A : Type} (body : io A) (handler : exn -> io A) : io A :=
  fun w =>
    match body w with
    | (Raise e, w') => handler e w'
    | r => r
    end.
End IO.
Arguments world : clear implicits.
Arguments io : clear implicits.

(** [a / b] on integers: the quotient as a fraction (the rounding of the
    floating point result is outside the model); division by zero raises. *)
Definition truediv (a b : Z) : result (Z * Z) :=
  if (b =? 0)%Z then Raise ZeroDivisionError else Ok (a, b).

End Py.

(** ** The class [GatewayParser] *)
Module GatewayParser.
Import Py.

(** [r'P\d+-T\d+ (\d{2}/\d{2}/\d{4} \d{2}:\d{2}:\d{2}:\d{3})'] *)
Definition pangpa_pattern : list atom :=
  [Lit "P"; DigPlus; Lit "-"; Lit "T"; DigPlus; Lit " "; Grp]
  ++ digs 2 ++ [Lit "/"] ++ digs 2 ++ [Lit "/"] ++ digs 4 ++ [Lit " "]
  ++ digs 2 ++ [Lit ":"] ++ digs 2 ++ [Lit ":"] ++ digs 2 ++ [Lit ":"]
  ++ digs 3.

(** [r'(\d{2}/\d{2}/\d{2} \d{2}:\d{2}:\d{2}:\d{3})'] *)
Definition pangps_pattern : list atom :=
  [Grp]
  ++ digs 2 ++ [Lit "/"] ++ digs 2 ++ [Lit "/"] ++ digs 2 ++ [Lit " "]
  ++ digs 2 ++ [Lit ":"] ++ digs 2 ++ [Lit ":"] ++ digs 2 ++ [Lit ":"]
  ++ digs 3.

(** ['%m/%d/%Y %H:%M:%S'] and ['%m/%d/%y %H:%M:%S'] *)
Definition fmt_seconds (y : directive) : list directive :=
  [D_m; D_lit "/"; D_d; D_lit "/"; y; D_space;
   D_H; D_lit ":"; D_M; D_lit ":"; D_S].

(** ['%m/%d/%Y %H:%M:%S:%f'] and ['%m/%d/%y %H:%M:%S:%f'] *)
Definition fmt_millis (y : directive) : list directive :=
  fmt_seconds y ++ [D_lit ":"; D_f].

(** One dialect of [parse_log_timestamp]: the search, the parse with the
    fraction, and the retry on the first [n] characters when the first
    parse raises [ValueError].  [None] stands for falling out of the [if]
    (no match, or [pass] in the inner handler).  [strptime] and [replace]
    raise nothing but [ValueError], which is what both handlers catch. *)
Definition parse_dialect (pattern : list atom) (y : directive) (n : nat)
  (log_line : string) : option datetime :=
  match search pattern log_line with
  | Some m =>
      let timestamp_str := group1 m in
      match (dt ← strptime timestamp_str (fmt_millis y);
             replace_microsecond dt (microsecond dt * 1000)) with
      | Ok dt => Some dt
      | Raise _ =>
          match strptime (take n timestamp_str) (fmt_seconds y) with
          | Ok dt => Some dt
          | Raise _ => None
          end
      end
  | None => None
  end.

Definition parse_log_timestamp (log_line : string) : option datetime :=
  match parse_dialect pangpa_pattern D_Y 19 log_line with
  | Some dt => Some dt
  | None => parse_dialect pangps_pattern D_y 17 log_line
  end.

(** *** Console messages, one constructor for each [print] *)
Inductive msg : Type :=
| NoGatewayListFound
| FileNotFound (file_path : string)
| ErrorParsingFile (e : exn)
| XmlParsingError
| BackupCreated (backup_file : string)
| GatewayListRemoved
| OriginalSize (n : nat)
| NewSize (n : nat)
| Removed (removed_size : Z) (percent : Z * Z)
| CleanedLogSavedTo (output_file : string)
| OriginalLogUpdated (input_file : string)
| ErrorRemoving (e : exn)
| FilteringComplete
| TotalLogLines (n : nat)
| LinesKept (n : nat)
| LinesRemoved (n : nat) (percent : Z * Z)
| StartTime (t : datetime)
| EndTime (t : datetime)
| FilteredLogSavedTo (output_file : string)
| ErrorFiltering (e : exn).

(** *** Gateway records *)

Record GatewayRecord : Type := mkGateway {
  gateway : string;
  description : string;
  priority : Z;
  tunnel : string;
  manual : string;
  authenticated : string;
  internal : string;
  allow_tunnel : string;
  last_hip_sent : string
}.

(** [child.text if child is not None and child.text else default] *)
Definition _get_text (element : Element) (tag default : string) : string :=
  match find element tag with
  | Some child =>
      match etext child with
      | Some (String c t) => String c t
      | _ => default
      end
  | None => default
  end.

(** The body of the loop over the entries. *)
Definition gateway_info (entry : Element) : result GatewayRecord :=
  p ← int (_get_text entry "priority" "0");
  Ok {| gateway := _get_text entry "gateway" "";
        description := _get_text entry "description" "";
        priority := p;
        tunnel := _get_text entry "tunnel" "";
        manual := _get_text entry "manual" "";
        authenticated := _get_text entry "authenticated" "";
        internal := _get_text entry "internal" "";
        allow_tunnel := _get_text entry "allow-tunnel" "";
        last_hip_sent := _get_text entry "last_hip_sent" "" |}.

(** [(x['priority'], x['description'])] compared as tuples *)
Definition key_lt (x y : GatewayRecord) : bool :=
  ((priority x <? priority y)
   || ((priority x =? priority y) && str_lt (description x) (description y)))%Z.

(** [r'<gateway-list.*?</gateway-list>'] with [re.DOTALL] *)
Definition gateway_list_pattern : list atom :=
  lits "<gateway-list" ++ [AnyLazy] ++ lits "</gateway-list>".

Definition placeholder : string :=
  "<gateway-list-removed comment=" +:+ String (ascii_of_nat 34)
    ("Gateway list removed to reduce log size" +:+ String (ascii_of_nat 34) "/>").

Section Extraction.
(** [ET.fromstring]; [None] is [ET.ParseError]. *)
Variable fromstring : string -> option Element.

Definition _parse_gateway_xml (xml_content : string)
  : io msg (list GatewayRecord) :=
  match fromstring xml_content with
  | Some root =>
      gateways ← lift (mapM gateway_info (findall root "entry"));
      mret (sorted key_lt gateways)
  | None => print XmlParsingError ;; mret []
  end.

Definition parse_log_file (file_path : string)
  : io msg (list GatewayRecord) :=
  try_except
    (content ← read_file file_path;
     match search gateway_list_pattern content with
     | None => print NoGatewayListFound ;; mret []
     | Some xml_match => _parse_gateway_xml (group0 xml_match)
     end)
    (fun e =>
       match e with
       | FileNotFoundError => print (FileNotFound file_path) ;; mret []
       | _ => print (ErrorParsingFile e) ;; mret []
       end).
End Extraction.

(** *** Removal of the gateway list

    [now] is [datetime.now().strftime("%Y%m%d_%H%M%S")]. *)
Definition remove_gateway_list_from_log (now : string)
  (input_file : string) (output_file : option string) (create_backup : bool)
  : io msg bool :=
  try_except
    (content ← read_file input_file;
     (if create_backup
      then let backup_file := input_file +:+ ".backup_" +:+ now in
           copy2 input_file backup_file ;;
           print (BackupCreated backup_file)
      else mret tt) ;;
     let original_size := String.length content in
     let content_cleaned := sub gateway_list_pattern placeholder content in
     let new_size := String.length content_cleaned in
     let removed_size := (Z.of_nat original_size - Z.of_nat new_size)%Z in
     let output_file := default input_file output_file in
     write_file output_file content_cleaned ;;
     print GatewayListRemoved ;;
     print (OriginalSize original_size) ;;
     print (NewSize new_size) ;;
     percent ← lift (truediv removed_size (Z.of_nat original_size));
     print (Removed removed_size percent) ;;
     (if String.eqb output_file input_file
      then print (OriginalLogUpdated input_file)
      else print (CleanedLogSavedTo output_file)) ;;
     mret true)
    (fun e => print (ErrorRemoving e) ;; mret false).

(** *** The time-window filter *)

(** One iteration of the loop over the lines; the state is
    [(filtered_lines, filtered_count)]. *)
Definition filter_step (start_time end_time : option datetime)
  (st : list string * nat) (line : string) : list string * nat :=
  let '(filtered_lines, filtered_count) := st in
  match parse_log_timestamp line with
  | None => (filtered_lines ++ [line], filtered_count)
  | Some log_time =>
      let keep_line := true in
      let keep_line :=
        match start_time with
        | Some s => if dt_lt log_time s then false else keep_line
        | None => keep_line
        end in
      let keep_line :=
        match end_time with
        | Some e => if dt_gt log_time e then false else keep_line
        | None => keep_line
        end in
      if keep_line
      then (filtered_lines ++ [line], filtered_count)
      else (filtered_lines, S filtered_count)
  end.

Definition filter_loop (start_time end_time : option datetime)
  (lines : list string) : list string * nat :=
  fold_left (filter_step start_time end_time) lines ([], 0).

Definition filter_logs_by_time (now : string) (input_file : string)
  (start_time end_time : option datetime)
  (output_file : option string) (create_backup : bool) : io msg bool :=
  try_except
    (content ← read_file input_file;
     let lines := readlines content in
     (if create_backup
      then let backup_file := input_file +:+ ".backup_" +:+ now in
           write_file backup_file (joinlines lines) ;;
           print (BackupCreated backup_file)
      else mret tt) ;;
     let total_count := length lines in
     let '(filtered_lines, filtered_count) :=
       filter_loop start_time end_time lines in
     let output_file := default input_file output_file in
     write_file output_file (joinlines filtered_lines) ;;
     let kept_count := total_count - filtered_count in
     print FilteringComplete ;;
     print (TotalLogLines total_count) ;;
     print (LinesKept kept_count) ;;
     percent ← lift (truediv (Z.of_nat filtered_count) (Z.of_nat total_count));
     print (LinesRemoved filtered_count percent) ;;
     (match start_time with Some t => print (StartTime t) | None => mret tt end) ;;
     (match end_time with Some t => print (EndTime t) | None => mret tt end) ;;
     (if String.eqb output_file input_file
      then print (OriginalLogUpdated input_file)
      else print (FilteredLogSavedTo output_file)) ;;
     mret true)
    (fun e => print (ErrorFiltering e) ;; mret false).

(** *** The interactive front end: [parse_time_input] and the window
    prompt of [get_time_filter_options] (choice 3) *)

Definition time_formats : list (list directive) :=
  [ [D_m; D_lit "/"; D_d; D_lit "/"; D_y; D_space; D_H; D_lit ":"; D_M; D_lit ":"; D_S];
    [D_m; D_lit "/"; D_d; D_lit "/"; D_y; D_space; D_H; D_lit ":"; D_M];
    [D_m; D_lit "/"; D_d; D_lit "/"; D_Y; D_space; D_H; D_lit ":"; D_M; D_lit ":"; D_S];
    [D_m; D_lit "/"; D_d; D_lit "/"; D_Y; D_space; D_H; D_lit ":"; D_M];
    [D_Y; D_lit "-"; D_m; D_lit "-"; D_d; D_space; D_H; D_lit ":"; D_M; D_lit ":"; D_S];
    [D_Y; D_lit "-"; D_m; D_lit "-"; D_d; D_space; D_H; D_lit ":"; D_M];
    [D_Y; D_lit "-"; D_m; D_lit "-"; D_d];
    [D_m; D_lit "/"; D_d; D_lit "/"; D_y];
    [D_m; D_lit "/"; D_d; D_lit "/"; D_Y] ].

Definition parse_time_input (time_str : string) : option datetime :=
  match strip time_str with
  | EmptyString => None
  | time_str =>
      first_some (fun fmt => match strptime time_str fmt with
                             | Ok dt => Some dt
                             | Raise _ => None
                             end) time_formats
  end.

(** The loop that asks for the end of the window; [answers] are the lines
    the user types, [None] is the end of the input. *)
Fixpoint prompt_end_time (start_time : datetime) (answers : list string)
  : option datetime :=
  match answers with
  | [] => None
  | a :: rest =>
      match parse_time_input (strip a) with
      | Some end_time =>
          if dt_gt end_time start_time then Some end_time
          else prompt_end_time start_time rest
      | None => prompt_end_time start_time rest
      end
  end.

End GatewayParser.

(** ** A reference XML reader for plain element trees

    An instance of the parser interface on the fragment of XML made of
    elements without attributes and of character data without entity
    references; everything else is answered with a parse error.  It serves
    to run the extractor on concrete documents. *)
Module MiniET.
Import Py.

Definition name_char (c : ascii) : bool :=
  negb (is_space c)
  && negb (Ascii.eqb c "<") && negb (Ascii.eqb c ">")
  && negb (Ascii.eqb c "/") && negb (Ascii.eqb c "&").

Definition text_char (c : ascii) : bool :=
  negb (Ascii.eqb c "<") && negb (Ascii.eqb c "&").

Fixpoint span_while (p : ascii -> bool) (s : string) : string * string :=
  match s with
  | String c t =>
      if p c then let (a, b) := span_while p t in (String c a, b)
      else (EmptyString, s)
  | EmptyString => (EmptyString, EmptyString)
  end.

Definition text_of (s : string) : option string :=
  match s with
  | EmptyString => None
  | _ => Some s
  end.

(** [element] reads one element, [content] the children of an open
    element up to and including its closing tag, whose name it returns. *)
Fixpoint element (fuel : nat) (s : string) {struct fuel}
  : option (Element * string) :=
  match fuel with
  | O => None
  | S fuel' =>
      match s with
      | String "<" t =>
          let (name, r) := span_while name_char t in
          match name, r with
          | EmptyString, _ => None
          | _, String "/" (String ">" r') => Some (Elem name None [], r')
          | _, String ">" r' =>
              let (txt, r1) := span_while text_char r' in
              match content fuel' r1 with
              | Some (kids, closing, r2) =>
                  if String.eqb name closing
                  then Some (Elem name (text_of txt) kids, r2)
                  else None
              | None => None
              end
          | _, _ => None
          end
      | _ => None
      end
  end
with content (fuel : nat) (s : string) {struct fuel}
  : option (list Element * string * string) :=
  match fuel with
  | O => None
  | S fuel' =>
      match s with
      | String "<" (String "/" t) =>
          let (name, r) := span_while name_char t in
          match r with
          | String ">" r' => Some ([], name, r')
          | _ => None
          end
      | _ =>
          match element fuel' s with
          | Some (e, r) =>
              let (_, r1) := span_while text_char r in
              match content fuel' r1 with
              | Some (kids, closing, r2) => Some (e :: kids, closing, r2)
              | None => None
              end
          | None => None
          end
      end
  end.

Definition fromstring (s : string) : option Element :=
  match element (S (String.length s)) s with
  | Some (e, EmptyString) => Some e
  | _ => None
  end.

End MiniET.

(** ** The notions of the specification *)
Module Spec.
Import Py GatewayParser.

(** A gateway-list block: an opening [<gateway-list] followed, at any
    distance, by a closing [</gateway-list>]. *)
Definition has_block (content : string) : Prop :=
  exists before inside after : string,
    content = before +:+ "<gateway-list" +:+ inside
              +:+ "</gateway-list>" +:+ after.

(** [c in s] for a character *)
Fixpoint occurs (c : ascii) (s : string) : bool :=
  match s with
  | EmptyString => false
  | String d t => Ascii.eqb d c || occurs c t
  end.

(** Every closing tag of the content ends a block: the content is a run
    of segments, each with an opening tag before its closing tag, the
    first closing tag from where the segment starts, and then a rest that
    holds no closing tag. *)
Inductive closing_tags_matched : string -> Prop :=
| no_closing_tag content :
    contains "</gateway-list>" content = false ->
    closing_tags_matched content
| closed_block content before inside rest :
    content = before +:+ "<gateway-list" +:+ inside
              +:+ "</gateway-list>" +:+ rest ->
    contains "</gateway-list>" (before +:+ "<gateway-list" +:+ inside)
    = false ->
    closing_tags_matched rest ->
    closing_tags_matched content.

(** The window of section 3: [start] absent or [t >= start], and [end]
    absent or [t <= end]. *)
Definition in_window (start_time end_time : option datetime) (t : datetime)
  : bool :=
  match start_time with
  | None => true
  | Some s => dt_le s t
  end
  && match end_time with
     | None => true
     | Some e => dt_le t e
     end.

(** A line is kept when no timestamp is parsed from it or when its time
    is in the window. *)
Definition retained (start_time end_time : option datetime) (line : string)
  : bool :=
  match parse_log_timestamp line with
  | None => true
  | Some t => in_window start_time end_time t
  end.

(** Ascending order on the pair (priority, description): the priorities
    compared as numbers, equal priorities resolved by the descriptions
    compared as strings. *)
Definition str_le (a b : string) : Prop := str_lt b a = false.

Definition key_le (x y : GatewayRecord) : Prop :=
  (priority x < priority y)%Z
  \/ (priority x = priority y /\ str_le (description x) (description y)).

(** The text of a sub-element, empty when the sub-element is missing or
    has no text. *)
Definition field_text (entry : Element) (tag : string) : string :=
  match find entry tag with
  | Some (Elem _ (Some t) _) => t
  | _ => EmptyString
  end.

(** A sub-element that is missing or has no text. *)
Definition no_text (entry : Element) (tag : string) : Prop :=
  find entry tag = None
  \/ exists child, find entry tag = Some child
                   /\ (etext child = None \/ etext child = Some EmptyString).

(** Scenario 1 of the specification. *)
Definition scenario1 : string :=
  "<gateway-list><entry><gateway>gw1</gateway><description>East</description><priority>10</priority></entry><entry><gateway>gw2</gateway><description>West</description><priority>5</priority></entry></gateway-list>".

Definition scenario1_tree : Element :=
  Elem "gateway-list" None
    [Elem "entry" None
       [Elem "gateway" (Some "gw1") [];
        Elem "description" (Some "East") [];
        Elem "priority" (Some "10") []];
     Elem "entry" None
       [Elem "gateway" (Some "gw2") [];
        Elem "description" (Some "West") [];
        Elem "priority" (Some "5") []]].

Definition east : GatewayRecord := mkGateway "gw1" "East" 10 "" "" "" "" "" "".
Definition west : GatewayRecord := mkGateway "gw2" "West" 5 "" "" "" "" "" "".

(** The transformation of the remover on a content. *)
Definition cleaned (content : string) : string :=
  sub gateway_list_pattern placeholder content.

(** Lines as [readlines] yields them: a line that ends with its only
    newline, or, in the last place, a non-empty line without newline. *)
Fixpoint terminated (l : string) : Prop :=
  match l with
  | EmptyString => False
  | String c t => if Ascii.eqb c newline then t = EmptyString else terminated t
  end.

Fixpoint unterminated (l : string) : Prop :=
  match l with
  | EmptyString => False
  | String c t =>
      Ascii.eqb c newline = false /\ (t = EmptyString \/ unterminated t)
  end.

Inductive lines_wf : list string -> Prop :=
| wf_nil : lines_wf []
| wf_last (l : string) : unterminated l -> lines_wf [l]
| wf_cons (l : string) (ls : list string) :
    terminated l -> lines_wf ls -> lines_wf (l :: ls).

(** Strings of digits, and the length of the longest suffix of a string
    that is made of digits only. *)
Fixpoint all_digits (s : string) : bool :=
  match s with
  | EmptyString => true
  | String c t => is_digit c && all_digits t
  end.

Fixpoint trailing_digits (s : string) : nat :=
  match s with
  | EmptyString => 0
  | String c t =>
      if all_digits (String c t) then String.length (String c t)
      else trailing_digits t
  end.

(** What each candidate of a directive leaves is a suffix of the subject. *)
Definition leaves_suffix {V : Type} (l : list (V * string)) (s : string) : Prop :=
  forall c, In c l -> exists q, s = q +:+ snd c.

(** The backup of a file and the files once it is made. *)
Definition backup_of (now input_file : string) : string :=
  input_file +:+ ".backup_" +:+ now.

Definition with_backup (create_backup : bool) (now input_file content : string)
  (fs : gmap string string) : gmap string string :=
  if create_backup then <[backup_of now input_file := content]> fs else fs.

(** The number of lines that a window excludes. *)
Definition dropped (start_time end_time : option datetime)
  (lines : list string) : nat :=
  length (List.filter (fun l => negb (retained start_time end_time l)) lines).

End Spec.

(** ** Sample logs and worlds *)
Module Samples.
Import Py GatewayParser Spec.

Definition sample_log : string :=
  "P2104-T34307 09/24/2025 08:51:52:597 connecting" +:+ String newline
    ("<entry>no time here</entry>" +:+ String newline
       "P2104-T34307 09/26/2025 10:00:00:000 connected").

Definition sample_world : world msg :=
  mkWorld {[ "gp.log" := sample_log ]} [].

Definition sep25 : datetime := mkdatetime 2025 9 25 0 0 0 0.

Definition sep23 : datetime := mkdatetime 2025 9 23 0 0 0 0.

Definition empty_world : world msg := mkWorld {[ "gp.log" := "" ]} [].

Definition stray_log : string :=
  "<gateway-list>a</gateway-list></gateway-list>".

Definition stray_world : world msg :=
  mkWorld {[ "gp.log" := stray_log ]} [].

Definition listed_log : string :=
  "P2104-T34307 09/24/2025 08:51:52:597 list follows" +:+ String newline
    ("<gateway-list><entry><gateway>gw1</gateway></entry></gateway-list>"
     +:+ String newline "P2104-T34307 09/24/2025 08:51:53:000 done").

Definition listed_world : world msg :=
  mkWorld {[ "gp.log" := listed_log ]} [].

Definition scenario1_world : world msg :=
  mkWorld {[ "gp.log" := scenario1 ]} [].

Definition bad_priority_log : string :=
  "<gateway-list><entry><gateway>gw1</gateway><priority>10</priority></entry><entry><gateway>gw2</gateway><priority>high</priority></entry></gateway-list>".

Definition bad_priority_world : world msg :=
  mkWorld {[ "gp.log" := bad_priority_log ]} [].

Definition unset_priority_log : string :=
  "<gateway-list><entry><gateway>gw1</gateway><priority></priority></entry><entry><gateway>gw2</gateway></entry><entry><gateway>gw3</gateway><priority>7</priority></entry></gateway-list>".

Definition empty_priority_entry : Element :=
  Elem "entry" None [Elem "gateway" (Some "gw1") []; Elem "priority" None []].

Definition no_priority_entry : Element :=
  Elem "entry" None [Elem "gateway" (Some "gw2") []].

Definition unset_priority_tree : Element :=
  Elem "gateway-list" None
    [empty_priority_entry; no_priority_entry;
     Elem "entry" None [Elem "gateway" (Some "gw3") [];
                        Elem "priority" (Some "7") []]].

Definition unset_priority_world : world msg :=
  mkWorld {[ "gp.log" := unset_priority_log ]} [].

Definition negative_log : string :=
  "<gateway-list><entry><gateway>gw1</gateway><description>East</description><priority>-5</priority></entry></gateway-list>".

Definition negative_world : world msg :=
  mkWorld {[ "gp.log" := negative_log ]} [].

Definition scenario2 : string :=
  "P2104-T34307 09/24/2025 08:51:52:597 connecting".

End Samples.

(** ** The rest of the class: the time range, the gateway filters and
    the summary *)
Module GatewayParserRest.
Import Py GatewayParser.

(** The console of the whole tool: the messages of the three operations
    above, and one constructor for each further [print]. *)
Inductive event : Type :=
| Core (m : msg)
| ErrorGettingTimeRange (e : exn)
| NoGatewaysFound
| GatewaySummary
| TotalGateways (n : nat)
| AuthenticatedGateways (n : nat)
| ManualGateways (n : nat)
| PriorityDistribution (items : list (Z * nat))
| TopGateways
| TopGateway (i : nat) (label : string) (prio : Z) (auth_ok : bool)
| NoGatewaysToExport
| Exported (n : nat) (output_file : string)
| RemovingFrom (current_file : string)
| InvalidStartTime (given : string)
| InvalidEndTime (given : string)
| InvalidRecentFormat (given : string)
| InvalidRecent (given : string)
| FilteringFrom (current_file : string)
| ParsingLogFile (current_file : string)
| FoundGateways (n : nat)
| GatewayLine (label : string) (prio : Z) (auth_ok : bool).

(** *** [get_log_time_range] *)

(** One iteration of the loop; the state is [(first_time, last_time)]. *)
Definition range_step (st : option datetime * option datetime) (line : string)
  : option datetime * option datetime :=
  let '(first_time, last_time) := st in
  match parse_log_timestamp line with
  | Some log_time =>
      (match first_time with
       | None => Some log_time
       | Some _ => first_time
       end,
       Some log_time)
  | None => (first_time, last_time)
  end.

Definition get_log_time_range (input_file : string)
  : io event (option datetime * option datetime) :=
  try_except
    (content ← read_file input_file;
     let lines := readlines content in
     mret (fold_left range_step lines (None, None)))
    (fun e => print (ErrorGettingTimeRange e) ;; mret (None, None)).

(** *** [filter_gateways] *)

(** The keyword arguments: a flag is what [filters.get] finds true, and
    an absent key, [None] or an empty region is [None]. *)
Record filters : Type := mkFilters {
  authenticated_only : bool;
  manual_only : bool;
  min_priority : option Z;
  region : option string
}.

Section FilterGateways.
(** [str.lower] *)
Variable str_lower : string -> string.

Definition filter_gateways (gateways : list GatewayRecord) (f : filters)
  : list GatewayRecord :=
  let filtered := gateways in
  let filtered :=
    if authenticated_only f
    then List.filter (fun g => String.eqb (authenticated g) "yes") filtered
    else filtered in
  let filtered :=
    if manual_only f
    then List.filter (fun g => String.eqb (manual g) "yes") filtered
    else filtered in
  let filtered :=
    match min_priority f with
    | Some m => List.filter (fun g => (m <=? priority g)%Z) filtered
    | None => filtered
    end in
  let filtered :=
    match region f with
    | Some (String c r) =>
        let region := str_lower (String c r) in
        List.filter (fun g => contains region (str_lower (description g)))
                    filtered
    | _ => filtered
    end in
  filtered.
End FilterGateways.

(** *** [print_summary] *)

(** [priorities[priority] = priorities.get(priority, 0) + 1] on a
    dictionary kept in insertion order. *)
Fixpoint bump (p : Z) (d : list (Z * nat)) : list (Z * nat) :=
  match d with
  | [] => [(p, 1)]
  | (q, c) :: d' => if (q =? p)%Z then (q, S c) :: d' else (q, c) :: bump p d'
  end.

Definition priority_counts (gateways : list GatewayRecord) : list (Z * nat) :=
  fold_left (fun d g => bump (priority g) d) gateways [].

(** [<] on the items [(priority, count)] *)
Definition item_lt (x y : Z * nat) : bool :=
  ((fst x <? fst y)
   || ((fst x =? fst y) && (Z.of_nat (snd x) <? Z.of_nat (snd y))))%Z.

(** [sorted(gateways, key=lambda x: x['priority'], reverse=True)]: the
    descending order, gateways of equal priority in their given order. *)
Definition by_priority_desc (gateways : list GatewayRecord)
  : list GatewayRecord :=
  sorted (fun x y => (priority y <? priority x)%Z) gateways.

(** [enumerate(l, 1)] *)
Fixpoint enumerate_from {A : Type} (i : nat) (l : list A) : list (nat * A) :=
  match l with
  | [] => []
  | x :: l' => (i, x) :: enumerate_from (S i) l'
  end.

Fixpoint print_all (ms : list event) : io event unit :=
  match ms with
  | [] => mret tt
  | m :: ms' => print m ;; print_all ms'
  end.

Definition count_yes (field : GatewayRecord -> string)
  (gateways : list GatewayRecord) : nat :=
  length (List.filter (fun g => String.eqb (field g) "yes") gateways).

Definition print_summary (gateways : list GatewayRecord) : io event unit :=
  match gateways with
  | [] => print NoGatewaysFound
  | _ =>
      let total := length gateways in
      let authenticated := count_yes authenticated gateways in
      let manual := count_yes manual gateways in
      let priorities := priority_counts gateways in
      print GatewaySummary ;;
      print (TotalGateways total) ;;
      print (AuthenticatedGateways authenticated) ;;
      print (ManualGateways manual) ;;
      print (PriorityDistribution (sorted item_lt priorities)) ;;
      print TopGateways ;;
      let sorted_gateways := by_priority_desc gateways in
      print_all
        (map (fun ig =>
                TopGateway (fst ig) (description (snd ig)) (priority (snd ig))
                           (String.eqb (GatewayParser.authenticated (snd ig)) "yes"))
             (enumerate_from 1 (firstn 10 sorted_gateways)))
  end.

(** *** The exports *)

(** [str(n)] for an integer *)
Definition str_of_int (n : Z) : string := NilZero.string_of_int (Z.to_int n).

Fixpoint repeat_char (c : ascii) (n : nat) : string :=
  match n with
  | O => EmptyString
  | S k => String c (repeat_char c k)
  end.

Definition nl : string := String newline EmptyString.

(** The lines that [export_to_text] writes for one gateway. *)
Definition text_block (g : GatewayRecord) : string :=
  ("Description: " +:+ description g +:+ nl)
  +:+ ("Gateway: " +:+ gateway g +:+ nl)
  +:+ ("Priority: " +:+ str_of_int (priority g) +:+ nl)
  +:+ ("Authenticated: " +:+ authenticated g +:+ nl)
  +:+ ("Manual: " +:+ manual g +:+ nl)
  +:+ (match last_hip_sent g with
       | EmptyString => EmptyString
       | hip => "Last HIP: " +:+ hip +:+ nl
       end)
  +:+ (repeat_char "-" 30 +:+ nl).

Definition text_header : string :=
  ("GlobalProtect Gateway List" +:+ nl) +:+ (repeat_char "=" 50 +:+ nl +:+ nl).

Definition export_to_text (gateways : list GatewayRecord)
  (output_file : string) : io event unit :=
  write_file output_file
    (text_header +:+ joinlines (map text_block gateways)) ;;
  print (Exported (length gateways) output_file).

(** The keys of a record, in the order [_parse_gateway_xml] sets them,
    and its values as the CSV writer sees them. *)
Definition fieldnames : list string :=
  ["gateway"; "description"; "priority"; "tunnel"; "manual";
   "authenticated"; "internal"; "allow_tunnel"; "last_hip_sent"].

Definition cells (g : GatewayRecord) : list string :=
  [gateway g; description g; str_of_int (priority g); tunnel g; manual g;
   authenticated g; internal g; allow_tunnel g; last_hip_sent g].

Section Exports.
(** The text that [csv.writer.writerow] writes for a row of cells, and the
    text that [json.dump(gateways, f, indent=2, ensure_ascii=False)]
    writes. *)
Variable csv_row : list string -> string.
Variable json_dump : list GatewayRecord -> string.

Definition export_to_csv (gateways : list GatewayRecord)
  (output_file : string) : io event unit :=
  match gateways with
  | [] => print NoGatewaysToExport
  | _ =>
      write_file output_file
        (csv_row fieldnames +:+ joinlines (map (fun g => csv_row (cells g))
                                               gateways)) ;;
      print (Exported (length gateways) output_file)
  end.

Definition export_to_json (gateways : list GatewayRecord)
  (output_file : string) : io event unit :=
  write_file output_file (json_dump gateways) ;;
  print (Exported (length gateways) output_file).
End Exports.

(** *** [main] *)

Inductive export_format : Type := Csv | Json | Txt.

(** The namespace that [parser.parse_args()] returns. *)
Record args : Type := mkArgs {
  arg_input_file : option string;
  arg_interactive : bool;
  arg_output : option string;
  arg_format : export_format;
  arg_remove_gateways : bool;
  arg_cleaned_log : option string;
  arg_filter_time : bool;
  arg_start_time : option string;
  arg_end_time : option string;
  arg_recent : option string;
  arg_filtered_log : option string;
  arg_no_backup : bool;
  arg_authenticated_only : bool;
  arg_manual_only : bool;
  arg_min_priority : option Z;
  arg_region : option string;
  arg_summary : bool
}.

(** The truth value of an optional string: [None] and [''] are false. *)
Definition truthy (o : option string) : bool :=
  match o with
  | Some (String _ _) => true
  | _ => false
  end.

(** How a run of [main] goes on: with a value, by a [return], or with
    an exception that nothing catches. *)
Inductive failure : Type :=
| Exn (e : exn)
| OverflowError.

Inductive flow (A : Type) : Type :=
| Next (a : A)
| Return
| Uncaught (f : failure).
Arguments Next {A} a.
Arguments Return {A}.
Arguments Uncaught {A} f.

Definition proc (A : Type) : Type := world event -> flow A * world event.

#[global] Instance proc_ret : MRet proc := fun A a v => (Next a, v).

#[global] Instance proc_bind : MBind proc := fun A B k m v =>
  match m v with
  | (Next a, v') => k a v'
  | (Return, v') => (Return, v')
  | (Uncaught f, v') => (Uncaught f, v')
  end.

Definition return_ {A : Type} : proc A := fun v => (Return, v).

Definition run {A : Type} (m : io event A) : proc A := fun v =>
  match m v with
  | (Ok a, v') => (Next a, v')
  | (Raise e, v') => (Uncaught (Exn e), v')
  end.

Definition say (e : event) : proc unit := run (print e).

(** An operation of the class on the console of the tool. *)
Definition core {A : Type} (m : io msg A) : io event A := fun v =>
  let '(r, w') := m (mkWorld (files v) []) in
  (r, mkWorld (files w') (console v ++ map Core (console w'))).

Inductive time_unit : Type := Hours | Days | Minutes.

(** [s.endswith(c)] and [s[:-1]] *)
Fixpoint ends_with (c : ascii) (s : string) : bool :=
  match s with
  | EmptyString => false
  | String d EmptyString => Ascii.eqb d c
  | String _ t => ends_with c t
  end.

Fixpoint chop (s : string) : string :=
  match s with
  | EmptyString => EmptyString
  | String _ EmptyString => EmptyString
  | String d t => String d (chop t)
  end.

Section Main.
Variable fromstring : string -> option Element.
Variable str_lower : string -> string.
Variable csv_row : list string -> string.
Variable json_dump : list GatewayRecord -> string.
(** [interactive_mode()] *)
Variable interactive_mode : io event unit.
(** [datetime.now() - timedelta(unit=n)]; [None] is the [OverflowError]
    of a duration or of a date out of range. *)
Variable ago : time_unit -> Z -> option datetime.
(** The readings of the clock that name the two backups. *)
Variable now_remove now_filter : string.

(** The [try] block that resolves [--recent]. *)
Definition resolve_recent (given : string) : proc (option datetime) :=
  let recent_str := str_lower given in
  let since (u : time_unit) : proc (option datetime) :=
    match int (chop recent_str) with
    | Ok n =>
        match ago u n with
        | Some t => mret (Some t)
        | None => fun v => (Uncaught OverflowError, v)
        end
    | Raise _ => say (InvalidRecent given) ;; return_
    end in
  if ends_with "h" recent_str then since Hours
  else if ends_with "d" recent_str then since Days
  else if ends_with "m" recent_str then since Minutes
  else say (InvalidRecentFormat given) ;; return_.

Definition parse_bound (given : option string) (invalid : string -> event)
  : proc (option datetime) :=
  if truthy given
  then match parse_time_input (default "" given) with
       | Some t => mret (Some t)
       | None => say (invalid (default "" given)) ;; return_
       end
  else mret None.

(** "Handle gateway removal": the file that the next step works on. *)
Definition remove_phase (a : args) (current_file : string) : proc string :=
  if arg_remove_gateways a
  then
    say (RemovingFrom current_file) ;;
    success ← run (core (remove_gateway_list_from_log now_remove
                           current_file (arg_cleaned_log a)
                           (negb (arg_no_backup a))));
    if negb success then return_
    else mret (if truthy (arg_cleaned_log a)
               then default "" (arg_cleaned_log a)
               else current_file)
  else mret current_file.

(** "Parse time arguments": the two bounds of the window. *)
Definition time_bounds (a : args) : proc (option datetime * option datetime) :=
  start_time ← parse_bound (arg_start_time a) InvalidStartTime;
  end_time ← parse_bound (arg_end_time a) InvalidEndTime;
  start_time ←
    (if truthy (arg_recent a)
     then resolve_recent (default "" (arg_recent a))
     else mret start_time);
  mret (start_time, end_time).

(** "Handle time filtering" *)
Definition filter_phase (a : args) (current_file : string) : proc string :=
  if arg_filter_time a || truthy (arg_start_time a)
     || truthy (arg_end_time a) || truthy (arg_recent a)
  then
    '(start_time, end_time) ← time_bounds a;
    say (FilteringFrom current_file) ;;
    success ← run (core (filter_logs_by_time now_filter current_file
                           start_time end_time (arg_filtered_log a)
                           (negb (arg_no_backup a))));
    if negb success then return_
    else
      let current_file :=
        if truthy (arg_filtered_log a)
        then default "" (arg_filtered_log a)
        else current_file in
      if negb (truthy (arg_output a)) then return_
      else mret current_file
  else mret current_file.

(** "Parse the log file for gateway extraction" and what follows. *)
Definition extract_phase (a : args) (current_file : string) : proc unit :=
  say (ParsingLogFile current_file) ;;
  gateways ← run (core (parse_log_file fromstring current_file));
  match gateways with
  | [] => return_
  | _ =>
      let filtered_gateways :=
        filter_gateways str_lower gateways
          (mkFilters (arg_authenticated_only a) (arg_manual_only a)
                     (arg_min_priority a) (arg_region a)) in
      (if arg_summary a then run (print_summary filtered_gateways)
       else mret tt) ;;
      if truthy (arg_output a)
      then
        let output_file := default "" (arg_output a) in
        match arg_format a with
        | Csv => run (export_to_csv csv_row filtered_gateways output_file)
        | Json => run (export_to_json json_dump filtered_gateways output_file)
        | Txt => run (export_to_text filtered_gateways output_file)
        end
      else
        say (FoundGateways (length filtered_gateways)) ;;
        run (print_all
               (map (fun g => GatewayLine (description g) (priority g)
                                (String.eqb (authenticated g) "yes"))
                    filtered_gateways))
  end.

Definition main (a : args) : proc unit :=
  if negb (truthy (arg_input_file a)) || arg_interactive a
  then run interactive_mode ;; return_
  else
    let current_file := default "" (arg_input_file a) in
    current_file ← remove_phase a current_file;
    current_file ← filter_phase a current_file;
    extract_phase a current_file.
End Main.

End GatewayParserRest.

(** ** Notions for the properties of the whole class *)
Module SpecRest.
Import Py GatewayParser Spec GatewayParserRest.

(** A date of the calendar with a time of day, and no fraction of a
    second. *)
Definition calendar_time (dt : datetime) : Prop :=
  (1 <= year dt <= 9999 /\ 1 <= month dt <= 12
   /\ 1 <= day dt <= days_in_month (year dt) (month dt)
   /\ 0 <= hour dt <= 23 /\ 0 <= minute dt <= 59 /\ 0 <= second dt <= 59)%Z.

Definition whole_seconds (dt : datetime) : Prop := microsecond dt = 0%Z.

(** The timestamps of the lines that carry one, in the order of the
    lines. *)
Fixpoint timestamps (lines : list string) : list datetime :=
  match lines with
  | [] => []
  | line :: rest =>
      match parse_log_timestamp line with
      | Some t => t :: timestamps rest
      | None => timestamps rest
      end
  end.

(** The records of one (priority, description). *)
Definition has_key (p : Z) (d : string) (g : GatewayRecord) : bool :=
  (priority g =? p)%Z && String.eqb (description g) d.

(** What a set of filters accepts. *)
Definition accepts (str_lower : string -> string) (f : filters)
  (g : GatewayRecord) : bool :=
  (if authenticated_only f then String.eqb (authenticated g) "yes" else true)
  && (if manual_only f then String.eqb (manual g) "yes" else true)
  && match min_priority f with
     | Some m => (m <=? priority g)%Z
     | None => true
     end
  && match region f with
     | Some (String c r) =>
         contains (str_lower (String c r)) (str_lower (description g))
     | _ => true
     end.

(** How many gateways have the priority [p]. *)
Definition with_priority (p : Z) (gateways : list GatewayRecord) : nat :=
  length (List.filter (fun g => (priority g =? p)%Z) gateways).

(** The count that a dictionary of counts holds for [p], 0 when [p] is
    not a key. *)
Fixpoint count_for (p : Z) (d : list (Z * nat)) : nat :=
  match d with
  | [] => 0
  | (q, c) :: d' => if (q =? p)%Z then c else count_for p d'
  end.

(** The lines of the top list, numbered from 1. *)
Definition top_lines (top : list GatewayRecord) : list event :=
  map (fun ig => TopGateway (fst ig) (description (snd ig))
                            (priority (snd ig))
                            (String.eqb (authenticated (snd ig)) "yes"))
      (enumerate_from 1 top).

(** [str.lower] on ASCII text. *)
Fixpoint ascii_lower (s : string) : string :=
  match s with
  | EmptyString => EmptyString
  | String c t => String (lower c) (ascii_lower t)
  end.

Definition broken_log : string :=
  "<gateway-list><entry><gateway>gw1</entry></gateway-list>".

Definition broken_world : world msg :=
  mkWorld {[ "gp.log" := broken_log ]} [].

Definition twin_log : string :=
  "<gateway-list><entry><gateway>b</gateway><description>X</description><priority>1</priority></entry><entry><gateway>a</gateway><description>X</description><priority>1</priority></entry><entry><gateway>c</gateway><description>A</description><priority>0</priority></entry></gateway-list>".

Definition twin_world : world msg := mkWorld {[ "gp.log" := twin_log ]} [].

Definition twin_records : list GatewayRecord :=
  [ mkGateway "b" "X" 1 "" "" "" "" "" "";
    mkGateway "a" "X" 1 "" "" "" "" "" "";
    mkGateway "c" "A" 0 "" "" "" "" "" "" ].

(** *** Notions for [main] *)

(** Whether the arguments ask for the time filter. *)
Definition time_filtering (a : args) : bool :=
  arg_filter_time a || truthy (arg_start_time a)
  || truthy (arg_end_time a) || truthy (arg_recent a).

(** The file that the steps after the removal work on. *)
Definition after_removal (a : args) (input_file : string) : string :=
  if arg_remove_gateways a && truthy (arg_cleaned_log a)
  then default "" (arg_cleaned_log a)
  else input_file.

(** The paths that the arguments allow a run on [input_file] to write:
    the cleaned log and the filtered log with their backups, and the
    export. *)
Definition written (now_remove now_filter : string) (a : args)
  (input_file : string) : list string :=
  (if arg_remove_gateways a
   then default input_file (arg_cleaned_log a)
        :: (if arg_no_backup a then []
            else [backup_of now_remove input_file])
   else [])
  ++ (if time_filtering a
      then default (after_removal a input_file) (arg_filtered_log a)
           :: (if arg_no_backup a then []
               else [backup_of now_filter (after_removal a input_file)])
      else [])
  ++ (if truthy (arg_output a) then [default "" (arg_output a)] else []).

(** The text that the export writes in a format; the CSV export writes
    nothing for an empty list. *)
Definition export_text (csv_row : list string -> string)
  (json_dump : list GatewayRecord -> string) (fmt : export_format)
  (gateways : list GatewayRecord) : option string :=
  match fmt, gateways with
  | Csv, [] => None
  | Csv, _ =>
      Some (csv_row fieldnames
            +:+ joinlines (map (fun g => csv_row (cells g)) gateways))
  | Json, _ => Some (json_dump gateways)
  | Txt, _ => Some (text_header +:+ joinlines (map text_block gateways))
  end.

(** The filters that the arguments give. *)
Definition filters_of (a : args) : filters :=
  mkFilters (arg_authenticated_only a) (arg_manual_only a)
            (arg_min_priority a) (arg_region a).

(** The unit that the last letter of a duration names. *)
Definition unit_of (recent_str : string) : option time_unit :=
  if ends_with "h" recent_str then Some Hours
  else if ends_with "d" recent_str then Some Days
  else if ends_with "m" recent_str then Some Minutes
  else None.

(** The bound that a time argument stands for: none when the argument is
    absent or empty; [None] when it is given and no format reads it. *)
Definition bound (given : option string) : option (option datetime) :=
  if truthy given
  then match parse_time_input (default "" given) with
       | Some t => Some (Some t)
       | None => None
       end
  else Some None.

(** What a run says of time arguments that it cannot use, if there are
    any. *)
Definition complaint (str_lower : string -> string) (a : args)
  : option event :=
  match bound (arg_start_time a), bound (arg_end_time a) with
  | None, _ => Some (InvalidStartTime (default "" (arg_start_time a)))
  | Some _, None => Some (InvalidEndTime (default "" (arg_end_time a)))
  | Some _, Some _ =>
      if truthy (arg_recent a)
      then let given := default "" (arg_recent a) in
           match unit_of (str_lower given), int (chop (str_lower given)) with
           | None, _ => Some (InvalidRecentFormat given)
           | Some _, Raise _ => Some (InvalidRecent given)
           | Some _, Ok _ => None
           end
      else None
  end.

(** Sample command lines and the files they run on. *)

(** [gp.log --remove-gateways -o out.txt] *)
Definition remove_args : args :=
  mkArgs (Some "gp.log") false (Some "out.txt") Txt true None false None
         None None None false false false None None false.

(** [gp.log --remove-gateways --cleaned-log clean.log
     --start-time "2025-09-24 08:51:53" --filtered-log recent.log] *)
Definition pipeline_args : args :=
  mkArgs (Some "gp.log") false None Txt true (Some "clean.log") false
         (Some "2025-09-24 08:51:53") None None (Some "recent.log") false
         false false None None false.

(** [gp.log -o out.txt --min-priority 10] *)
Definition export_args : args :=
  mkArgs (Some "gp.log") false (Some "out.txt") Txt false None false None
         None None None false false false (Some 10%Z) None false.

(** [gp.log --start-time yesterday --end-time tomorrow] *)
Definition bad_start_args : args :=
  mkArgs (Some "gp.log") false None Txt false None false (Some "yesterday")
         (Some "tomorrow") None None false false false None None false.

(** [gp.log --recent 2H --start-time "2025-09-24 08:51:53" --no-backup] *)
Definition recent_args : args :=
  mkArgs (Some "gp.log") false None Txt false None false
         (Some "2025-09-24 08:51:53") None (Some "2H") None true false false
         None None false.

Definition listed_files : world event :=
  mkWorld {[ "gp.log" := Samples.listed_log; "notes.txt" := "keep" ]} [].

Definition scenario1_files : world event :=
  mkWorld {[ "gp.log" := scenario1 ]} [].

Definition sample_files : world event :=
  mkWorld {[ "gp.log" := Samples.sample_log ]} [].

Definition notes_only : world event :=
  mkWorld {[ "notes.txt" := "keep" ]} [].

Definition no_interaction : io event unit := mret tt.

Definition comma_row (cells : list string) : string :=
  String.concat "," cells.

Definition no_json (gateways : list GatewayRecord) : string := "[]".

End SpecRest.

(* ===================================================================== *)
(** * Part II: properties *)
(* ===================================================================== *)

(** ** Facts about the library model *)
Module PyFacts.
Import Py.

(** *** The lexicographic order *)

Lemma lex_lt_cons x a y b :
  lex_lt (x :: a) (y :: b) = true <->
  (x < y)%Z \/ (x = y /\ lex_lt a b = true).
Proof.
  simpl. rewrite orb_true_iff, andb_true_iff, Z.ltb_lt, Z.eqb_eq. tauto.
Qed.

Lemma lex_lt_irrefl a : lex_lt a a = false.
Proof.
  induction a as [|x a IH]; simpl; [reflexivity|].
  rewrite Z.ltb_irrefl, Z.eqb_refl, IH. reflexivity.
Qed.

Lemma lex_lt_trans a : forall b c,
  lex_lt a b = true -> lex_lt b c = true -> lex_lt a c = true.
Proof.
  induction a as [|x a IH]; intros [|y b] [|z c] Hab Hbc;
    try discriminate; try reflexivity.
  apply lex_lt_cons in Hab. apply lex_lt_cons in Hbc. apply lex_lt_cons.
  destruct Hab as [Hab|[-> Hab]], Hbc as [Hbc|[-> Hbc]];
    try (left; lia).
  right. split; [reflexivity|]. eapply IH; eassumption.
Qed.

Lemma lex_lt_asym a b : lex_lt a b = true -> lex_lt b a = false.
Proof.
  intros H. destruct (lex_lt b a) eqn:E; [|reflexivity].
  pose proof (lex_lt_trans _ _ _ H E) as Haa.
  rewrite lex_lt_irrefl in Haa. discriminate.
Qed.

Lemma lex_lt_total a : forall b,
  lex_lt a b = false -> lex_lt b a = false -> a = b.
Proof.
  induction a as [|x a IH]; intros [|y b] Hab Hba; try discriminate;
    [reflexivity|].
  destruct (Z.lt_trichotomy x y) as [Hxy|[->|Hxy]].
  - assert (lex_lt (x :: a) (y :: b) = true) as E
      by (apply lex_lt_cons; left; exact Hxy).
    congruence.
  - f_equal. apply IH.
    + destruct (lex_lt a b) eqn:E; [|reflexivity].
      rewrite <- Hab. symmetry. apply lex_lt_cons. right. split; auto.
    + destruct (lex_lt b a) eqn:E; [|reflexivity].
      rewrite <- Hba. symmetry. apply lex_lt_cons. right. split; auto.
  - assert (lex_lt (y :: b) (x :: a) = true) as E
      by (apply lex_lt_cons; left; exact Hxy).
    congruence.
Qed.

(** Whatever lies between two ordered values is above the smaller or
    below the larger. *)
Lemma lex_lt_between a b c :
  lex_lt a c = true -> lex_lt a b = true \/ lex_lt b c = true.
Proof.
  intros Hac.
  destruct (lex_lt a b) eqn:Eab; [left; reflexivity|right].
  destruct (lex_lt b a) eqn:Eba.
  - eapply lex_lt_trans; eassumption.
  - rewrite <- (lex_lt_total _ _ Eab Eba). exact Hac.
Qed.

Lemma dt_lt_between (a b c : datetime) :
  dt_lt a c = true -> dt_lt a b = true \/ dt_lt b c = true.
Proof. apply lex_lt_between. Qed.

Lemma code_inj x y : code x = code y -> x = y.
Proof.
  unfold code. intros H. apply Nat2Z.inj in H.
  rewrite <- (ascii_nat_embedding x), <- (ascii_nat_embedding y), H.
  reflexivity.
Qed.

Lemma codes_inj a : forall b, codes a = codes b -> a = b.
Proof.
  induction a as [|x a IH]; intros [|y b] H; try discriminate;
    [reflexivity|].
  simpl in H. injection H as Hc Ht.
  f_equal; [apply code_inj; exact Hc | apply IH; exact Ht].
Qed.

(** *** [sorted] is a stable sort *)
Section Sorting.
Context {A : Type} (lt : A -> A -> bool).

Hypothesis lt_asym : forall x y, lt x y = true -> lt y x = false.
Hypothesis le_trans : forall x y z, le lt x y -> le lt y z -> le lt x z.

Lemma insert_perm x l : Permutation (x :: l) (insert lt x l).
Proof.
  induction l as [|y l IH]; simpl; [reflexivity|].
  destruct (lt y x); [|reflexivity].
  rewrite perm_swap. apply perm_skip. exact IH.
Qed.

Lemma sorted_perm l : Permutation l (sorted lt l).
Proof.
  induction l as [|x l IH]; simpl; [reflexivity|].
  rewrite <- insert_perm. apply perm_skip. exact IH.
Qed.

Lemma insert_sorted x l :
  StronglySorted (le lt) l -> StronglySorted (le lt) (insert lt x l).
Proof.
  induction 1 as [|y l Hs IH Hy]; simpl.
  - constructor; constructor.
  - destruct (lt y x) eqn:E.
    + constructor; [exact IH|].
      rewrite List.Forall_forall in *. intros z Hz.
      apply (Permutation_in _ (Permutation_sym (insert_perm x l))) in Hz.
      destruct Hz as [<-|Hz]; [apply lt_asym; exact E | apply Hy; exact Hz].
    + constructor; [constructor; assumption|].
      constructor; [exact E|].
      rewrite List.Forall_forall in *. intros z Hz.
      apply (le_trans x y z); [exact E | apply Hy; exact Hz].
Qed.

Lemma sorted_sorted l : StronglySorted (le lt) (sorted lt l).
Proof.
  induction l as [|x l IH]; simpl; [constructor|].
  apply insert_sorted. exact IH.
Qed.

(** A list that is in order already is returned as it is. *)
Lemma sorted_id l : StronglySorted (le lt) l -> sorted lt l = l.
Proof.
  induction 1 as [|y l Hs IH Hy]; simpl; [reflexivity|].
  rewrite IH. destruct l as [|z l]; simpl; [reflexivity|].
  inversion Hy as [|? ? Hz _]; subst. unfold le in Hz. rewrite Hz.
  reflexivity.
Qed.
End Sorting.

(** *** Strings *)

Lemma append_cons c s t : String c s +:+ t = String c (s +:+ t).
Proof. reflexivity. Qed.

Lemma append_nil_r s : s +:+ "" = s.
Proof.
  induction s as [|c s IH]; [reflexivity|].
  rewrite append_cons. f_equal. exact IH.
Qed.

Lemma append_assoc a b c : (a +:+ b) +:+ c = a +:+ (b +:+ c).
Proof.
  induction a as [|x a IH]; [reflexivity|].
  rewrite !append_cons. f_equal. exact IH.
Qed.

Lemma prefix_append p t : String.prefix p (p +:+ t) = true.
Proof.
  induction p as [|c p IH]; [destruct t; reflexivity|].
  rewrite append_cons. simpl.
  destruct (ascii_dec c c); [exact IH | congruence].
Qed.

Lemma contains_here n t : contains n (n +:+ t) = true.
Proof.
  destruct n as [|c n]; [destruct t; reflexivity|].
  pose proof (prefix_append (String c n) t) as H.
  rewrite append_cons in *.
  change (String.prefix (String c n) (String c (n +:+ t))
          || contains (String c n) (n +:+ t) = true).
  rewrite H. reflexivity.
Qed.

Lemma contains_later n c t : contains n t = true -> contains n (String c t) = true.
Proof.
  intros H. change (contains n (String c t))
    with (String.prefix n (String c t) || contains n t).
  rewrite H. apply orb_true_r.
Qed.

Lemma contains_append n a t : contains n t = true -> contains n (a +:+ t) = true.
Proof.
  induction a as [|c a IH]; intros H; [exact H|].
  rewrite append_cons. apply contains_later. apply IH. exact H.
Qed.

(** *** The matcher *)

Lemma match_here_lits p re : forall s m,
  match_here (lits p ++ re) s = Some m ->
  exists t, s = p +:+ t /\ match_here re t = Some m.
Proof.
  induction p as [|c p IH]; intros s m H; simpl in H.
  - exists s. split; [reflexivity | exact H].
  - destruct s as [|d s]; [discriminate|].
    destruct (Ascii.eqb c d) eqn:E; [|discriminate].
    apply Ascii.eqb_eq in E. subst d.
    destruct (IH _ _ H) as (t & -> & Ht).
    exists t. split; [reflexivity | exact Ht].
Qed.

Lemma match_here_lazy re : forall s m,
  match_here (AnyLazy :: re) s = Some m ->
  exists a t, s = a +:+ t /\ match_here re t = Some m.
Proof.
  induction s as [|c s IH]; intros m H; simpl in H.
  - destruct (match_here re "") eqn:E; [|discriminate].
    exists "", "". split; [reflexivity | congruence].
  - destruct (match_here re (String c s)) eqn:E.
    + exists "", (String c s). split; [reflexivity | congruence].
    + destruct (IH _ H) as (a & t & -> & Ht).
      exists (String c a), t. split; [reflexivity | exact Ht].
Qed.

(** Where the pattern finds nothing, [re.sub] changes nothing. *)
Lemma search_none_inv re s :
  search re s = None ->
  match_here re s = None /\
  match s with
  | String _ t => search re t = None
  | EmptyString => True
  end.
Proof.
  destruct s as [|c t]; simpl; destruct (match_here re _) as [[g r]|];
    intros H; try discriminate; auto.
Qed.

Lemma sub_no_match re repl : forall s, search re s = None -> sub re repl s = s.
Proof.
  unfold sub. induction s as [|c t IH]; intros H;
    destruct (search_none_inv _ _ H) as [Hm Ht]; simpl; rewrite Hm;
    [reflexivity|].
  f_equal. apply IH. exact Ht.
Qed.

Import Spec.

Lemma length_append a b :
  String.length (a +:+ b) = String.length a + String.length b.
Proof.
  induction a as [|c a IH]; [reflexivity|].
  rewrite append_cons. simpl. rewrite IH. reflexivity.
Qed.

Lemma take_append a b : take (String.length a) (a +:+ b) = a.
Proof.
  induction a as [|c a IH]; [destruct b; reflexivity|].
  rewrite append_cons. simpl. rewrite IH. reflexivity.
Qed.

Lemma span_append a b : span (a +:+ b) b = a.
Proof.
  unfold span. rewrite length_append.
  replace (String.length a + String.length b - String.length b)
    with (String.length a) by lia.
  apply take_append.
Qed.

Lemma trailing_digits_suffix p : forall s,
  all_digits s = true -> String.length s <= trailing_digits (p +:+ s).
Proof.
  induction p as [|c p IH]; intros s Hs.
  - destruct s as [|d s]; [simpl; lia|].
    change ("" +:+ String d s) with (String d s).
    unfold trailing_digits. rewrite Hs. lia.
  - rewrite append_cons.
    change (trailing_digits (String c (p +:+ s)))
      with (if all_digits (String c (p +:+ s))
            then String.length (String c (p +:+ s))
            else trailing_digits (p +:+ s)).
    destruct (all_digits (String c (p +:+ s))).
    + simpl. rewrite length_append. lia.
    + apply IH. exact Hs.
Qed.

(** *** The matcher, atom by atom *)

Lemma match_here_lit c re s m :
  match_here (Lit c :: re) s = Some m ->
  exists t, s = String c t /\ match_here re t = Some m.
Proof.
  simpl. destruct s as [|d t]; [discriminate|].
  destruct (Ascii.eqb c d) eqn:E; [|discriminate].
  apply Ascii.eqb_eq in E. subst d. eauto.
Qed.

Lemma match_here_dig re s m :
  match_here (Dig :: re) s = Some m ->
  exists d t, s = String d t /\ is_digit d = true /\ match_here re t = Some m.
Proof.
  simpl. destruct s as [|d t]; [discriminate|].
  destruct (is_digit d) eqn:E; [|discriminate]. eauto.
Qed.

Lemma match_here_plus re : forall s m,
  match_here (DigPlus :: re) s = Some m ->
  exists t, match_here re t = Some m.
Proof.
  induction s as [|d t IH]; intros m H; simpl in H; [discriminate|].
  destruct (is_digit d); [|discriminate].
  match type of H with
  | match ?x with _ => _ end = _ => destruct x as [m'|] eqn:E
  end.
  - injection H as ->. apply IH. exact E.
  - eauto.
Qed.

Lemma match_here_grp re s g r :
  match_here (Grp :: re) s = Some (g, r) ->
  g = s /\ exists g', match_here re s = Some (g', r).
Proof.
  simpl. destruct (match_here re s) as [[g' r']|]; [|discriminate].
  intros [= <- <-]. eauto.
Qed.

Lemma search_some re : forall s m,
  search re s = Some m ->
  exists s' g r,
    match_here re s' = Some (g, r) /\ m = mkMatch (span s' r) (span g r).
Proof.
  induction s as [|c t IH]; intros m H; simpl in H.
  - destruct (match_here re "") as [[g r]|] eqn:E; [|discriminate].
    injection H as <-. eauto.
  - destruct (match_here re (String c t)) as [[g r]|] eqn:E.
    + injection H as <-. eauto.
    + apply IH. exact H.
Qed.

(** *** The fields that [strptime] reads *)

Lemma first_some_some {A B : Type} (f : A -> option B) l b :
  first_some f l = Some b -> exists a, In a l /\ f a = Some b.
Proof.
  induction l as [|a l IH]; simpl; [discriminate|].
  destruct (f a) as [b'|] eqn:E.
  - intros [= <-]. eauto.
  - intros H. destruct (IH H) as (a' & Hin & Ha'). eauto.
Qed.

Lemma leaves_suffix_app {V : Type} (l1 l2 : list (V * string)) s :
  leaves_suffix l1 s -> leaves_suffix l2 s -> leaves_suffix (l1 ++ l2) s.
Proof.
  intros H1 H2 c Hc. apply in_app_or in Hc. destruct Hc; auto.
Qed.

Lemma leaves_suffix_later {V : Type} (l : list (V * string)) c s :
  leaves_suffix l s -> leaves_suffix l (String c s).
Proof.
  intros H x Hx. destruct (H x Hx) as [q ->].
  exists (String c q). reflexivity.
Qed.

Lemma two_suffix lo1 hi1 lo2 hi2 s : leaves_suffix (two lo1 hi1 lo2 hi2 s) s.
Proof.
  intros c Hc. unfold two in Hc. destruct s as [|a [|b t]]; try destruct Hc.
  destruct (digit_in lo1 hi1 a && digit_in lo2 hi2 b);
    [|destruct Hc].
  destruct Hc as [<-|[]]. exists (String a (String b "")). reflexivity.
Qed.

Lemma one_suffix lo hi s : leaves_suffix (one lo hi s) s.
Proof.
  intros c Hc. unfold one in Hc. destruct s as [|a t]; [destruct Hc|].
  destruct (digit_in lo hi a); [|destruct Hc].
  destruct Hc as [<-|[]]. exists (String a ""). reflexivity.
Qed.

Lemma four_suffix s : leaves_suffix (four s) s.
Proof.
  intros c Hc. unfold four in Hc.
  destruct s as [|a [|b [|x [|y t]]]]; try destruct Hc.
  destruct (is_digit a && is_digit b && is_digit x && is_digit y);
    [|destruct Hc].
  destruct Hc as [<-|[]].
  exists (String a (String b (String x (String y "")))). reflexivity.
Qed.

Lemma frac_suffix n : forall acc s, leaves_suffix (frac n acc s) s.
Proof.
  induction n as [|k IH]; intros acc s c Hc; simpl in Hc; [destruct Hc|].
  destruct s as [|d t]; [destruct Hc|].
  destruct (is_digit d); [|destruct Hc].
  apply in_app_or in Hc. destruct Hc as [Hc|[<-|[]]].
  - apply (leaves_suffix_later _ d t (IH (10 * acc + digit_val d)%Z t)).
    exact Hc.
  - exists (String d ""). reflexivity.
Qed.

Lemma spaces_suffix s r : In r (spaces s) -> exists q, s = q +:+ r.
Proof.
  revert r. induction s as [|c t IH]; intros r Hr; simpl in Hr;
    [destruct Hr|].
  destruct (is_space c); [|destruct Hr].
  apply in_app_or in Hr. destruct Hr as [Hr|[<-|[]]].
  - destruct (IH _ Hr) as [q ->]. exists (String c q). reflexivity.
  - exists (String c ""). reflexivity.
Qed.

Lemma upd_in f l c :
  In c (upd f l) -> exists p, In p l /\ c = (f (fst p), snd p).
Proof.
  unfold upd. intros H. apply in_map_iff in H.
  destruct H as (p & <- & Hp). eauto.
Qed.

Lemma upd_suffix f l s :
  leaves_suffix l s -> forall c, In c (upd f l) -> exists q, s = q +:+ snd c.
Proof.
  intros H c Hc. apply upd_in in Hc. destruct Hc as (p & Hp & ->).
  apply H. exact Hp.
Qed.

Lemma candidates_suffix d s c :
  In c (candidates d s) -> exists q, s = q +:+ snd c.
Proof.
  destruct d; unfold candidates; intros H.
  - eapply upd_suffix; [|exact H].
    repeat apply leaves_suffix_app; auto using two_suffix, one_suffix.
  - eapply upd_suffix; [|exact H].
    repeat apply leaves_suffix_app; auto using two_suffix, one_suffix.
    destruct s as [|a t]; [intros x []|].
    destruct (Ascii.ascii_dec a " ") as [->|Hne].
    + apply leaves_suffix_later, one_suffix.
    + destruct a as [[] [] [] [] [] [] [] []];
        first [congruence | intros x []].
  - eapply upd_suffix; [|exact H]. apply four_suffix.
  - eapply upd_suffix; [|exact H]. apply two_suffix.
  - eapply upd_suffix; [|exact H].
    repeat apply leaves_suffix_app; auto using two_suffix, one_suffix.
  - eapply upd_suffix; [|exact H].
    repeat apply leaves_suffix_app; auto using two_suffix, one_suffix.
  - eapply upd_suffix; [|exact H].
    repeat apply leaves_suffix_app; auto using two_suffix, one_suffix.
  - eapply upd_suffix; [|exact H]. apply frac_suffix.
  - apply in_map_iff in H. destruct H as (r & <- & Hr).
    apply spaces_suffix. exact Hr.
  - destruct s as [|a t]; [destruct H|].
    destruct (Ascii.eqb (lower c0) (lower a)); [|destruct H].
    destruct H as [<-|[]]. exists (String a ""). reflexivity.
Qed.

(** Only [%f] sets the fraction. *)
Lemma candidates_frac d s c acc :
  d <> D_f -> In c (candidates d s) -> tm_frac (fst c acc) = tm_frac acc.
Proof.
  destruct d; unfold candidates; intros Hd H; try congruence;
    try (apply upd_in in H; destruct H as (p & _ & ->); reflexivity).
  - apply in_map_iff in H. destruct H as (r & <- & _). reflexivity.
  - destruct s as [|a t]; [destruct H|].
    destruct (Ascii.eqb (lower c0) (lower a)); [|destruct H].
    destruct H as [<-|[]]. reflexivity.
Qed.

Lemma strp_frac_kept fmt : forall s acc t r,
  ~ In D_f fmt -> strp fmt s acc = Some (t, r) -> tm_frac t = tm_frac acc.
Proof.
  induction fmt as [|d fmt IH]; intros s acc t r Hn H; cbn [strp] in H.
  - injection H as <- _. reflexivity.
  - apply first_some_some in H. destruct H as (c & Hc & H).
    rewrite (IH _ _ _ _ (fun Hin => Hn (or_intror Hin)) H).
    apply (candidates_frac d s); [|exact Hc].
    intros ->. apply Hn. left. reflexivity.
Qed.

(** The first candidate of [%f] takes the digits at the head of the
    subject and pads them on the right. *)
Lemma frac_head n : forall acc s v r l,
  frac n acc s = (v, r) :: l ->
  exists ds,
    s = ds +:+ r /\ all_digits ds = true
    /\ 1 <= String.length ds <= n
    /\ (10 ^ Z.of_nat (n - String.length ds) | v)%Z.
Proof.
  induction n as [|k IH]; intros acc s v r l H; simpl in H; [discriminate|].
  destruct s as [|d t]; [discriminate|].
  destruct (is_digit d) eqn:Ed; [|discriminate].
  destruct (frac k (10 * acc + digit_val d) t) as [|[v' r'] l'] eqn:E.
  - simpl in H. injection H as <- <- _.
    exists (String d ""). simpl. rewrite Ed.
    repeat split; try lia. replace (k - 0) with k by lia.
    apply Z.divide_factor_r.
  - simpl in H. injection H as <- <- _.
    destruct (IH _ _ _ _ _ E) as (ds & -> & Hd & Hlen & Hdiv).
    exists (String d ds). simpl. rewrite Ed, Hd.
    repeat split; try lia. exact Hdiv.
Qed.

(** When a format that ends with [%f] consumes the whole subject, the
    fraction was read from a suffix of digits and padded to six. *)
Lemma strp_frac_suffix fmt : forall s acc t,
  strp (fmt ++ [D_f]) s acc = Some (t, "") ->
  exists p ds,
    s = p +:+ ds /\ all_digits ds = true
    /\ String.length ds <= 6
    /\ (10 ^ Z.of_nat (6 - String.length ds) | tm_frac t)%Z.
Proof.
  induction fmt as [|d fmt IH]; intros s acc t H.
  - cbn [app strp] in H. unfold candidates, upd in H.
    destruct (frac 6 0 s) as [|[v r] l] eqn:E;
      cbn [map first_some strp fst snd] in H; [discriminate|].
    injection H as <- ->.
    destruct (frac_head _ _ _ _ _ _ E) as (ds & -> & Hd & Hlen & Hdiv).
    exists "", ds. rewrite append_nil_r. simpl. repeat split; auto; lia.
  - cbn [app strp] in H. apply first_some_some in H.
    destruct H as (c & Hc & H).
    destruct (IH _ _ _ H) as (p & ds & Hs & Hd & Hlen & Hdiv).
    destruct (candidates_suffix _ _ _ Hc) as [q Hq].
    exists (q +:+ p), ds. rewrite append_assoc, <- Hs.
    repeat split; auto.
Qed.

(** *** Lines *)

Lemma readlines_terminated l : forall rest,
  terminated l -> readlines (l +:+ rest) = l :: readlines rest.
Proof.
  induction l as [|c t IH]; intros rest H; simpl in H; [contradiction|].
  rewrite append_cons. simpl. destruct (Ascii.eqb c newline).
  - subst t. reflexivity.
  - rewrite (IH _ H). reflexivity.
Qed.

Lemma readlines_unterminated l : unterminated l -> readlines l = [l].
Proof.
  induction l as [|c t IH]; intros H; simpl in H; [contradiction|].
  destruct H as [Hc [->|Ht]]; simpl; rewrite Hc; [reflexivity|].
  rewrite (IH Ht). reflexivity.
Qed.

Lemma readlines_wf content : lines_wf (readlines content).
Proof.
  induction content as [|c t IH]; simpl; [constructor|].
  destruct (Ascii.eqb c newline) eqn:E.
  - apply wf_cons; [simpl; rewrite E; reflexivity | exact IH].
  - destruct (readlines t) as [|l ls].
    + apply wf_last. simpl. auto.
    + inversion IH; subst.
      * apply wf_last. simpl. auto.
      * apply wf_cons; [simpl; rewrite E; assumption | assumption].
Qed.

Lemma lines_wf_filter (p : string -> bool) ls :
  lines_wf ls -> lines_wf (List.filter p ls).
Proof.
  induction 1 as [|l Hl|l ls Hl Hls IH]; simpl.
  - constructor.
  - destruct (p l); [apply wf_last; exact Hl | constructor].
  - destruct (p l); [apply wf_cons; assumption | exact IH].
Qed.

(** Reading back what [writelines] wrote gives the lines that were
    written. *)
Lemma readlines_joinlines ls : lines_wf ls -> readlines (joinlines ls) = ls.
Proof.
  induction 1 as [|l Hl|l ls Hl Hls IH]; simpl.
  - reflexivity.
  - rewrite append_nil_r. apply readlines_unterminated. exact Hl.
  - rewrite (readlines_terminated _ _ Hl), IH. reflexivity.
Qed.

Lemma joinlines_readlines content : joinlines (readlines content) = content.
Proof.
  induction content as [|c t IH]; simpl; [reflexivity|].
  destruct (Ascii.eqb c newline).
  - simpl. rewrite IH. reflexivity.
  - destruct (readlines t) as [|l ls]; simpl in *; rewrite <- IH; reflexivity.
Qed.

End PyFacts.

(** ** Properties of [GatewayParser] *)
Module GatewayParserFacts.
Import Py GatewayParser Spec Samples PyFacts.

(** *** The gateway-list pattern *)

Lemma gateway_list_match s g r :
  match_here gateway_list_pattern s = Some (g, r) ->
  exists inside,
    s = "<gateway-list" +:+ inside +:+ "</gateway-list>" +:+ r.
Proof.
  unfold gateway_list_pattern. intros H.
  apply match_here_lits in H. destruct H as (t1 & -> & H).
  apply match_here_lazy in H. destruct H as (inside & t2 & -> & H).
  rewrite <- (app_nil_r (lits "</gateway-list>")) in H.
  apply match_here_lits in H. destruct H as (t3 & -> & H).
  simpl in H. injection H as _ <-.
  exists inside. reflexivity.
Qed.

Lemma search_gateway_list s m :
  search gateway_list_pattern s = Some m ->
  has_block s /\ contains "</gateway-list>" s = true.
Proof.
  revert m. induction s as [|c t IH]; intros m H.
  - simpl in H. discriminate.
  - change (search gateway_list_pattern (String c t))
      with (match match_here gateway_list_pattern (String c t) with
            | Some (g, r) => Some (mkMatch (span (String c t) r) (span g r))
            | None => search gateway_list_pattern t
            end) in H.
    destruct (match_here gateway_list_pattern (String c t)) as [[g r]|] eqn:E.
    + destruct (gateway_list_match _ _ _ E) as (inside & Hs).
      rewrite Hs. split.
      * exists "", inside, r. reflexivity.
      * apply (contains_append _ "<gateway-list").
        apply contains_append. apply contains_here.
    + destruct (IH _ H) as [(a & i & b & ->) Hc]. split.
      * exists (String c a), i, b. reflexivity.
      * apply contains_later. exact Hc.
Qed.

Lemma no_block_search content :
  ~ has_block content -> search gateway_list_pattern content = None.
Proof.
  intros Hn. destruct (search gateway_list_pattern content) eqn:E;
    [|reflexivity].
  destruct Hn. eapply search_gateway_list. exact E.
Qed.

Lemma no_closing_tag_search content :
  contains "</gateway-list>" content = false ->
  search gateway_list_pattern content = None.
Proof.
  intros Hn. destruct (search gateway_list_pattern content) eqn:E;
    [|reflexivity].
  apply search_gateway_list in E. destruct E as [_ E]. congruence.
Qed.

Lemma has_block_contains content :
  has_block content -> contains "</gateway-list>" content = true.
Proof.
  intros (a & i & b & ->).
  apply contains_append, (contains_append _ "<gateway-list"),
    contains_append, contains_here.
Qed.

Lemma match_here_lits_here p re t :
  match_here (lits p ++ re) (p +:+ t) = match_here re t.
Proof.
  induction p as [|c p IH]; [reflexivity|].
  rewrite append_cons. simpl. rewrite Ascii.eqb_refl. exact IH.
Qed.

Lemma match_here_lazy_later re a : forall t,
  is_Some (match_here re t) -> is_Some (match_here (AnyLazy :: re) (a +:+ t)).
Proof.
  induction a as [|c a IH]; intros t Ht.
  - destruct t; simpl; destruct Ht as [m ->]; eauto.
  - rewrite append_cons. specialize (IH t Ht). simpl in *.
    destruct (match_here re (String c (a +:+ t))); [eauto|].
    destruct (a +:+ t); exact IH.
Qed.

Lemma search_later re a : forall t,
  is_Some (match_here re t) -> is_Some (search re (a +:+ t)).
Proof.
  induction a as [|c a IH]; intros t Ht.
  - destruct t; simpl; destruct Ht as [[g r] ->]; eauto.
  - rewrite append_cons. simpl.
    destruct (match_here re (String c (a +:+ t))) as [[g r]|]; [eauto|].
    apply IH. exact Ht.
Qed.

(** The pattern finds a match exactly in the contents that hold a
    block. *)
Lemma search_gateway_list_complete content :
  has_block content -> is_Some (search gateway_list_pattern content).
Proof.
  intros (a & i & b & ->). apply search_later.
  unfold gateway_list_pattern. rewrite match_here_lits_here.
  apply match_here_lazy_later.
  rewrite <- (app_nil_r (lits "</gateway-list>")), match_here_lits_here.
  simpl. eauto.
Qed.

(** *** Runs of the file operations *)

Ltac run_io :=
  unfold try_except, copy2, read_file, write_file, print, lift, truediv,
    mbind, io_bind, mret, io_ret, backup_of, with_backup; simpl.

(** What a run of the remover returns and leaves in the files. *)
Lemma remove_run now input_file output_file create_backup w content :
  files w !! input_file = Some content ->
  let run := remove_gateway_list_from_log now input_file output_file
               create_backup w in
  fst run = Ok (negb (String.eqb content ""))
  /\ files (snd run)
     = <[default input_file output_file := cleaned content]>
         (with_backup create_backup now input_file content (files w)).
Proof.
  intros H. unfold remove_gateway_list_from_log. run_io. rewrite H.
  destruct create_backup; simpl; rewrite ?H; simpl.
  all: destruct content as [|c content]; simpl.
  all: try destruct (String.eqb _ input_file); simpl.
  all: split; reflexivity.
Qed.

(** The loop of the filter computes the retained lines and counts the
    others. *)
Lemma filter_step_retained start_time end_time acc n line :
  filter_step start_time end_time (acc, n) line
  = if retained start_time end_time line
    then (acc ++ [line], n) else (acc, S n).
Proof.
  unfold filter_step, retained, in_window, dt_le, dt_gt.
  destruct (parse_log_timestamp line) as [t|]; [|reflexivity].
  destruct start_time as [s|], end_time as [e|]; simpl;
    repeat match goal with |- context [dt_lt ?a ?b] => destruct (dt_lt a b) end;
    reflexivity.
Qed.

Lemma filter_fold start_time end_time lines : forall acc n,
  fold_left (filter_step start_time end_time) lines (acc, n)
  = (acc ++ List.filter (retained start_time end_time) lines,
     n + dropped start_time end_time lines).
Proof.
  unfold dropped.
  induction lines as [|l lines IH]; intros acc n.
  - simpl. rewrite app_nil_r, Nat.add_0_r. reflexivity.
  - cbn [fold_left List.filter]. rewrite filter_step_retained.
    destruct (retained start_time end_time l); simpl; rewrite IH.
    + rewrite <- app_assoc. reflexivity.
    + rewrite Nat.add_succ_r. reflexivity.
Qed.

Lemma filter_loop_retained start_time end_time lines :
  filter_loop start_time end_time lines
  = (List.filter (retained start_time end_time) lines,
     dropped start_time end_time lines).
Proof. unfold filter_loop. rewrite filter_fold. reflexivity. Qed.

Lemma readlines_nil content : readlines content = [] -> content = "".
Proof.
  destruct content as [|c t]; [reflexivity|]. simpl.
  destruct (Ascii.eqb c newline); [discriminate|].
  destruct (readlines t); discriminate.
Qed.

(** What a run of the filter returns and leaves in the files. *)
Lemma filter_run now input_file start_time end_time output_file
  create_backup w content :
  files w !! input_file = Some content ->
  let run := filter_logs_by_time now input_file start_time end_time
               output_file create_backup w in
  fst run = Ok (negb (String.eqb content ""))
  /\ files (snd run)
     = <[default input_file output_file :=
           joinlines (List.filter (retained start_time end_time)
                                  (readlines content))]>
         (with_backup create_backup now input_file content (files w)).
Proof.
  intros H.
  assert (Hne : (Z.of_nat (length (readlines content)) =? 0)%Z
                = String.eqb content "").
  { destruct (readlines content) as [|l ls] eqn:E.
    - apply readlines_nil in E. subst content. reflexivity.
    - destruct content; [discriminate E | reflexivity]. }
  unfold filter_logs_by_time.
  cbv beta iota zeta delta [try_except read_file mbind io_bind].
  rewrite H. cbv beta iota zeta.
  rewrite filter_loop_retained, joinlines_readlines.
  generalize (List.filter (retained start_time end_time) (readlines content))
    as kept.
  generalize (dropped start_time end_time (readlines content)) as d.
  intros d kept. unfold lift, truediv. rewrite Hne.
  destruct create_backup, (String.eqb content ""), start_time, end_time;
    run_io; try destruct (String.eqb _ input_file); simpl;
    split; reflexivity.
Qed.

Lemma remove_output now input_file output_file create_backup w content :
  files w !! input_file = Some content ->
  files (snd (remove_gateway_list_from_log now input_file output_file
                create_backup w))
    !! default input_file output_file
  = Some (cleaned content).
Proof.
  intros H.
  destruct (remove_run now input_file output_file create_backup w content H)
    as [_ ->].
  apply lookup_insert_eq.
Qed.

Lemma filter_output now input_file start_time end_time output_file
  create_backup w content :
  files w !! input_file = Some content ->
  files (snd (filter_logs_by_time now input_file start_time end_time
                output_file create_backup w))
    !! default input_file output_file
  = Some (joinlines (List.filter (retained start_time end_time)
                                 (readlines content))).
Proof.
  intros H.
  destruct (filter_run now input_file start_time end_time output_file
              create_backup w content H) as [_ ->].
  apply lookup_insert_eq.
Qed.

Lemma filter_twice {A : Type} (p : A -> bool) l :
  List.filter p (List.filter p l) = List.filter p l.
Proof.
  induction l as [|x l IH]; simpl; [reflexivity|].
  destruct (p x) eqn:E; simpl; rewrite ?E, IH; reflexivity.
Qed.

(** *** The time-window filter *)

(** C3.  The loop of [filter_logs_by_time] keeps a line exactly when no
    timestamp is parsed from it or its time is within the bounds that are
    present ([retained]); the kept lines are written in their original
    order; a line without a recognizable timestamp is kept whatever the
    window. *)
Theorem filter_retains_window now input_file start_time end_time output_file
  create_backup w content :
  files w !! input_file = Some content ->
  let lines := readlines content in
  let kept := fst (filter_loop start_time end_time lines) in
  let w' := snd (filter_logs_by_time now input_file start_time end_time
                   output_file create_backup w) in
  kept = List.filter (retained start_time end_time) lines
  /\ (forall line, In line kept <->
                   In line lines /\ retained start_time end_time line = true)
  /\ files w' !! default input_file output_file = Some (joinlines kept)
  /\ (forall line, In line lines -> parse_log_timestamp line = None ->
                   In line kept).
Proof.
  intros H lines kept w'. subst kept w'.
  rewrite filter_loop_retained. cbn [fst].
  split; [reflexivity|]. split; [|split].
  - intros line. apply filter_In.
  - apply filter_output. exact H.
  - intros line Hin Hnone. apply filter_In. split; [exact Hin|].
    unfold retained. rewrite Hnone. reflexivity.
Qed.

Lemma filter_retains_window_witness :
  let lines := readlines sample_log in
  let kept := fst (filter_loop (Some sep25) None lines) in
  let w' := snd (filter_logs_by_time "20250927_120000" "gp.log" (Some sep25)
                   None None true sample_world) in
  kept = List.filter (retained (Some sep25) None) lines
  /\ (forall line, In line kept <->
                   In line lines /\ retained (Some sep25) None line = true)
  /\ files w' !! default "gp.log" None = Some (joinlines kept)
  /\ (forall line, In line lines -> parse_log_timestamp line = None ->
                   In line kept).
Proof.
  apply (filter_retains_window "20250927_120000" "gp.log" (Some sep25) None
           None true sample_world sample_log).
  reflexivity.
Defined.

(** C9.  Filtering the output of the filter again with the same window
    writes the same content: the second output equals the first. *)
Theorem filter_idempotent now1 now2 input_file start_time end_time
  output1 output2 backup1 backup2 w content :
  files w !! input_file = Some content ->
  let out1 := default input_file output1 in
  let w1 := snd (filter_logs_by_time now1 input_file start_time end_time
                   output1 backup1 w) in
  let out2 := default out1 output2 in
  let w2 := snd (filter_logs_by_time now2 out1 start_time end_time
                   output2 backup2 w1) in
  files w2 !! out2 = files w1 !! out1.
Proof.
  intros H out1 w1 out2 w2.
  pose proof (filter_output now1 input_file start_time end_time output1
                backup1 w content H) as H1.
  fold out1 w1 in H1.
  pose proof (filter_output now2 out1 start_time end_time output2
                backup2 w1 _ H1) as H2.
  fold out2 w2 in H2.
  rewrite H1, H2. f_equal.
  rewrite readlines_joinlines
    by (apply lines_wf_filter, readlines_wf).
  rewrite filter_twice. reflexivity.
Qed.

Lemma filter_idempotent_witness :
  let out1 := default "gp.log" (Some "filtered.log") in
  let w1 := snd (filter_logs_by_time "20250927_120000" "gp.log" (Some sep23)
                   (Some sep25) (Some "filtered.log") true sample_world) in
  let out2 := default out1 None in
  let w2 := snd (filter_logs_by_time "20250927_120001" out1 (Some sep23)
                   (Some sep25) None false w1) in
  files w2 !! out2 = files w1 !! out1.
Proof.
  apply (filter_idempotent "20250927_120000" "20250927_120001" "gp.log"
           (Some sep23) (Some sep25) (Some "filtered.log") None true false
           sample_world sample_log).
  reflexivity.
Defined.

(** *** Empty files *)

(** C10.  On an empty input file the remover and the filter both return
    [False]: the percentage divides by the original size, respectively
    the line count, which is zero, and the handler reports the
    [ZeroDivisionError].  In both the (empty) output, and the backup when
    one is requested, has been written by then. *)
Theorem empty_file_fails now input_file output_file (create_backup : bool)
  start_time end_time (w : world msg) :
  files w !! input_file = Some "" ->
  let backup_msg :=
    if create_backup then [BackupCreated (backup_of now input_file)] else [] in
  let written :=
    <[default input_file output_file := ""]>
      (with_backup create_backup now input_file "" (files w)) in
  remove_gateway_list_from_log now input_file output_file create_backup w
  = (Ok false,
     mkWorld written
       (console w ++ backup_msg
        ++ [GatewayListRemoved; OriginalSize 0; NewSize 0;
            ErrorRemoving ZeroDivisionError]))
  /\ filter_logs_by_time now input_file start_time end_time output_file
       create_backup w
     = (Ok false,
        mkWorld written
          (console w ++ backup_msg
           ++ [FilteringComplete; TotalLogLines 0; LinesKept 0;
               ErrorFiltering ZeroDivisionError])).
Proof.
  intros H backup_msg written. subst backup_msg written. split.
  - unfold remove_gateway_list_from_log. run_io. rewrite H.
    destruct create_backup; simpl; rewrite ?H; simpl;
      rewrite <- ?app_assoc; reflexivity.
  - unfold filter_logs_by_time. run_io. rewrite H.
    destruct create_backup; simpl; rewrite <- ?app_assoc; reflexivity.
Qed.

Lemma empty_file_fails_witness :
  remove_gateway_list_from_log "20250927_120000" "gp.log" None false
    empty_world
  = (Ok false,
     mkWorld (<[ "gp.log" := "" ]> (files empty_world))
       [GatewayListRemoved; OriginalSize 0; NewSize 0;
        ErrorRemoving ZeroDivisionError])
  /\ filter_logs_by_time "20250927_120000" "gp.log" None None None false
       empty_world
     = (Ok false,
        mkWorld (<[ "gp.log" := "" ]> (files empty_world))
          [FilteringComplete; TotalLogLines 0; LinesKept 0;
           ErrorFiltering ZeroDivisionError]).
Proof.
  apply (empty_file_fails "20250927_120000" "gp.log" None false None None
           empty_world).
  reflexivity.
Defined.

(** *** Contents without a gateway list *)

(** C7.  When the content holds no gateway-list block, the extraction
    prints that no gateway list was found and returns the empty list
    without raising, and the remover writes the content as it is. *)
Theorem no_gateway_list_noop (fromstring : string -> option Element)
  now file_path output_file create_backup w content :
  files w !! file_path = Some content ->
  ~ has_block content ->
  parse_log_file fromstring file_path w
  = (Ok [], mkWorld (files w) (console w ++ [NoGatewayListFound]))
  /\ files (snd (remove_gateway_list_from_log now file_path output_file
                   create_backup w))
       !! default file_path output_file
     = Some content.
Proof.
  intros H Hn. apply no_block_search in Hn. split.
  - unfold parse_log_file. run_io. rewrite H, Hn. reflexivity.
  - rewrite (remove_output _ _ _ _ _ _ H). unfold cleaned.
    rewrite (sub_no_match _ _ _ Hn). reflexivity.
Qed.

Lemma no_gateway_list_noop_witness :
  parse_log_file MiniET.fromstring "gp.log" sample_world
  = (Ok [], mkWorld (files sample_world) [NoGatewayListFound])
  /\ files (snd (remove_gateway_list_from_log "20250927_120000" "gp.log"
                   (Some "clean.log") true sample_world))
       !! "clean.log"
     = Some sample_log.
Proof.
  apply (no_gateway_list_noop MiniET.fromstring "20250927_120000" "gp.log"
           (Some "clean.log") true sample_world sample_log).
  - reflexivity.
  - intros Hb. apply has_block_contains in Hb. vm_compute in Hb.
    discriminate Hb.
Defined.

(** *** Applying the remover twice *)

(** C2, as stated, fails: with a closing tag left after a replaced block,
    the second application matches from the placeholder, which itself
    begins with [<gateway-list], to that closing tag. *)
Lemma remove_twice_differs :
  let w1 := snd (remove_gateway_list_from_log "20250927_120000" "gp.log"
                   None false stray_world) in
  let w2 := snd (remove_gateway_list_from_log "20250927_120001" "gp.log"
                   None false w1) in
  files w1 !! "gp.log" = Some (placeholder +:+ "</gateway-list>")
  /\ files w2 !! "gp.log" = Some placeholder
  /\ files w2 !! "gp.log" <> files w1 !! "gp.log".
Proof.
  vm_compute. repeat split. discriminate.
Qed.

(** *** The extraction *)

Lemma key_lt_lex x y :
  key_lt x y
  = lex_lt (priority x :: codes (description x))
           (priority y :: codes (description y)).
Proof. reflexivity. Qed.

Lemma key_lt_asym x y : key_lt x y = true -> key_lt y x = false.
Proof. rewrite !key_lt_lex. apply lex_lt_asym. Qed.

Lemma key_le_trans x y z : le key_lt x y -> le key_lt y z -> le key_lt x z.
Proof.
  unfold le. rewrite !key_lt_lex. intros Hxy Hyz.
  destruct (lex_lt (priority z :: codes (description z))
                   (priority x :: codes (description x))) eqn:E;
    [|reflexivity].
  destruct (lex_lt_between _ (priority y :: codes (description y)) _ E);
    congruence.
Qed.

Lemma key_le_iff x y : le key_lt x y <-> key_le x y.
Proof.
  unfold le, key_le, str_le, key_lt.
  destruct (str_lt (description y) (description x));
    rewrite orb_false_iff, andb_false_iff, Z.ltb_ge, Z.eqb_neq;
    intuition (try discriminate; lia).
Qed.

Lemma StronglySorted_weaken {A : Type} (R S : A -> A -> Prop) l :
  (forall x y, R x y -> S x y) -> StronglySorted R l -> StronglySorted S l.
Proof.
  intros HRS. induction 1 as [|x l Hs IH Hx]; constructor; [exact IH|].
  eapply List.Forall_impl; [|exact Hx]. intros y. apply HRS.
Qed.

Lemma sorted_by_key l :
  Permutation l (sorted key_lt l) /\ StronglySorted key_le (sorted key_lt l).
Proof.
  split; [apply sorted_perm|].
  apply (StronglySorted_weaken (le key_lt)); [apply key_le_iff|].
  apply sorted_sorted; [exact key_lt_asym | exact key_le_trans].
Qed.

(** What the extraction does once the block is found and parsed. *)
Lemma parse_log_file_run (fromstring : string -> option Element)
  file_path (w : world msg) content m root :
  files w !! file_path = Some content ->
  search gateway_list_pattern content = Some m ->
  fromstring (group0 m) = Some root ->
  parse_log_file fromstring file_path w
  = match mapM gateway_info (findall root "entry") with
    | Ok parsed => (Ok (sorted key_lt parsed), w)
    | Raise e =>
        (Ok [],
         mkWorld (files w)
           (console w
            ++ [match e with
                | FileNotFoundError => FileNotFound file_path
                | _ => ErrorParsingFile e
                end]))
    end.
Proof.
  intros H Hs Hf. unfold parse_log_file, _parse_gateway_xml. run_io.
  rewrite H, Hs, Hf.
  destruct (mapM gateway_info (findall root "entry")) as [parsed|[]];
    reflexivity.
Qed.

(** C5.  The extraction returns the records of the entries, in ascending
    order of (priority, description): priorities compared as integers,
    descriptions as strings for equal priorities.  The result is a
    function of the input.  On scenario 1 (East with priority 10 before
    West with priority 5 in the document) it returns West, then East. *)
Theorem extraction_sorted (fromstring : string -> option Element)
  file_path (w : world msg) content m root parsed :
  files w !! file_path = Some content ->
  search gateway_list_pattern content = Some m ->
  fromstring (group0 m) = Some root ->
  mapM gateway_info (findall root "entry") = Ok parsed ->
  exists out,
    parse_log_file fromstring file_path w = (Ok out, w)
    /\ Permutation parsed out
    /\ StronglySorted key_le out
    /\ (content = scenario1 -> root = scenario1_tree -> out = [west; east]).
Proof.
  intros H Hs Hf Hm. exists (sorted key_lt parsed).
  rewrite (parse_log_file_run _ _ _ _ _ _ H Hs Hf), Hm.
  split; [reflexivity|]. split; [apply sorted_by_key|].
  split; [apply sorted_by_key|].
  intros _ ->. vm_compute in Hm. injection Hm as <-. reflexivity.
Qed.

Lemma extraction_sorted_witness :
  exists out,
    parse_log_file MiniET.fromstring "gp.log" scenario1_world
    = (Ok out, scenario1_world)
    /\ Permutation [east; west] out
    /\ StronglySorted key_le out
    /\ (scenario1 = scenario1 -> scenario1_tree = scenario1_tree ->
        out = [west; east]).
Proof.
  apply (extraction_sorted MiniET.fromstring "gp.log" scenario1_world
           scenario1 (mkMatch scenario1 "") scenario1_tree
           [east; west]);
    vm_compute; reflexivity.
Defined.

(** *** Fields and priorities *)

Lemma int_raises text e : int text = Raise e -> e = ValueError.
Proof.
  unfold int, int_digits.
  destruct (rstrip is_c_space (lstrip is_c_space text)) as [|c u];
    [congruence|].
  destruct (Ascii.eqb c "-"); [|destruct (Ascii.eqb c "+")];
    repeat match goal with
      | |- context [digits ?a ?b ?u] => destruct (digits a b u)
      end; simpl; congruence.
Qed.

Lemma gateway_info_raises entry e : gateway_info entry = Raise e -> e = ValueError.
Proof.
  unfold gateway_info.
  destruct (int (_get_text entry "priority" "0")) eqn:E; simpl;
    [discriminate|].
  intros [= <-]. eapply int_raises. exact E.
Qed.

Lemma mapM_raises {A B : Type} (f : A -> result B) x e l :
  (forall y e', f y = Raise e' -> e' = ValueError) ->
  In x l -> f x = Raise e -> mapM f l = Raise ValueError.
Proof.
  intros Hf. induction l as [|a l IH]; intros Hin Hx; [destruct Hin|].
  simpl. destruct (f a) as [b|e'] eqn:Ea.
  - destruct Hin as [->|Hin]; [congruence|].
    simpl. rewrite (IH Hin Hx). reflexivity.
  - rewrite (Hf _ _ Ea). reflexivity.
Qed.

Lemma mapM_in {A B : Type} (f : A -> result B) l : forall bs b,
  mapM f l = Ok bs -> In b bs -> exists a, In a l /\ f a = Ok b.
Proof.
  induction l as [|a l IH]; intros bs b H Hin; simpl in H.
  - injection H as <-. destruct Hin.
  - destruct (f a) as [b0|] eqn:Ea; [|discriminate].
    simpl in H. destruct (mapM f l) as [bs0|]; [|discriminate].
    simpl in H. injection H as <-.
    destruct Hin as [<-|Hin].
    + exists a. split; [left; reflexivity | exact Ea].
    + destruct (IH _ _ eq_refl Hin) as (a' & Ha' & Hf).
      exists a'. split; [right; exact Ha' | exact Hf].
Qed.

(** [_get_text] returns the text of the sub-element, and the default
    where there is none. *)
Lemma get_text_field entry tag default :
  _get_text entry tag default
  = match field_text entry tag with
    | EmptyString => default
    | t => t
    end.
Proof.
  unfold _get_text, field_text.
  destruct (find entry tag) as [[t [[|c x]|] k]|]; reflexivity.
Qed.

Lemma get_text_empty entry tag : _get_text entry tag "" = field_text entry tag.
Proof.
  rewrite get_text_field. destruct (field_text entry tag); reflexivity.
Qed.

Lemma no_text_field entry tag : no_text entry tag <-> field_text entry tag = "".
Proof.
  unfold no_text, field_text. split.
  - intros [->|(child & -> & Hc)]; [reflexivity|].
    destruct child as [t x k]. simpl in Hc.
    destruct Hc as [->| ->]; reflexivity.
  - destruct (find entry tag) as [[t [x|] k]|]; intros H.
    + subst x. right. eexists. split; [reflexivity|]. right. reflexivity.
    + right. eexists. split; [reflexivity|]. left. reflexivity.
    + left. reflexivity.
Qed.

Lemma mapM_ok {A B : Type} (f : A -> result B) l :
  (forall a, In a l -> exists b, f a = Ok b) ->
  exists bs,
    mapM f l = Ok bs
    /\ length bs = length l
    /\ forall a b, In a l -> f a = Ok b -> In b bs.
Proof.
  induction l as [|x l IH]; intros H.
  - exists []. repeat split. intros a b [].
  - destruct (H x (or_introl eq_refl)) as [y Hy].
    destruct IH as (bs & Hm & Hlen & Hin);
      [intros a Ha; apply H; right; exact Ha|].
    exists (y :: bs). simpl. rewrite Hy. simpl. rewrite Hm. simpl.
    split; [reflexivity|]. split; [rewrite Hlen; reflexivity|].
    intros a b [<-|Ha] Hf.
    + left. congruence.
    + right. exact (Hin a b Ha Hf).
Qed.

(** C6.  When no priority text of the document is rejected by [int], the
    extraction returns one record for each entry, and for every entry
    whose priority sub-element is missing or empty the record it
    returns has priority 0.  A priority text that [int] does not accept
    makes the extraction of the whole file return no record: the
    [ValueError] leaves the loop and is reported by [parse_log_file]. *)
Theorem priority_default_or_fatal (fromstring : string -> option Element)
  file_path (w : world msg) content m root :
  files w !! file_path = Some content ->
  search gateway_list_pattern content = Some m ->
  fromstring (group0 m) = Some root ->
  ((forall entry, In entry (findall root "entry") ->
      exists p, int (_get_text entry "priority" "0") = Ok p) ->
   exists out,
     parse_log_file fromstring file_path w = (Ok out, w)
     /\ length out = length (findall root "entry")
     /\ forall entry, In entry (findall root "entry") ->
          no_text entry "priority" ->
          exists r, In r out /\ gateway_info entry = Ok r
                    /\ priority r = 0%Z)
  /\ (forall entry child txt,
        In entry (findall root "entry") ->
        find entry "priority" = Some child ->
        etext child = Some txt ->
        txt <> "" ->
        int txt = Raise ValueError ->
        parse_log_file fromstring file_path w
        = (Ok [], mkWorld (files w)
                    (console w ++ [ErrorParsingFile ValueError]))).
Proof.
  intros H Hs Hf. rewrite (parse_log_file_run _ _ _ _ _ _ H Hs Hf). split.
  - intros Hall.
    destruct (mapM_ok gateway_info (findall root "entry"))
      as (parsed & Hm & Hlen & Hin).
    { intros entry He. destruct (Hall entry He) as [p Hp].
      unfold gateway_info. rewrite Hp. simpl. eauto. }
    rewrite Hm. exists (sorted key_lt parsed).
    split; [reflexivity|]. split.
    + rewrite <- Hlen. symmetry. apply Permutation_length, sorted_perm.
    + intros entry He Hn. apply no_text_field in Hn.
      assert (Hg : exists r, gateway_info entry = Ok r /\ priority r = 0%Z).
      { unfold gateway_info. rewrite (get_text_field entry "priority"), Hn.
        eexists. split; reflexivity. }
      destruct Hg as (r & Hg & Hp). exists r.
      split; [|split; assumption].
      eapply Permutation_in; [apply sorted_perm|].
      exact (Hin entry r He Hg).
  - intros entry child txt Hin Hc Ht Hne Hi.
    assert (Hg : gateway_info entry = Raise ValueError).
    { unfold gateway_info. rewrite (get_text_field entry "priority").
      unfold field_text. rewrite Hc. destruct child as [t x k].
      simpl in Ht. subst x. destruct txt; [congruence|].
      rewrite Hi. reflexivity. }
    rewrite (mapM_raises _ _ _ _ gateway_info_raises Hin Hg). reflexivity.
Qed.

Lemma priority_default_or_fatal_witness :
  (exists out,
     parse_log_file MiniET.fromstring "gp.log" unset_priority_world
     = (Ok out, unset_priority_world)
     /\ length out = 3
     /\ (exists r, In r out /\ gateway_info empty_priority_entry = Ok r
                   /\ priority r = 0%Z)
     /\ (exists r, In r out /\ gateway_info no_priority_entry = Ok r
                   /\ priority r = 0%Z))
  /\ parse_log_file MiniET.fromstring "gp.log" bad_priority_world
     = (Ok [], mkWorld (files bad_priority_world)
                 [ErrorParsingFile ValueError]).
Proof.
  split.
  - destruct (proj1 (priority_default_or_fatal MiniET.fromstring "gp.log"
                       unset_priority_world unset_priority_log
                       (mkMatch unset_priority_log "") unset_priority_tree
                       eq_refl eq_refl eq_refl))
      as (out & Hrun & Hlen & Hdef).
    + intros entry [<-|[<-|[<-|[]]]]; eexists; vm_compute; reflexivity.
    + exists out. split; [exact Hrun|]. split; [exact Hlen|]. split.
      * apply Hdef; [left; reflexivity|].
        right. eexists. split; [reflexivity|]. left. reflexivity.
      * apply Hdef; [right; left; reflexivity|]. left. reflexivity.
  - apply (proj2 (priority_default_or_fatal MiniET.fromstring "gp.log"
                    bad_priority_world bad_priority_log
                    (mkMatch bad_priority_log "")
                    (Elem "gateway-list" None
                       [Elem "entry" None [Elem "gateway" (Some "gw1") [];
                                           Elem "priority" (Some "10") []];
                        Elem "entry" None [Elem "gateway" (Some "gw2") [];
                                           Elem "priority" (Some "high") []]])
                    eq_refl eq_refl eq_refl)
             (Elem "entry" None [Elem "gateway" (Some "gw2") [];
                                 Elem "priority" (Some "high") []])
             (Elem "priority" (Some "high") []) "high");
      try (vm_compute; reflexivity).
    + right. left. reflexivity.
    + discriminate.
Defined.

(** C8, as stated, fails: [int] accepts a sign, so a priority text [-5]
    gives a record with priority -5. *)
Lemma negative_priority_extracted :
  fst (parse_log_file MiniET.fromstring "gp.log" negative_world)
  = Ok [mkGateway "gw1" "East" (-5) "" "" "" "" "" ""]
  /\ ~ (forall r, In r [mkGateway "gw1" "East" (-5) "" "" "" "" "" ""] ->
                  (0 <= priority r)%Z).
Proof.
  split; [vm_compute; reflexivity|].
  intros H. specialize (H _ (or_introl eq_refl)). simpl in H. lia.
Qed.

(** C8, amended.  Every record of the extraction comes from an entry of
    the parsed block; each field other than the priority is the text of
    the sub-element of that name, the empty string when the sub-element
    is missing or has no text; the priority is the integer that [int]
    reads from the priority text, 0 when that text is missing or empty,
    and it may be negative. *)
Theorem record_fields (fromstring : string -> option Element)
  file_path (w : world msg) recs r :
  fst (parse_log_file fromstring file_path w) = Ok recs ->
  In r recs ->
  exists content m root entry,
    files w !! file_path = Some content
    /\ search gateway_list_pattern content = Some m
    /\ fromstring (group0 m) = Some root
    /\ In entry (findall root "entry")
    /\ gateway r = field_text entry "gateway"
    /\ description r = field_text entry "description"
    /\ tunnel r = field_text entry "tunnel"
    /\ manual r = field_text entry "manual"
    /\ authenticated r = field_text entry "authenticated"
    /\ internal r = field_text entry "internal"
    /\ allow_tunnel r = field_text entry "allow-tunnel"
    /\ last_hip_sent r = field_text entry "last_hip_sent"
    /\ int (match field_text entry "priority" with
            | EmptyString => "0"
            | t => t
            end) = Ok (priority r)
    /\ (no_text entry "priority" -> priority r = 0%Z).
Proof.
  intros Hrun Hin.
  destruct (files w !! file_path) as [content|] eqn:H.
  2:{ unfold parse_log_file in Hrun. revert Hrun. run_io. rewrite H. simpl.
      intros [= <-]. destruct Hin. }
  destruct (search gateway_list_pattern content) as [m|] eqn:Hs.
  2:{ unfold parse_log_file in Hrun. revert Hrun. run_io. rewrite H, Hs.
      simpl. intros [= <-]. destruct Hin. }
  destruct (fromstring (group0 m)) as [root|] eqn:Hf.
  2:{ unfold parse_log_file, _parse_gateway_xml in Hrun. revert Hrun.
      run_io. rewrite H, Hs, Hf. simpl. intros [= <-]. destruct Hin. }
  rewrite (parse_log_file_run _ _ _ _ _ _ H Hs Hf) in Hrun.
  destruct (mapM gateway_info (findall root "entry")) as [parsed|e] eqn:Hm;
    simpl in Hrun; injection Hrun as <-; [|destruct Hin].
  apply (Permutation_in _ (Permutation_sym (sorted_perm key_lt parsed)))
    in Hin.
  destruct (mapM_in _ _ _ _ Hm Hin) as (entry & He & Hg).
  exists content, m, root, entry.
  unfold gateway_info in Hg.
  rewrite !get_text_empty, get_text_field in Hg.
  destruct (int _) as [p|] eqn:Hp; simpl in Hg; [|discriminate].
  injection Hg as <-. simpl.
  repeat (split; [first [assumption | reflexivity]|]).
  intros Hn. apply no_text_field in Hn. rewrite Hn in Hp.
  vm_compute in Hp. congruence.
Qed.

Lemma record_fields_witness :
  exists content m root entry,
    files scenario1_world !! "gp.log" = Some content
    /\ search gateway_list_pattern content = Some m
    /\ MiniET.fromstring (group0 m) = Some root
    /\ In entry (findall root "entry")
    /\ gateway west = field_text entry "gateway"
    /\ description west = field_text entry "description"
    /\ tunnel west = field_text entry "tunnel"
    /\ manual west = field_text entry "manual"
    /\ authenticated west = field_text entry "authenticated"
    /\ internal west = field_text entry "internal"
    /\ allow_tunnel west = field_text entry "allow-tunnel"
    /\ last_hip_sent west = field_text entry "last_hip_sent"
    /\ int (match field_text entry "priority" with
            | EmptyString => "0"
            | t => t
            end) = Ok (priority west)
    /\ (no_text entry "priority" -> priority west = 0%Z).
Proof.
  apply (record_fields MiniET.fromstring "gp.log" scenario1_world
           [west; east] west).
  - vm_compute. reflexivity.
  - left. reflexivity.
Defined.

(** *** Timestamps *)

Lemma span_cons c s r :
  String.length r <= String.length s ->
  span (String c s) r = String c (span s r).
Proof.
  intros H. unfold span. simpl String.length.
  replace (S (String.length s) - String.length r)
    with (S (String.length s - String.length r)) by lia.
  reflexivity.
Qed.

Lemma span_refl r : span r r = "".
Proof.
  unfold span. rewrite Nat.sub_diag. destruct r; reflexivity.
Qed.

Ltac peel_fixed H :=
  repeat first
    [ apply match_here_lit in H; destruct H as (? & -> & H)
    | apply match_here_dig in H; destruct H as (? & ? & -> & ? & H) ].

Ltac digits_true :=
  repeat match goal with
    | E : is_digit _ = true |- _ => rewrite E; clear E
    end.

(** The token that either pattern captures ends with a colon and three
    digits. *)
Lemma pangps_token s g r :
  match_here pangps_pattern s = Some (g, r) ->
  trailing_digits (span g r) <= 3.
Proof.
  unfold pangps_pattern, digs. cbn [app repeat]. intros H.
  apply match_here_grp in H. destruct H as (-> & g' & H).
  peel_fixed H. injection H as _ <-.
  rewrite !span_cons by (simpl; lia). rewrite span_refl.
  cbn [trailing_digits all_digits]. digits_true. simpl. lia.
Qed.

Lemma pangpa_token s g r :
  match_here pangpa_pattern s = Some (g, r) ->
  trailing_digits (span g r) <= 3.
Proof.
  unfold pangpa_pattern, digs. cbn [app repeat]. intros H.
  apply match_here_lit in H. destruct H as (? & -> & H).
  apply match_here_plus in H. destruct H as (? & H).
  peel_fixed H.
  apply match_here_plus in H. destruct H as (? & H).
  peel_fixed H.
  apply match_here_grp in H. destruct H as (-> & g' & H).
  peel_fixed H. injection H as _ <-.
  rewrite !span_cons by (simpl; lia). rewrite span_refl.
  cbn [trailing_digits all_digits]. digits_true. simpl. lia.
Qed.

Lemma make_datetime_ok y mo d h mi s us dt :
  make_datetime y mo d h mi s us = Ok dt ->
  microsecond dt = us /\ (0 <= us <= 999999)%Z.
Proof.
  unfold make_datetime.
  destruct (between 0 999999 us) eqn:E;
    [|rewrite andb_false_r; discriminate].
  rewrite andb_true_r.
  match goal with |- (if ?b then _ else _) = _ -> _ => destruct b end;
    [|discriminate].
  intros [= <-]. unfold between in E.
  apply andb_true_iff in E. destruct E as [E1 E2].
  apply Z.leb_le in E1, E2. simpl. lia.
Qed.

Lemma strptime_ok s fmt dt :
  strptime s fmt = Ok dt ->
  exists t, strp fmt s tm0 = Some (t, "") /\ microsecond dt = tm_frac t.
Proof.
  unfold strptime. destruct (strp fmt s tm0) as [[t [|c r]]|];
    try discriminate.
  intros H. apply make_datetime_ok in H. destruct H as [H _]. eauto.
Qed.

(** The parse of the captured prefix has no fraction. *)
Lemma strptime_seconds s y dt :
  y <> D_f -> strptime s (fmt_seconds y) = Ok dt -> microsecond dt = 0%Z.
Proof.
  intros Hy H. apply strptime_ok in H. destruct H as (t & H & ->).
  apply strp_frac_kept in H; [exact H|].
  unfold fmt_seconds. simpl. intros Hin.
  repeat destruct Hin as [Hin|Hin]; try discriminate; auto.
Qed.

(** The two dialects return whole seconds, whatever the line: either
    the three digits are 000, or the product by 1000 is out of range and
    the prefix without them is parsed instead. *)
Lemma parse_dialect_whole_seconds pattern y n log_line dt :
  (forall s g r, match_here pattern s = Some (g, r) ->
                 trailing_digits (span g r) <= 3) ->
  y <> D_f ->
  parse_dialect pattern y n log_line = Some dt ->
  microsecond dt = 0%Z.
Proof.
  intros Hshape Hy. unfold parse_dialect.
  destruct (search pattern log_line) as [m|] eqn:Hs; [|discriminate].
  apply search_some in Hs. destruct Hs as (s' & g & r & Hm & ->).
  apply Hshape in Hm. cbn [group1].
  destruct (strptime (span g r) (fmt_millis y)) as [dt0|e] eqn:H0;
    cbn [mbind result_bind].
  - destruct (replace_microsecond dt0 (microsecond dt0 * 1000))
      as [dt1|e] eqn:H1.
    + intros [= <-].
      apply make_datetime_ok in H1. destruct H1 as [-> Hr].
      apply strptime_ok in H0. destruct H0 as (t & H0 & Hus).
      rewrite Hus in *. unfold fmt_millis in H0.
      change (fmt_seconds y ++ [D_lit ":"; D_f])
        with (fmt_seconds y ++ [D_lit ":"] ++ [D_f]) in H0.
      rewrite app_assoc in H0. apply strp_frac_suffix in H0.
      destruct H0 as (p & ds & Hts & Hd & Hlen & Hdiv).
      rewrite Hts in Hm.
      pose proof (trailing_digits_suffix p ds Hd) as Hle.
      assert (H3 : (10 ^ 3 | tm_frac t)%Z).
      { eapply Z.divide_trans; [|exact Hdiv].
        exists (10 ^ Z.of_nat (6 - String.length ds - 3))%Z.
        rewrite <- Z.pow_add_r by lia. f_equal. lia. }
      destruct H3 as [k Hk]. change (10 ^ 3)%Z with 1000%Z in Hk. lia.
    + destruct (strptime (take n (span g r)) (fmt_seconds y)) as [dt1|]
        eqn:H2; [|discriminate].
      intros [= <-]. eapply strptime_seconds; eassumption.
  - destruct (strptime (take n (span g r)) (fmt_seconds y)) as [dt1|]
      eqn:H2; [|discriminate].
    intros [= <-]. eapply strptime_seconds; eassumption.
Qed.

(** [parse_log_timestamp] never returns a fraction of a second. *)
Lemma parse_log_timestamp_whole_seconds log_line dt :
  parse_log_timestamp log_line = Some dt -> microsecond dt = 0%Z.
Proof.
  unfold parse_log_timestamp.
  destruct (parse_dialect pangpa_pattern D_Y 19 log_line) as [dt'|] eqn:E.
  - intros [= <-].
    eapply parse_dialect_whole_seconds; [exact pangpa_token | | exact E].
    discriminate.
  - apply parse_dialect_whole_seconds; [exact pangps_token | discriminate].
Qed.

(** [%f] has already scaled the three digits to microseconds, so the
    product by 1000 that [parse_log_timestamp] passes to [replace] is out
    of range for every fraction but zero. *)
Lemma replace_scaled_raises dt :
  (0 < microsecond dt)%Z -> (microsecond dt mod 1000 = 0)%Z ->
  replace_microsecond dt (microsecond dt * 1000) = Raise ValueError.
Proof.
  intros Hpos Hmod. unfold replace_microsecond, make_datetime.
  assert (E : between 0 999999 (microsecond dt * 1000) = false).
  { unfold between. apply andb_false_iff. right. apply Z.leb_gt.
    apply Z.mod_divide in Hmod; [|lia]. destruct Hmod as [k Hk]. lia. }
  rewrite E, andb_false_r. reflexivity.
Qed.

(** C1.  On the line of scenario 2 the pattern captures the token with
    its milliseconds and [strptime] reads them as 597000 microseconds,
    but the [replace] that follows raises [ValueError], and the handler
    parses the first 19 characters again: the result is 08:51:52 with no
    fraction, not 08:51:52.597. *)
Theorem pangpa_milliseconds_dropped :
  search pangpa_pattern scenario2
  = Some (mkMatch "P2104-T34307 09/24/2025 08:51:52:597"
                  "09/24/2025 08:51:52:597")
  /\ strptime "09/24/2025 08:51:52:597" (fmt_millis D_Y)
     = Ok (mkdatetime 2025 9 24 8 51 52 597000)
  /\ replace_microsecond (mkdatetime 2025 9 24 8 51 52 597000)
                         (597000 * 1000)
     = Raise ValueError
  /\ parse_log_timestamp scenario2 = Some (mkdatetime 2025 9 24 8 51 52 0)
  /\ parse_log_timestamp scenario2
     <> Some (mkdatetime 2025 9 24 8 51 52 597000).
Proof.
  repeat split; try (vm_compute; reflexivity).
  vm_compute. discriminate.
Qed.

(** *** Windows whose start is after their end *)

(** With the start after the end no time is in the window: only the
    lines without timestamp are kept. *)
Lemma inverted_window_retained start_time end_time line :
  dt_lt end_time start_time = true ->
  retained (Some start_time) (Some end_time) line
  = match parse_log_timestamp line with
    | None => true
    | Some _ => false
    end.
Proof.
  intros H. unfold retained, in_window, dt_le.
  destruct (parse_log_timestamp line) as [t|]; [|reflexivity].
  destruct (dt_lt_between _ t _ H) as [-> | ->];
    [apply andb_false_r | reflexivity].
Qed.

(** The interactive front end does not let such a window through: the
    end it accepts is after the start. *)
Lemma prompt_end_time_after_start start_time answers end_time :
  prompt_end_time start_time answers = Some end_time ->
  dt_gt end_time start_time = true.
Proof.
  induction answers as [|a rest IH]; simpl; [discriminate|].
  destruct (parse_time_input (strip a)) as [e|]; [|exact IH].
  destruct (dt_gt e start_time) eqn:E; [|exact IH].
  intros [= <-]. exact E.
Qed.

(** C4.  [filter_logs_by_time] does not reject a window whose start is
    after its end.  With [--start-time 09/25/2025 --end-time 09/23/2025]
    it rewrites the file, dropping the two lines that carry a timestamp,
    and returns [True]. *)
Theorem inverted_window_is_processed :
  parse_time_input "09/25/2025" = Some sep25
  /\ parse_time_input "09/23/2025" = Some sep23
  /\ dt_gt sep25 sep23 = true
  /\ filter_logs_by_time "20250927_120000" "gp.log" (Some sep25) (Some sep23)
       None false sample_world
     = (Ok true,
        mkWorld {[ "gp.log" := "<entry>no time here</entry>" +:+ String newline "" ]}
          [FilteringComplete; TotalLogLines 3; LinesKept 1;
           LinesRemoved 2 (2%Z, 3%Z); StartTime sep25; EndTime sep23;
           OriginalLogUpdated "gp.log"]).
Proof.
  repeat split; vm_compute; reflexivity.
Qed.

End GatewayParserFacts.

(** ** Further properties of the class *)
Module ClassFacts.
Import Py GatewayParser Spec Samples GatewayParserRest SpecRest.
Import PyFacts GatewayParserFacts.

(** *** Timestamps are calendar times *)

Lemma make_datetime_calendar y mo d h mi s us dt :
  make_datetime y mo d h mi s us = Ok dt -> calendar_time dt.
Proof.
  unfold make_datetime, calendar_time, between.
  destruct (_ && _) eqn:E; [|discriminate]. intros [= <-]. simpl.
  repeat match goal with
    | H : _ && _ = true |- _ => apply andb_true_iff in H; destruct H
    | H : (_ <=? _)%Z = true |- _ => apply Z.leb_le in H
    end.
  lia.
Qed.

Lemma strptime_calendar s fmt dt : strptime s fmt = Ok dt -> calendar_time dt.
Proof.
  unfold strptime. destruct (strp fmt s tm0) as [[t [|c r]]|];
    try discriminate.
  apply make_datetime_calendar.
Qed.

Lemma parse_dialect_calendar pattern y n log_line dt :
  parse_dialect pattern y n log_line = Some dt -> calendar_time dt.
Proof.
  unfold parse_dialect.
  destruct (search pattern log_line) as [m|]; [|discriminate].
  destruct (strptime (group1 m) (fmt_millis y)) as [dt0|e];
    cbn [mbind result_bind].
  - destruct (replace_microsecond dt0 (microsecond dt0 * 1000))
      as [dt1|e] eqn:H1.
    + intros [= <-]. eapply make_datetime_calendar. exact H1.
    + destruct (strptime (take n (group1 m)) (fmt_seconds y)) as [dt1|]
        eqn:H2; [|discriminate].
      intros [= <-]. eapply strptime_calendar. exact H2.
  - destruct (strptime (take n (group1 m)) (fmt_seconds y)) as [dt1|]
      eqn:H2; [|discriminate].
    intros [= <-]. eapply strptime_calendar. exact H2.
Qed.

(** X1.  Whatever the line, a timestamp that [parse_log_timestamp]
    returns is a date of the calendar with a time of day (a token such as
    02/30/2025 or 25:00:00 gives no timestamp), and it has no fraction of
    a second. *)
Theorem timestamp_is_calendar_time log_line dt :
  parse_log_timestamp log_line = Some dt ->
  calendar_time dt /\ whole_seconds dt.
Proof.
  intros H. split.
  - unfold parse_log_timestamp in H.
    destruct (parse_dialect pangpa_pattern D_Y 19 log_line) as [dt'|] eqn:E.
    + injection H as <-. eapply parse_dialect_calendar. exact E.
    + eapply parse_dialect_calendar. exact H.
  - eapply parse_log_timestamp_whole_seconds. exact H.
Qed.

Lemma timestamp_is_calendar_time_witness :
  calendar_time (mkdatetime 2025 9 24 8 51 52 0)
  /\ whole_seconds (mkdatetime 2025 9 24 8 51 52 0).
Proof.
  apply (timestamp_is_calendar_time scenario2). vm_compute. reflexivity.
Defined.

(** *** [parse_time_input] and the prompt for the window *)

Lemma first_some_strptime s fmts dt :
  first_some (fun fmt => match strptime s fmt with
                         | Ok dt => Some dt
                         | Raise _ => None
                         end) fmts = Some dt ->
  exists fmt, In fmt fmts /\ strptime s fmt = Ok dt.
Proof.
  intros H. apply first_some_some in H. destruct H as (fmt & Hin & H).
  exists fmt. split; [exact Hin|].
  destruct (strptime s fmt); congruence.
Qed.

(** X2.  A time that [parse_time_input] accepts is a date of the calendar
    with a time of day and no fraction of a second; a blank input is not
    accepted. *)
Theorem parse_time_input_calendar time_str dt :
  parse_time_input time_str = Some dt ->
  calendar_time dt /\ whole_seconds dt /\ strip time_str <> "".
Proof.
  unfold parse_time_input. destruct (strip time_str) as [|c u] eqn:Es;
    [discriminate|].
  intros H. apply first_some_strptime in H. destruct H as (fmt & Hin & H).
  split; [eapply strptime_calendar; exact H|]. split; [|discriminate].
  apply strptime_ok in H. destruct H as (t & H & Hus).
  unfold whole_seconds. rewrite Hus.
  apply strp_frac_kept in H; [exact H|].
  unfold time_formats in Hin. simpl in Hin.
  repeat destruct Hin as [<-|Hin]; try destruct Hin;
    simpl; intros Hf; repeat destruct Hf as [Hf|Hf]; try discriminate; auto.
Qed.

Lemma parse_time_input_calendar_witness :
  calendar_time (mkdatetime 2025 7 31 8 59 0 0)
  /\ whole_seconds (mkdatetime 2025 7 31 8 59 0 0)
  /\ strip " 2025-07-31 08:59 " <> "".
Proof.
  apply (parse_time_input_calendar " 2025-07-31 08:59 ").
  vm_compute. reflexivity.
Defined.

(** X3.  The prompt for the end of the window returns the first answer
    that parses and is later than the start: what it returns is strictly
    after the start, and every answer before it was unparseable or not
    after the start. *)
Theorem prompt_end_time_first_later start_time answers end_time :
  prompt_end_time start_time answers = Some end_time ->
  dt_lt start_time end_time = true
  /\ exists before a after,
       answers = before ++ a :: after
       /\ parse_time_input (strip a) = Some end_time
       /\ forall b, In b before ->
            match parse_time_input (strip b) with
            | Some e => dt_lt start_time e = false
            | None => True
            end.
Proof.
  induction answers as [|a rest IH]; simpl; [discriminate|].
  destruct (parse_time_input (strip a)) as [e|] eqn:Ea.
  - unfold dt_gt. destruct (dt_lt start_time e) eqn:E.
    + intros [= <-]. split; [exact E|].
      exists [], a, rest. repeat split; [exact Ea | intros b []].
    + intros H. destruct (IH H) as (Hlt & before & a' & after & -> & Ha & Hb).
      split; [exact Hlt|].
      exists (a :: before), a', after. repeat split; [exact Ha|].
      intros b [<-|Hin]; [rewrite Ea; exact E | apply Hb; exact Hin].
  - intros H. destruct (IH H) as (Hlt & before & a' & after & -> & Ha & Hb).
    split; [exact Hlt|].
    exists (a :: before), a', after. repeat split; [exact Ha|].
    intros b [<-|Hin]; [rewrite Ea; exact I | apply Hb; exact Hin].
Qed.

Lemma prompt_end_time_first_later_witness :
  dt_lt sep25 (mkdatetime 2025 9 26 0 0 0 0) = true
  /\ exists before a after,
       ["soon"; "09/23/2025"; "09/26/2025"; "09/27/2025"]
       = before ++ a :: after
       /\ parse_time_input (strip a) = Some (mkdatetime 2025 9 26 0 0 0 0)
       /\ forall b, In b before ->
            match parse_time_input (strip b) with
            | Some e => dt_lt sep25 e = false
            | None => True
            end.
Proof.
  apply (prompt_end_time_first_later sep25
           ["soon"; "09/23/2025"; "09/26/2025"; "09/27/2025"]).
  vm_compute. reflexivity.
Defined.

(** *** The report and the effects of the time filter *)

Lemma retained_unbounded line : retained None None line = true.
Proof.
  unfold retained, in_window.
  destruct (parse_log_timestamp line); reflexivity.
Qed.

Lemma filter_all {A : Type} (p : A -> bool) l :
  (forall x, p x = true) -> List.filter p l = l.
Proof.
  intros H. induction l as [|x l IH]; simpl; [reflexivity|].
  rewrite H, IH. reflexivity.
Qed.

(** X4.  Without bounds the filter keeps every line: what it writes is
    the content it read. *)
Theorem filter_without_bounds now input_file output_file create_backup
  (w : world msg) content :
  files w !! input_file = Some content ->
  files (snd (filter_logs_by_time now input_file None None output_file
                create_backup w))
    !! default input_file output_file
  = Some content.
Proof.
  intros H. rewrite (filter_output _ _ _ _ _ _ _ _ H).
  rewrite (filter_all _ _ retained_unbounded), joinlines_readlines.
  reflexivity.
Qed.

Lemma filter_without_bounds_witness :
  files (snd (filter_logs_by_time "20250927_120000" "gp.log" None None
                (Some "copy.log") false sample_world))
    !! "copy.log"
  = Some sample_log.
Proof.
  apply (filter_without_bounds "20250927_120000" "gp.log" (Some "copy.log")
           false sample_world sample_log).
  reflexivity.
Defined.

Lemma retained_both start_time end_time line :
  retained (Some start_time) (Some end_time) line
  = retained (Some start_time) None line
    && retained None (Some end_time) line.
Proof.
  unfold retained, in_window.
  destruct (parse_log_timestamp line) as [t|]; [|reflexivity].
  rewrite andb_true_r. reflexivity.
Qed.

Lemma filter_and {A : Type} (p q : A -> bool) l :
  List.filter q (List.filter p l) = List.filter (fun x => p x && q x) l.
Proof.
  induction l as [|x l IH]; simpl; [reflexivity|].
  destruct (p x); simpl; [destruct (q x)|]; rewrite IH; reflexivity.
Qed.

(** X5.  The two bounds can be applied one after the other, in either
    order: filtering by the start alone and then filtering the result by
    the end alone (or the end first, then the start) writes what one run
    with both bounds writes. *)
Theorem filter_bounds_compose now1 now2 now input_file start_time end_time
  output1 output2 output backup1 backup2 backup (w : world msg) content :
  files w !! input_file = Some content ->
  let both :=
    files (snd (filter_logs_by_time now input_file (Some start_time)
                  (Some end_time) output backup w))
      !! default input_file output in
  let out1 := default input_file output1 in
  let out2 := default out1 output2 in
  let w1 := snd (filter_logs_by_time now1 input_file (Some start_time) None
                   output1 backup1 w) in
  let w2 := snd (filter_logs_by_time now2 out1 None (Some end_time)
                   output2 backup2 w1) in
  let w1' := snd (filter_logs_by_time now1 input_file None (Some end_time)
                    output1 backup1 w) in
  let w2' := snd (filter_logs_by_time now2 out1 (Some start_time) None
                    output2 backup2 w1') in
  files w2 !! out2 = both /\ files w2' !! out2 = both.
Proof.
  intros H both out1 out2 w1 w2 w1' w2'. subst both out2 w2 w2'.
  rewrite (filter_output _ _ _ _ _ _ _ _ H).
  split.
  - pose proof (filter_output now1 input_file (Some start_time) None output1
                  backup1 w content H) as H1.
    fold out1 w1 in H1.
    rewrite (filter_output now2 out1 None (Some end_time) output2 backup2
               w1 _ H1).
    rewrite readlines_joinlines by (apply lines_wf_filter, readlines_wf).
    rewrite filter_and. do 2 f_equal.
    apply filter_ext. intros line. symmetry. apply retained_both.
  - pose proof (filter_output now1 input_file None (Some end_time) output1
                  backup1 w content H) as H1.
    fold out1 w1' in H1.
    rewrite (filter_output now2 out1 (Some start_time) None output2 backup2
               w1' _ H1).
    rewrite readlines_joinlines by (apply lines_wf_filter, readlines_wf).
    rewrite filter_and. do 2 f_equal.
    apply filter_ext. intros line. rewrite retained_both. apply andb_comm.
Qed.

Lemma filter_bounds_compose_witness :
  let both :=
    files (snd (filter_logs_by_time "20250927_120000" "gp.log" (Some sep23)
                  (Some sep25) None false sample_world))
      !! "gp.log" in
  let w1 := snd (filter_logs_by_time "20250927_120001" "gp.log" (Some sep23)
                   None (Some "a.log") true sample_world) in
  let w2 := snd (filter_logs_by_time "20250927_120002" "a.log" None
                   (Some sep25) None false w1) in
  let w1' := snd (filter_logs_by_time "20250927_120001" "gp.log" None
                    (Some sep25) (Some "a.log") true sample_world) in
  let w2' := snd (filter_logs_by_time "20250927_120002" "a.log" (Some sep23)
                    None None false w1') in
  files w2 !! "a.log" = both /\ files w2' !! "a.log" = both.
Proof.
  apply (filter_bounds_compose "20250927_120001" "20250927_120002"
           "20250927_120000" "gp.log" sep23 sep25 (Some "a.log") None None
           true false false sample_world sample_log).
  reflexivity.
Defined.

Lemma dropped_kept start_time end_time lines :
  dropped start_time end_time lines
  + length (List.filter (retained start_time end_time) lines)
  = length lines.
Proof.
  unfold dropped. induction lines as [|l lines IH]; simpl; [reflexivity|].
  destruct (retained start_time end_time l); simpl; lia.
Qed.

(** X6.  On a file that is not empty the filter returns [True], writes
    the kept lines, and reports the number of lines read, the number of
    lines it wrote and their difference as the lines removed, followed by
    the bounds that were given and by no other. *)
Theorem filter_report now input_file start_time end_time output_file
  (create_backup : bool) (w : world msg) content :
  files w !! input_file = Some content ->
  content <> "" ->
  let lines := readlines content in
  let kept := List.filter (retained start_time end_time) lines in
  let removed := length lines - length kept in
  let out := default input_file output_file in
  filter_logs_by_time now input_file start_time end_time output_file
    create_backup w
  = (Ok true,
     mkWorld
       (<[out := joinlines kept]>
          (with_backup create_backup now input_file content (files w)))
       (console w
        ++ (if create_backup
            then [BackupCreated (backup_of now input_file)] else [])
        ++ [FilteringComplete; TotalLogLines (length lines);
            LinesKept (length kept);
            LinesRemoved removed (Z.of_nat removed, Z.of_nat (length lines))]
        ++ match start_time with Some t => [StartTime t] | None => [] end
        ++ match end_time with Some t => [EndTime t] | None => [] end
        ++ [if String.eqb out input_file
            then OriginalLogUpdated input_file
            else FilteredLogSavedTo out])).
Proof.
  intros H Hne lines kept removed out.
  assert (Hlen : (Z.of_nat (length lines) =? 0)%Z = false).
  { subst lines. destruct (readlines content) as [|l ls] eqn:E.
    - apply readlines_nil in E. contradiction.
    - reflexivity. }
  pose proof (dropped_kept start_time end_time lines) as Hd.
  unfold filter_logs_by_time.
  cbv beta iota zeta delta [try_except read_file mbind io_bind].
  rewrite H. cbv beta iota zeta.
  rewrite filter_loop_retained, joinlines_readlines.
  fold lines. fold kept.
  replace (dropped start_time end_time lines) with removed
    by (subst removed; fold kept in Hd; lia).
  replace (length lines - removed) with (length kept)
    by (subst removed; fold kept in Hd; lia).
  unfold lift, truediv. rewrite Hlen. fold out.
  clear Hd Hlen H Hne. clearbody removed out. clearbody kept.
  clearbody lines.
  destruct create_backup, start_time, end_time;
    run_io; destruct (String.eqb out input_file); simpl;
    rewrite <- ?app_assoc; reflexivity.
Qed.

Lemma filter_report_witness :
  let lines := readlines sample_log in
  let kept := List.filter (retained (Some sep25) None) lines in
  let removed := length lines - length kept in
  filter_logs_by_time "20250927_120000" "gp.log" (Some sep25) None None
    false sample_world
  = (Ok true,
     mkWorld
       (<[ "gp.log" := joinlines kept]> (files sample_world))
       ([] ++ []
        ++ [FilteringComplete; TotalLogLines (length lines);
            LinesKept (length kept);
            LinesRemoved removed (Z.of_nat removed, Z.of_nat (length lines))]
        ++ [StartTime sep25] ++ []
        ++ [OriginalLogUpdated "gp.log"])).
Proof.
  apply (filter_report "20250927_120000" "gp.log" (Some sep25) None None
           false sample_world sample_log).
  - reflexivity.
  - discriminate.
Defined.

(** *** Missing files and untouched files *)

(** X7.  When the input file does not exist, no operation raises or
    writes anything: the extraction returns no record and the time range
    is (None, None), the remover and the filter return [False], and each
    prints its error. *)
Theorem missing_file_reported (fromstring : string -> option Element)
  now file_path output_file create_backup start_time end_time
  (w : world msg) (v : world event) :
  files w !! file_path = None ->
  files v !! file_path = None ->
  parse_log_file fromstring file_path w
  = (Ok [], mkWorld (files w) (console w ++ [FileNotFound file_path]))
  /\ remove_gateway_list_from_log now file_path output_file create_backup w
     = (Ok false,
        mkWorld (files w) (console w ++ [ErrorRemoving FileNotFoundError]))
  /\ filter_logs_by_time now file_path start_time end_time output_file
       create_backup w
     = (Ok false,
        mkWorld (files w) (console w ++ [ErrorFiltering FileNotFoundError]))
  /\ get_log_time_range file_path v
     = (Ok (None, None),
        mkWorld (files v)
          (console v ++ [ErrorGettingTimeRange FileNotFoundError])).
Proof.
  intros H Hv. repeat split.
  - unfold parse_log_file. run_io. rewrite H. reflexivity.
  - unfold remove_gateway_list_from_log. run_io. rewrite H. reflexivity.
  - unfold filter_logs_by_time. run_io. rewrite H. reflexivity.
  - unfold get_log_time_range. run_io. rewrite Hv. reflexivity.
Qed.

Lemma missing_file_reported_witness :
  parse_log_file MiniET.fromstring "other.log" sample_world
  = (Ok [], mkWorld (files sample_world) [FileNotFound "other.log"])
  /\ remove_gateway_list_from_log "20250927_120000" "other.log" None true
       sample_world
     = (Ok false,
        mkWorld (files sample_world) [ErrorRemoving FileNotFoundError])
  /\ filter_logs_by_time "20250927_120000" "other.log" (Some sep23) None
       None true sample_world
     = (Ok false,
        mkWorld (files sample_world) [ErrorFiltering FileNotFoundError])
  /\ get_log_time_range "other.log" (mkWorld (files sample_world) [])
     = (Ok (None, None),
        mkWorld (files sample_world)
          [ErrorGettingTimeRange FileNotFoundError]).
Proof.
  apply (missing_file_reported MiniET.fromstring "20250927_120000"
           "other.log" None true (Some sep23) None sample_world
           (mkWorld (files sample_world) []));
    reflexivity.
Defined.

Lemma backup_of_other now input_file : backup_of now input_file <> input_file.
Proof.
  unfold backup_of. intros E.
  apply (f_equal String.length) in E. rewrite !length_append in E.
  simpl in E. lia.
Qed.

Lemma with_backup_other (b : bool) now input_file content
  (fs : gmap string string) p :
  p <> backup_of now input_file ->
  with_backup b now input_file content fs !! p = fs !! p.
Proof.
  intros Hp. unfold with_backup. destruct b; [|reflexivity].
  apply lookup_insert_ne. congruence.
Qed.

(** X8.  The remover and the filter write the output path and, when a
    backup is asked for, the backup path, and nothing else.  The backup
    holds the content that was read; when the output goes to another
    file, the input file keeps its content. *)
Theorem writes_output_and_backup_only now input_file start_time end_time
  output_file (create_backup : bool) (w : world msg) content :
  files w !! input_file = Some content ->
  let out := default input_file output_file in
  let backup := backup_of now input_file in
  forall w',
    w' = snd (remove_gateway_list_from_log now input_file output_file
                create_backup w)
    \/ w' = snd (filter_logs_by_time now input_file start_time end_time
                  output_file create_backup w) ->
    (forall p, p <> out -> p <> backup -> files w' !! p = files w !! p)
    /\ (create_backup = false -> forall p, p <> out ->
          files w' !! p = files w !! p)
    /\ (create_backup = true -> out <> backup ->
          files w' !! backup = Some content)
    /\ (out <> input_file -> files w' !! input_file = Some content).
Proof.
  intros H out backup w' Hw'.
  assert (Hf : exists text,
             files w' = <[out := text]>
                          (with_backup create_backup now input_file content
                             (files w))).
  { destruct Hw' as [-> | ->].
    - eexists. apply (remove_run _ _ _ _ _ _ H).
    - eexists. apply (filter_run _ _ _ _ _ _ _ _ H). }
  destruct Hf as [text ->]. repeat split.
  - intros p Hp Hb. rewrite lookup_insert_ne by congruence.
    apply with_backup_other. exact Hb.
  - intros -> p Hp. rewrite lookup_insert_ne by congruence. reflexivity.
  - intros -> Hob. rewrite lookup_insert_ne by exact Hob.
    apply lookup_insert_eq.
  - intros Hoi. rewrite lookup_insert_ne by exact Hoi.
    rewrite with_backup_other
      by (intros E; symmetry in E; exact (backup_of_other _ _ E)).
    exact H.
Qed.

Lemma writes_output_and_backup_only_witness :
  let w1 := snd (remove_gateway_list_from_log "20250927_120000" "gp.log"
                   (Some "clean.log") true listed_world) in
  let w2 := snd (filter_logs_by_time "20250927_120000" "gp.log" (Some sep23)
                   None (Some "clean.log") true listed_world) in
  ((forall p, p <> "clean.log" -> p <> "gp.log.backup_20250927_120000" ->
      files w1 !! p = files listed_world !! p)
   /\ (true = false -> forall p, p <> "clean.log" ->
         files w1 !! p = files listed_world !! p)
   /\ (true = true -> "clean.log" <> "gp.log.backup_20250927_120000" ->
         files w1 !! "gp.log.backup_20250927_120000" = Some listed_log)
   /\ ("clean.log" <> "gp.log" -> files w1 !! "gp.log" = Some listed_log))
  /\ ((forall p, p <> "clean.log" -> p <> "gp.log.backup_20250927_120000" ->
         files w2 !! p = files listed_world !! p)
      /\ (true = false -> forall p, p <> "clean.log" ->
            files w2 !! p = files listed_world !! p)
      /\ (true = true -> "clean.log" <> "gp.log.backup_20250927_120000" ->
            files w2 !! "gp.log.backup_20250927_120000" = Some listed_log)
      /\ ("clean.log" <> "gp.log" -> files w2 !! "gp.log" = Some listed_log)).
Proof.
  split.
  - apply (writes_output_and_backup_only "20250927_120000" "gp.log"
             (Some sep23) None (Some "clean.log") true listed_world
             listed_log eq_refl _ (or_introl eq_refl)).
  - apply (writes_output_and_backup_only "20250927_120000" "gp.log"
             (Some sep23) None (Some "clean.log") true listed_world
             listed_log eq_refl _ (or_intror eq_refl)).
Defined.

(** *** The block that is parsed is the block that is replaced *)

Lemma match_here_plus_suffix re : forall s m,
  match_here (DigPlus :: re) s = Some m ->
  exists a t, s = a +:+ t /\ match_here re t = Some m.
Proof.
  induction s as [|d t IH]; intros m H; simpl in H; [discriminate|].
  destruct (is_digit d); [|discriminate].
  match type of H with
  | match ?x with _ => _ end = _ => destruct x as [m'|] eqn:E
  end.
  - injection H as ->. destruct (IH _ E) as (a & t' & -> & Ht).
    exists (String d a), t'. split; [reflexivity | exact Ht].
  - exists (String d ""), t. split; [reflexivity | exact H].
Qed.

(** What follows a match is a suffix of the subject. *)
Lemma match_here_suffix re : forall s g r,
  match_here re s = Some (g, r) -> exists p, s = p +:+ r.
Proof.
  induction re as [|a re IH]; intros s g r H.
  - simpl in H. injection H as _ <-. exists "". reflexivity.
  - destruct a.
    + apply match_here_lit in H. destruct H as (t & -> & H).
      destruct (IH _ _ _ H) as [p ->]. exists (String c p). reflexivity.
    + apply match_here_dig in H. destruct H as (d & t & -> & _ & H).
      destruct (IH _ _ _ H) as [p ->]. exists (String d p). reflexivity.
    + apply match_here_plus_suffix in H. destruct H as (a & t & -> & H).
      destruct (IH _ _ _ H) as [p ->]. exists (a +:+ p).
      symmetry. apply append_assoc.
    + apply match_here_lazy in H. destruct H as (a & t & -> & H).
      destruct (IH _ _ _ H) as [p ->]. exists (a +:+ p).
      symmetry. apply append_assoc.
    + apply match_here_grp in H. destruct H as (_ & g' & H).
      apply (IH _ _ _ H).
Qed.

Lemma drop_append p r : drop (String.length p) (p +:+ r) = r.
Proof.
  induction p as [|c p IH]; [destruct r; reflexivity|].
  rewrite append_cons. simpl. exact IH.
Qed.

Lemma sub_from_skip re repl k : forall s,
  k <= String.length s ->
  sub_from re repl k s = sub_from re repl 0 (drop k s).
Proof.
  induction k as [|k IH]; intros s Hk.
  - destruct s; reflexivity.
  - destruct s as [|c t]; simpl in Hk; [lia|].
    simpl. apply IH. lia.
Qed.

(** At a match that is not empty, [re.sub] puts the replacement and
    goes on after the match. *)
Lemma sub_at_match re repl s g r :
  match_here re s = Some (g, r) ->
  span s r <> "" ->
  sub re repl s = repl +:+ sub re repl r.
Proof.
  intros H Hne. destruct (match_here_suffix _ _ _ _ H) as [p Hp].
  subst s. rewrite span_append in Hne.
  destruct p as [|c p]; [congruence|].
  rewrite append_cons in *. unfold sub.
  change (sub_from re repl 0 (String c (p +:+ r)))
    with (match match_here re (String c (p +:+ r)) with
          | Some (_, r') =>
              match String.length (String c (p +:+ r)) - String.length r' with
              | O => repl +:+ String c (sub_from re repl 0 (p +:+ r))
              | S k => repl +:+ sub_from re repl k (p +:+ r)
              end
          | None => String c (sub_from re repl 0 (p +:+ r))
          end).
  rewrite H. simpl String.length. rewrite length_append.
  replace (S (String.length p + String.length r) - String.length r)
    with (S (String.length p)) by lia.
  rewrite sub_from_skip by (rewrite length_append; lia).
  rewrite drop_append. reflexivity.
Qed.

Lemma sub_no_match_here re repl c t :
  match_here re (String c t) = None ->
  sub re repl (String c t) = String c (sub re repl t).
Proof. intros H. unfold sub. simpl. rewrite H. reflexivity. Qed.

Lemma search_no_match_here re c t :
  match_here re (String c t) = None ->
  search re (String c t) = search re t.
Proof. intros H. simpl. rewrite H. reflexivity. Qed.

Lemma match_span re s g r :
  match_here re s = Some (g, r) -> s = span s r +:+ r.
Proof.
  intros H. destruct (match_here_suffix _ _ _ _ H) as [p ->].
  rewrite span_append. reflexivity.
Qed.

Lemma prefix_split p : forall s,
  String.prefix p s = true -> exists t, s = p +:+ t.
Proof.
  induction p as [|c p IH]; intros s H.
  - exists s. reflexivity.
  - destruct s as [|d s]; [discriminate|]. simpl in H.
    destruct (ascii_dec c d) as [->|]; [|discriminate].
    destruct (IH _ H) as [t ->]. exists t. reflexivity.
Qed.

(** The lazy [.*?] stops at the first place where the rest matches. *)
Lemma match_here_lazy_first re : forall s m,
  match_here (AnyLazy :: re) s = Some m ->
  exists a t,
    s = a +:+ t /\ match_here re t = Some m
    /\ forall a1 a2, a = a1 +:+ a2 -> a2 <> "" ->
         match_here re (a2 +:+ t) = None.
Proof.
  induction s as [|c s IH]; intros m H; simpl in H.
  - destruct (match_here re "") eqn:E; [|discriminate].
    exists "", "". repeat split; [congruence|].
    intros [|x a1] [|y a2] Ha Hne; try discriminate; congruence.
  - destruct (match_here re (String c s)) eqn:E.
    + exists "", (String c s). repeat split; [congruence|].
      intros [|x a1] [|y a2] Ha Hne; try discriminate; congruence.
    + destruct (IH _ H) as (a & t & -> & Ht & Hfirst).
      exists (String c a), t. repeat split; [exact Ht|].
      intros [|x a1] a2 Ha Hne.
      * change ("" +:+ a2) with a2 in Ha. subst a2. exact E.
      * rewrite append_cons in Ha. injection Ha as _ Ha.
        apply (Hfirst a1 a2 Ha Hne).
Qed.

Lemma no_closing_tag_inside inside rest :
  (forall a1 a2, inside = a1 +:+ a2 -> a2 <> "" ->
     match_here (lits "</gateway-list>") (a2 +:+ rest) = None) ->
  contains "</gateway-list>" inside = false.
Proof.
  induction inside as [|c i IH]; intros H; [reflexivity|].
  change (contains "</gateway-list>" (String c i))
    with (String.prefix "</gateway-list>" (String c i)
          || contains "</gateway-list>" i).
  apply orb_false_iff. split.
  - destruct (String.prefix "</gateway-list>" (String c i)) eqn:E;
      [|reflexivity].
    apply prefix_split in E. destruct E as [t Et].
    specialize (H "" (String c i) eq_refl ltac:(discriminate)).
    rewrite Et, append_assoc in H.
    rewrite <- (app_nil_r (lits "</gateway-list>")) in H.
    rewrite match_here_lits_here in H. discriminate H.
  - apply IH. intros a1 a2 Ha Hne.
    apply (H (String c a1) a2); [rewrite Ha; reflexivity | exact Hne].
Qed.

(** The block that the pattern finds runs from [<gateway-list] to the
    first closing tag after it. *)
Lemma gateway_list_match_first s g r :
  match_here gateway_list_pattern s = Some (g, r) ->
  exists inside,
    s = "<gateway-list" +:+ inside +:+ "</gateway-list>" +:+ r
    /\ contains "</gateway-list>" inside = false.
Proof.
  unfold gateway_list_pattern. intros H.
  apply match_here_lits in H. destruct H as (t1 & -> & H).
  apply match_here_lazy_first in H.
  destruct H as (inside & t2 & -> & H & Hfirst).
  assert (Hin : contains "</gateway-list>" inside = false)
    by (apply (no_closing_tag_inside inside t2); exact Hfirst).
  rewrite <- (app_nil_r (lits "</gateway-list>")) in H.
  apply match_here_lits in H. destruct H as (t3 & -> & H).
  simpl in H. injection H as _ <-.
  exists inside. split; [reflexivity | exact Hin].
Qed.

Lemma search_gateway_block : forall s m,
  search gateway_list_pattern s = Some m ->
  exists inside,
    group0 m = "<gateway-list" +:+ inside +:+ "</gateway-list>"
    /\ contains "</gateway-list>" inside = false.
Proof.
  intros s m H. apply search_some in H.
  destruct H as (s' & g & r & Hm & ->). cbn [group0].
  destruct (gateway_list_match_first _ _ _ Hm) as (inside & -> & Hin).
  exists inside. split; [|exact Hin].
  rewrite <- (append_assoc "<gateway-list" inside),
    <- (append_assoc ("<gateway-list" +:+ inside) "</gateway-list>").
  apply span_append.
Qed.

(** X9.  The block that the extraction hands to the XML parser is the
    first [<gateway-list] of the content up to the first closing tag
    [</gateway-list>] after it, and it is the text that the remover
    replaces first: the remover writes the text before that block
    unchanged, then the placeholder, then the cleaned rest. *)
Theorem extracted_block_is_replaced now input_file output_file create_backup
  (w : world msg) content m :
  files w !! input_file = Some content ->
  search gateway_list_pattern content = Some m ->
  exists before inside after,
    group0 m = "<gateway-list" +:+ inside +:+ "</gateway-list>"
    /\ contains "</gateway-list>" inside = false
    /\ content = before +:+ group0 m +:+ after
    /\ ~ has_block before
    /\ files (snd (remove_gateway_list_from_log now input_file output_file
                     create_backup w))
         !! default input_file output_file
       = Some (before +:+ placeholder +:+ cleaned after).
Proof.
  intros H Hs.
  destruct (search_gateway_block _ _ Hs) as (inside & Hg & Hin).
  assert (Hne : group0 m <> "") by (rewrite Hg; discriminate).
  assert (Hfirst : exists before after,
            content = before +:+ group0 m +:+ after
            /\ cleaned content = before +:+ placeholder +:+ cleaned after
            /\ search gateway_list_pattern before = None).
  { clear H. revert m Hs Hne Hg. clear Hin.
    induction content as [|c t IH]; intros m Hs Hne Hg.
    - simpl in Hs. discriminate.
    - change (search gateway_list_pattern (String c t))
        with (match match_here gateway_list_pattern (String c t) with
              | Some (g, r) =>
                  Some (mkMatch (span (String c t) r) (span g r))
              | None => search gateway_list_pattern t
              end) in Hs.
      destruct (match_here gateway_list_pattern (String c t))
        as [[g r]|] eqn:E.
      + injection Hs as <-. cbn [group0] in *.
        exists "", r. repeat split.
        * exact (match_span _ _ _ _ E).
        * apply (sub_at_match _ _ _ _ _ E Hne).
      + destruct (IH _ Hs Hne Hg) as (before & after & Ht & Hsub & Hb).
        exists (String c before), after. repeat split.
        * rewrite append_cons. f_equal. exact Ht.
        * unfold cleaned in *.
          rewrite (sub_no_match_here _ _ _ _ E), Hsub. reflexivity.
        * destruct (match_here gateway_list_pattern (String c before))
            as [[g' r']|] eqn:E';
            [|rewrite (search_no_match_here _ _ _ E'); exact Hb].
          exfalso. apply gateway_list_match in E'.
          destruct E' as (i' & Hi').
          assert (Hsome : is_Some (match_here gateway_list_pattern
                                     (String c t))).
          { rewrite Ht, <- append_cons, Hi'.
            unfold gateway_list_pattern.
            rewrite !append_assoc, match_here_lits_here.
            apply match_here_lazy_later.
            rewrite <- (app_nil_r (lits "</gateway-list>")),
              match_here_lits_here.
            simpl. eauto. }
          rewrite E in Hsome. destruct Hsome as [? Hsome]. discriminate. }
  destruct Hfirst as (before & after & Hc & Hcl & Hb).
  exists before, inside, after. repeat split; auto.
  - intros Hblock. apply search_gateway_list_complete in Hblock.
    rewrite Hb in Hblock. destruct Hblock as [? Hblock]. discriminate.
  - rewrite (remove_output _ _ _ _ _ _ H), Hcl. reflexivity.
Qed.

Lemma extracted_block_is_replaced_witness :
  exists before inside after,
    group0 (mkMatch "<gateway-list><entry><gateway>gw1</gateway></entry></gateway-list>" "")
    = "<gateway-list" +:+ inside +:+ "</gateway-list>"
    /\ contains "</gateway-list>" inside = false
    /\ listed_log
       = before
         +:+ group0 (mkMatch "<gateway-list><entry><gateway>gw1</gateway></entry></gateway-list>" "")
         +:+ after
    /\ ~ has_block before
    /\ files (snd (remove_gateway_list_from_log "20250927_120000" "gp.log"
                     None false listed_world))
         !! default "gp.log" None
       = Some (before +:+ placeholder +:+ cleaned after).
Proof.
  apply (extracted_block_is_replaced "20250927_120000" "gp.log" None false
           listed_world listed_log);
    vm_compute; reflexivity.
Defined.

(** *** The extraction never raises and never writes *)

Lemma parse_log_file_cases (fromstring : string -> option Element)
  file_path (w : world msg) :
  exists recs messages,
    parse_log_file fromstring file_path w
    = (Ok recs, mkWorld (files w) (console w ++ messages))
    /\ (recs = []
        \/ exists content m root parsed,
             files w !! file_path = Some content
             /\ search gateway_list_pattern content = Some m
             /\ fromstring (group0 m) = Some root
             /\ mapM gateway_info (findall root "entry") = Ok parsed
             /\ recs = sorted key_lt parsed).
Proof.
  destruct (files w !! file_path) as [content|] eqn:H.
  2:{ exists [], [FileNotFound file_path]. split; [|left; reflexivity].
      unfold parse_log_file. run_io. rewrite H. reflexivity. }
  destruct (search gateway_list_pattern content) as [m|] eqn:Hs.
  2:{ exists [], [NoGatewayListFound]. split; [|left; reflexivity].
      unfold parse_log_file. run_io. rewrite H, Hs. reflexivity. }
  destruct (fromstring (group0 m)) as [root|] eqn:Hf.
  2:{ exists [], [XmlParsingError]. split; [|left; reflexivity].
      unfold parse_log_file, _parse_gateway_xml. run_io.
      rewrite H, Hs, Hf. reflexivity. }
  rewrite (parse_log_file_run _ _ _ _ _ _ H Hs Hf).
  destruct (mapM gateway_info (findall root "entry")) as [parsed|e] eqn:Hm.
  - exists (sorted key_lt parsed), []. rewrite app_nil_r.
    split; [destruct w; reflexivity|].
    right. exists content, m, root, parsed. auto.
  - eexists [], _. split; [reflexivity | left; reflexivity].
Qed.

(** X10.  Whatever the file holds, [parse_log_file] returns a list
    without raising, leaves every file as it was and only adds to the
    console; the list it returns is in ascending order of (priority,
    description), and sorting it again by that key changes nothing. *)
Theorem extraction_reads_only (fromstring : string -> option Element)
  file_path (w : world msg) :
  exists recs messages,
    parse_log_file fromstring file_path w
    = (Ok recs, mkWorld (files w) (console w ++ messages))
    /\ StronglySorted key_le recs
    /\ sorted key_lt recs = recs.
Proof.
  destruct (parse_log_file_cases fromstring file_path w)
    as (recs & messages & Hrun & Hrecs).
  exists recs, messages. split; [exact Hrun|].
  destruct Hrecs as [-> | (content & m & root & parsed & _ & _ & _ & _ & ->)].
  - split; [constructor | reflexivity].
  - split; [apply sorted_by_key|].
    apply sorted_id. apply sorted_sorted;
      [exact key_lt_asym | exact key_le_trans].
Qed.

(** X11.  When the XML parser rejects the block, the extraction prints
    the XML error and returns no record: nothing of the block is
    recovered. *)
Theorem malformed_block_yields_nothing (fromstring : string -> option Element)
  file_path (w : world msg) content m :
  files w !! file_path = Some content ->
  search gateway_list_pattern content = Some m ->
  fromstring (group0 m) = None ->
  parse_log_file fromstring file_path w
  = (Ok [], mkWorld (files w) (console w ++ [XmlParsingError])).
Proof.
  intros H Hs Hf. unfold parse_log_file, _parse_gateway_xml. run_io.
  rewrite H, Hs, Hf. reflexivity.
Qed.

Lemma malformed_block_yields_nothing_witness :
  parse_log_file MiniET.fromstring "gp.log" broken_world
  = (Ok [], mkWorld (files broken_world) [XmlParsingError]).
Proof.
  apply (malformed_block_yields_nothing MiniET.fromstring "gp.log"
           broken_world broken_log (mkMatch broken_log ""));
    vm_compute; reflexivity.
Defined.

(** *** The sort is stable *)

Lemma has_key_not_lt p d x y :
  has_key p d x = true -> has_key p d y = true -> key_lt y x = false.
Proof.
  unfold has_key. intros Hx Hy.
  apply andb_true_iff in Hx, Hy. destruct Hx as [Hx1 Hx2], Hy as [Hy1 Hy2].
  apply Z.eqb_eq in Hx1, Hy1. apply String.eqb_eq in Hx2, Hy2.
  rewrite key_lt_lex, Hx1, Hx2, Hy1, Hy2. apply lex_lt_irrefl.
Qed.

Lemma insert_has_key p d x l :
  List.filter (has_key p d) (insert key_lt x l)
  = if has_key p d x
    then x :: List.filter (has_key p d) l
    else List.filter (has_key p d) l.
Proof.
  induction l as [|y l IH]; simpl; [reflexivity|].
  destruct (key_lt y x) eqn:E.
  - simpl. rewrite IH.
    destruct (has_key p d x) eqn:Hx, (has_key p d y) eqn:Hy; try reflexivity.
    rewrite (has_key_not_lt _ _ _ _ Hx Hy) in E. discriminate.
  - simpl. destruct (has_key p d x); reflexivity.
Qed.

Lemma sorted_has_key p d l :
  List.filter (has_key p d) (sorted key_lt l) = List.filter (has_key p d) l.
Proof.
  induction l as [|x l IH]; simpl; [reflexivity|].
  rewrite insert_has_key, IH. reflexivity.
Qed.

(** X12.  The sort of the extraction is stable: the records that share a
    priority and a description come out in the order of their entries in
    the document. *)
Theorem extraction_keeps_document_order (fromstring : string -> option Element)
  file_path (w : world msg) content m root parsed p d :
  files w !! file_path = Some content ->
  search gateway_list_pattern content = Some m ->
  fromstring (group0 m) = Some root ->
  mapM gateway_info (findall root "entry") = Ok parsed ->
  exists out,
    fst (parse_log_file fromstring file_path w) = Ok out
    /\ List.filter (has_key p d) out = List.filter (has_key p d) parsed.
Proof.
  intros H Hs Hf Hm. exists (sorted key_lt parsed).
  rewrite (parse_log_file_run _ _ _ _ _ _ H Hs Hf), Hm.
  split; [reflexivity | apply sorted_has_key].
Qed.

Lemma extraction_keeps_document_order_witness :
  exists out,
    fst (parse_log_file MiniET.fromstring "gp.log" twin_world) = Ok out
    /\ List.filter (has_key 1 "X") out
       = List.filter (has_key 1 "X") twin_records.
Proof.
  eapply (extraction_keeps_document_order MiniET.fromstring "gp.log"
            twin_world twin_log (mkMatch twin_log ""));
    vm_compute; reflexivity.
Defined.

(** *** The time range of a log *)

Lemma last_none {A : Type} (l : list A) : last l = None -> l = [].
Proof.
  induction l as [|x l IH]; [reflexivity|]. intros E. exfalso.
  destruct l as [|y l]; [discriminate E|].
  change (last (x :: y :: l)) with (last (y :: l)) in E.
  discriminate (IH E).
Qed.

Lemma range_fold lines : forall first_time last_time,
  fold_left range_step lines (first_time, last_time)
  = (match first_time with
     | Some t => Some t
     | None => head (timestamps lines)
     end,
     match last (timestamps lines) with
     | Some t => Some t
     | None => last_time
     end).
Proof.
  induction lines as [|line lines IH]; intros first_time last_time.
  - destruct first_time; reflexivity.
  - cbn [fold_left timestamps]. unfold range_step at 2.
    destruct (parse_log_timestamp line) as [t|]; [|apply IH].
    rewrite IH. f_equal.
    + destruct first_time; reflexivity.
    + destruct (timestamps lines) as [|t' ts]; [reflexivity|].
      change (last (t :: t' :: ts)) with (last (t' :: ts)).
      destruct (last (t' :: ts)) eqn:E; [reflexivity|].
      apply last_none in E. discriminate E.
Qed.

Lemma get_log_time_range_run input_file (v : world event) content :
  files v !! input_file = Some content ->
  get_log_time_range input_file v
  = (Ok (head (timestamps (readlines content)),
         last (timestamps (readlines content))), v).
Proof.
  intros H. unfold get_log_time_range. run_io. rewrite H. simpl.
  rewrite range_fold.
  destruct (last (timestamps (readlines content))); reflexivity.
Qed.

(** X13.  [get_log_time_range] returns the timestamp of the first line
    that carries one and the timestamp of the last line that carries one
    (not the earliest and the latest time); both are [None] when no line
    carries a timestamp, and never only one of them.  It changes neither
    the files nor the console. *)
Theorem time_range_first_last input_file (v : world event) content :
  files v !! input_file = Some content ->
  let ts := timestamps (readlines content) in
  get_log_time_range input_file v = (Ok (head ts, last ts), v)
  /\ (head ts = None <-> ts = [])
  /\ (last ts = None <-> ts = []).
Proof.
  intros H ts. split; [|split].
  - apply get_log_time_range_run. exact H.
  - clearbody ts. destruct ts; simpl; split; congruence.
  - clearbody ts. split; [apply last_none | intros ->; reflexivity].
Qed.

Lemma time_range_first_last_witness :
  let ts := timestamps (readlines sample_log) in
  get_log_time_range "gp.log" (mkWorld (files sample_world) [])
  = (Ok (head ts, last ts), mkWorld (files sample_world) [])
  /\ (head ts = None <-> ts = [])
  /\ (last ts = None <-> ts = []).
Proof.
  apply (time_range_first_last "gp.log" (mkWorld (files sample_world) [])
           sample_log).
  reflexivity.
Defined.

Lemma filter_all_in {A : Type} (p : A -> bool) l :
  (forall x, In x l -> p x = true) -> List.filter p l = l.
Proof.
  induction l as [|x l IH]; intros H; simpl; [reflexivity|].
  rewrite (H x (or_introl eq_refl)), IH; [reflexivity|].
  intros y Hy. apply H. right. exact Hy.
Qed.

Lemma dt_le_refl t : dt_le t t = true.
Proof. unfold dt_le, dt_lt. rewrite lex_lt_irrefl. reflexivity. Qed.

Lemma timestamps_in lines line t :
  In line lines -> parse_log_timestamp line = Some t ->
  In t (timestamps lines).
Proof.
  induction lines as [|l lines IH]; intros Hin Hp; [destruct Hin|].
  simpl. destruct Hin as [->|Hin].
  - rewrite Hp. left. reflexivity.
  - destruct (parse_log_timestamp l); [right|]; apply IH; assumption.
Qed.

Lemma sorted_head_le ts t0 t :
  StronglySorted (fun a b => dt_le a b = true) ts ->
  head ts = Some t0 -> In t ts -> dt_le t0 t = true.
Proof.
  intros Hs Hh Hin. destruct ts as [|x ts]; [discriminate|].
  injection Hh as ->. destruct Hin as [<-|Hin]; [apply dt_le_refl|].
  inversion Hs as [|? ? _ Hall]; subst.
  rewrite List.Forall_forall in Hall. apply Hall. exact Hin.
Qed.

Lemma sorted_le_last ts t1 t :
  StronglySorted (fun a b => dt_le a b = true) ts ->
  last ts = Some t1 -> In t ts -> dt_le t t1 = true.
Proof.
  induction 1 as [|x ts Hs IH Hall]; intros Hl Hin; [destruct Hin|].
  destruct ts as [|y ts].
  - injection Hl as <-. destruct Hin as [<-|[]]. apply dt_le_refl.
  - change (last (x :: y :: ts)) with (last (y :: ts)) in Hl.
    destruct Hin as [<-|Hin]; [|apply IH; assumption].
    rewrite List.Forall_forall in Hall. apply Hall.
    clear - Hl. revert y Hl.
    induction ts as [|z ts IHts]; intros y Hl.
    + injection Hl as <-. left. reflexivity.
    + right. apply IHts. exact Hl.
Qed.

(** X14.  On a log whose timestamps never go back, filtering by the
    range that [get_log_time_range] returns keeps every line: the filter
    writes the content it read. *)
Theorem filter_by_own_range now input_file output_file create_backup
  (w : world msg) (v : world event) content first_time last_time :
  files w !! input_file = Some content ->
  files v = files w ->
  fst (get_log_time_range input_file v) = Ok (first_time, last_time) ->
  StronglySorted (fun a b => dt_le a b = true)
                 (timestamps (readlines content)) ->
  files (snd (filter_logs_by_time now input_file first_time last_time
                output_file create_backup w))
    !! default input_file output_file
  = Some content.
Proof.
  intros H Hv Hrange Hs.
  assert (Hv' : files v !! input_file = Some content) by (rewrite Hv; exact H).
  rewrite (get_log_time_range_run _ _ _ Hv') in Hrange.
  injection Hrange as <- <-.
  rewrite (filter_output _ _ _ _ _ _ _ _ H).
  rewrite filter_all_in; [rewrite joinlines_readlines; reflexivity|].
  intros line Hin. unfold retained, in_window.
  destruct (parse_log_timestamp line) as [t|] eqn:Hp; [|reflexivity].
  pose proof (timestamps_in _ _ _ Hin Hp) as Ht.
  apply andb_true_iff. split.
  - destruct (head (timestamps (readlines content))) as [t0|] eqn:Eh;
      [|reflexivity].
    eapply sorted_head_le; eassumption.
  - destruct (last (timestamps (readlines content))) as [t1|] eqn:El;
      [|reflexivity].
    eapply sorted_le_last; eassumption.
Qed.

Lemma filter_by_own_range_witness :
  files (snd (filter_logs_by_time "20250927_120000" "gp.log"
                (Some (mkdatetime 2025 9 24 8 51 52 0))
                (Some (mkdatetime 2025 9 26 10 0 0 0))
                None false sample_world))
    !! default "gp.log" None
  = Some sample_log.
Proof.
  apply (filter_by_own_range "20250927_120000" "gp.log" None false
           sample_world (mkWorld (files sample_world) []) sample_log).
  - reflexivity.
  - reflexivity.
  - vm_compute. reflexivity.
  - vm_compute. repeat constructor.
Defined.

(** *** The gateway filters *)

Lemma filter_gateways_accepts (str_lower : string -> string) gateways f :
  filter_gateways str_lower gateways f
  = List.filter (accepts str_lower f) gateways.
Proof.
  unfold filter_gateways, accepts.
  destruct (authenticated_only f), (manual_only f), (min_priority f) as [m|],
    (region f) as [[|c r]|];
    rewrite ?filter_and;
    first [ symmetry; apply filter_all; intros g; reflexivity
          | apply filter_ext; intros g; cbv beta;
            rewrite ?andb_true_r, ?andb_true_l, ?andb_assoc; reflexivity ].
Qed.

Lemma filter_sorted {A : Type} (R : A -> A -> Prop) (p : A -> bool) l :
  StronglySorted R l -> StronglySorted R (List.filter p l).
Proof.
  induction 1 as [|x l Hs IH Hx]; simpl; [constructor|].
  destruct (p x); [|exact IH]. constructor; [exact IH|].
  rewrite List.Forall_forall in *. intros y Hy.
  apply filter_In in Hy. apply Hx. apply Hy.
Qed.

(** X15.  [filter_gateways] returns, in their given order, the gateways
    that meet every criterion that is switched on: authenticated is
    [yes], manual is [yes], the priority is at least the minimum, the
    lower-cased description contains the lower-cased region.  A list in
    the order of the extraction stays in that order, and with every
    criterion off (an empty region counts as off) the list is returned
    whole. *)
Theorem filter_gateways_selects (str_lower : string -> string) gateways f :
  filter_gateways str_lower gateways f
  = List.filter (accepts str_lower f) gateways
  /\ (StronglySorted key_le gateways ->
      StronglySorted key_le (filter_gateways str_lower gateways f))
  /\ filter_gateways str_lower gateways (mkFilters false false None None)
     = gateways
  /\ filter_gateways str_lower gateways (mkFilters false false None (Some ""))
     = gateways.
Proof.
  split; [apply filter_gateways_accepts|]. split; [|split].
  - intros Hs. rewrite filter_gateways_accepts. apply filter_sorted. exact Hs.
  - reflexivity.
  - reflexivity.
Qed.

(** X16.  Filtering is idempotent, and two sets of criteria can be
    applied in either order: the result is the same list. *)
Theorem filter_gateways_compose (str_lower : string -> string) gateways f1 f2 :
  filter_gateways str_lower (filter_gateways str_lower gateways f1) f1
  = filter_gateways str_lower gateways f1
  /\ filter_gateways str_lower (filter_gateways str_lower gateways f1) f2
     = filter_gateways str_lower (filter_gateways str_lower gateways f2) f1.
Proof.
  rewrite !filter_gateways_accepts. split.
  - apply filter_twice.
  - rewrite !filter_and. apply filter_ext. intros g. apply andb_comm.
Qed.

Lemma filter_gateways_selects_witness :
  let f := mkFilters true false (Some 5%Z) (Some "ES") in
  filter_gateways ascii_lower [west; east] f
  = List.filter (accepts ascii_lower f) [west; east]
  /\ StronglySorted key_le (filter_gateways ascii_lower [west; east] f)
  /\ filter_gateways ascii_lower [west; east]
       (mkFilters false false None None) = [west; east]
  /\ filter_gateways ascii_lower [west; east]
       (mkFilters false false None (Some "")) = [west; east].
Proof.
  intros f.
  destruct (filter_gateways_selects ascii_lower [west; east] f)
    as (H1 & H2 & H3 & H4).
  split; [exact H1|]. split; [|split; [exact H3 | exact H4]].
  apply H2. repeat constructor.
Defined.

(** *** The summary *)

Lemma print_all_run ms (v : world event) :
  print_all ms v = (Ok tt, mkWorld (files v) (console v ++ ms)).
Proof.
  revert v. induction ms as [|m ms IH]; intros v.
  - simpl. rewrite app_nil_r. destruct v; reflexivity.
  - simpl. run_io. rewrite IH. simpl. rewrite <- app_assoc. reflexivity.
Qed.

Lemma print_summary_run g gs (v : world event) :
  let gateways := g :: gs in
  print_summary gateways v
  = (Ok tt,
     mkWorld (files v)
       (console v
        ++ [GatewaySummary; TotalGateways (length gateways);
            AuthenticatedGateways (count_yes authenticated gateways);
            ManualGateways (count_yes manual gateways);
            PriorityDistribution (sorted item_lt (priority_counts gateways));
            TopGateways]
        ++ top_lines (firstn 10 (by_priority_desc gateways)))).
Proof.
  intros gateways. unfold print_summary. subst gateways.
  cbv beta iota zeta delta [mbind io_bind print].
  cbn [files console]. rewrite print_all_run. cbn [files console].
  rewrite <- !app_assoc. reflexivity.
Qed.

Lemma bump_same p d : count_for p (bump p d) = S (count_for p d).
Proof.
  induction d as [|[q c] d IH]; simpl; [rewrite Z.eqb_refl; reflexivity|].
  destruct (q =? p)%Z eqn:E; simpl; rewrite E; [reflexivity | exact IH].
Qed.

Lemma bump_other p q d : q <> p -> count_for q (bump p d) = count_for q d.
Proof.
  intros Hne. induction d as [|[k c] d IH]; simpl.
  - destruct (p =? q)%Z eqn:E; [apply Z.eqb_eq in E; congruence | reflexivity].
  - destruct (k =? p)%Z eqn:E; simpl.
    + apply Z.eqb_eq in E. subst k.
      destruct (p =? q)%Z eqn:E'; [apply Z.eqb_eq in E'; congruence|].
      reflexivity.
    + destruct (k =? q)%Z; [reflexivity | exact IH].
Qed.

Lemma bump_total p d :
  list_sum (map snd (bump p d)) = S (list_sum (map snd d)).
Proof.
  induction d as [|[q c] d IH]; simpl; [reflexivity|].
  destruct (q =? p)%Z; simpl; [reflexivity | rewrite IH; lia].
Qed.

Lemma bump_keys p d q :
  In q (map fst (bump p d)) <-> q = p \/ In q (map fst d).
Proof.
  induction d as [|[k c] d IH]; simpl; [intuition|].
  destruct (k =? p)%Z eqn:E; simpl.
  - apply Z.eqb_eq in E. subst k. intuition.
  - rewrite IH. intuition.
Qed.

Lemma bump_nodup p d : List.NoDup (map fst d) -> List.NoDup (map fst (bump p d)).
Proof.
  induction d as [|[k c] d IH]; simpl; intros H.
  - constructor; [intros [] | constructor].
  - inversion H as [|? ? Hk Hd]; subst.
    destruct (k =? p)%Z eqn:E; simpl.
    + constructor; assumption.
    + constructor; [|apply IH; exact Hd].
      rewrite bump_keys. intros [->|Hin]; [|contradiction].
      rewrite Z.eqb_refl in E. discriminate.
Qed.

Lemma bump_positive p d :
  (forall x, In x d -> 1 <= snd x) -> forall x, In x (bump p d) -> 1 <= snd x.
Proof.
  induction d as [|[k c] d IH]; simpl; intros H x Hx.
  - destruct Hx as [<-|[]]. simpl. lia.
  - destruct (k =? p)%Z.
    + destruct Hx as [<-|Hx]; [simpl; lia | apply H; right; exact Hx].
    + destruct Hx as [<-|Hx]; [apply (H (k, c)); left; reflexivity|].
      apply IH; [|exact Hx]. intros y Hy. apply H. right. exact Hy.
Qed.

Lemma with_priority_cons p g l :
  with_priority p (g :: l)
  = (if (priority g =? p)%Z then 1 else 0) + with_priority p l.
Proof.
  unfold with_priority. simpl. destruct (priority g =? p)%Z; reflexivity.
Qed.

Lemma counts_fold l : forall d,
  let d' := fold_left (fun d g => bump (priority g) d) l d in
  (forall q, count_for q d' = count_for q d + with_priority q l)
  /\ list_sum (map snd d') = list_sum (map snd d) + length l
  /\ (List.NoDup (map fst d) -> List.NoDup (map fst d'))
  /\ ((forall x, In x d -> 1 <= snd x) -> forall x, In x d' -> 1 <= snd x).
Proof.
  induction l as [|g l IH]; intros d; cbn [fold_left].
  - repeat split; auto; try intros q; unfold with_priority; simpl; lia.
  - destruct (IH (bump (priority g) d)) as (Hc & Hs & Hn & Hp).
    repeat split.
    + intros q. rewrite Hc, with_priority_cons.
      destruct (priority g =? q)%Z eqn:E.
      * apply Z.eqb_eq in E. subst q. rewrite bump_same. lia.
      * rewrite bump_other; [lia|]. intros ->.
        rewrite Z.eqb_refl in E. discriminate.
    + rewrite Hs, bump_total. simpl. lia.
    + intros Hd. apply Hn, bump_nodup, Hd.
    + intros Hd. apply Hp, bump_positive, Hd.
Qed.

Lemma count_for_in p c d :
  List.NoDup (map fst d) -> In (p, c) d -> count_for p d = c.
Proof.
  induction d as [|[k n] d IH]; simpl; intros Hn Hin; [destruct Hin|].
  inversion Hn as [|? ? Hk Hd]; subst.
  destruct Hin as [[= -> ->]|Hin].
  - rewrite Z.eqb_refl. reflexivity.
  - destruct (k =? p)%Z eqn:E; [|apply IH; assumption].
    apply Z.eqb_eq in E. subst k. destruct Hk.
    apply (in_map fst) in Hin. exact Hin.
Qed.

Lemma in_count_for p d :
  1 <= count_for p d -> In (p, count_for p d) d.
Proof.
  induction d as [|[k n] d IH]; simpl; intros H; [lia|].
  destruct (k =? p)%Z eqn:E.
  - apply Z.eqb_eq in E. subst k. left. reflexivity.
  - right. apply IH. exact H.
Qed.

Lemma list_sum_perm l l' : Permutation l l' -> list_sum l = list_sum l'.
Proof. induction 1; simpl; lia. Qed.

Lemma item_lt_lex x y :
  item_lt x y
  = lex_lt [fst x; Z.of_nat (snd x)] [fst y; Z.of_nat (snd y)].
Proof.
  unfold item_lt. simpl. rewrite !andb_false_r, !orb_false_r. reflexivity.
Qed.

Lemma item_sorted d :
  Permutation d (sorted item_lt d)
  /\ StronglySorted (fun x y => (fst x <= fst y)%Z) (sorted item_lt d).
Proof.
  split; [apply sorted_perm|].
  apply (StronglySorted_weaken (le item_lt)).
  - intros x y. unfold le, item_lt. intros H.
    apply orb_false_iff in H. destruct H as [H _].
    apply Z.ltb_ge in H. exact H.
  - apply sorted_sorted.
    + intros x y. rewrite !item_lt_lex. apply lex_lt_asym.
    + intros x y z. unfold le. rewrite !item_lt_lex. intros Hxy Hyz.
      destruct (lex_lt [fst z; Z.of_nat (snd z)] [fst x; Z.of_nat (snd x)])
        eqn:E; [|reflexivity].
      destruct (lex_lt_between _ [fst y; Z.of_nat (snd y)] _ E); congruence.
Qed.

Lemma strictly_ascending (items : list (Z * nat)) :
  List.NoDup (map fst items) ->
  StronglySorted (fun x y => (fst x <= fst y)%Z) items ->
  StronglySorted (fun x y => (fst x < fst y)%Z) items.
Proof.
  induction items as [|x items IH]; intros Hn Hs; [constructor|].
  inversion Hn as [|? ? Hx Hd]; subst.
  inversion Hs as [|? ? Hs' Hall]; subst.
  constructor; [apply IH; assumption|].
  rewrite List.Forall_forall in *. intros y Hy.
  specialize (Hall y Hy).
  assert (fst x <> fst y).
  { intros E. apply Hx. rewrite E. apply in_map. exact Hy. }
  lia.
Qed.

(** X17.  For a list that is not empty, [print_summary] prints the total
    and the numbers of authenticated and of manual gateways, none above
    the total, and a priority distribution that lists each priority that
    occurs once, in ascending order, with the number of gateways that
    have it; these numbers add up to the total.  For an empty list it
    prints only that no gateway was found. *)
Theorem summary_counts g gs (v : world event) :
  let gateways := g :: gs in
  let items := sorted item_lt (priority_counts gateways) in
  print_summary [] v
  = (Ok tt, mkWorld (files v) (console v ++ [NoGatewaysFound]))
  /\ print_summary gateways v
     = (Ok tt,
        mkWorld (files v)
          (console v
           ++ [GatewaySummary; TotalGateways (length gateways);
               AuthenticatedGateways (count_yes authenticated gateways);
               ManualGateways (count_yes manual gateways);
               PriorityDistribution items; TopGateways]
           ++ top_lines (firstn 10 (by_priority_desc gateways))))
  /\ count_yes authenticated gateways <= length gateways
  /\ count_yes manual gateways <= length gateways
  /\ (forall p c, In (p, c) items <->
                  c = with_priority p gateways /\ 1 <= c)
  /\ StronglySorted (fun x y => (fst x < fst y)%Z) items
  /\ list_sum (map snd items) = length gateways.
Proof.
  intros gateways items.
  destruct (counts_fold gateways []) as (Hc & Hs & Hn & Hp).
  fold (priority_counts gateways) in Hc, Hs, Hn, Hp.
  specialize (Hn (List.NoDup_nil _)). specialize (Hp (fun x (H : In x []) => match H with end)).
  destruct (item_sorted (priority_counts gateways)) as [Hperm Hsorted].
  fold items in Hperm, Hsorted.
  split; [reflexivity|]. split; [apply print_summary_run|].
  split; [apply filter_length_le|]. split; [apply filter_length_le|].
  split; [|split].
  - intros p c. split.
    + intros Hin. apply (Permutation_in _ (Permutation_sym Hperm)) in Hin.
      pose proof (count_for_in _ _ _ Hn Hin) as E.
      rewrite Hc in E. simpl in E. split; [lia|].
      apply (Hp _ Hin).
    + intros [-> Hpos]. apply (Permutation_in _ Hperm).
      specialize (Hc p). simpl in Hc. rewrite <- Hc.
      apply in_count_for. lia.
  - apply strictly_ascending; [|exact Hsorted].
    eapply Permutation_NoDup; [|exact Hn].
    apply Permutation_map. exact Hperm.
  - rewrite <- (list_sum_perm _ _ (Permutation_map snd Hperm)), Hs.
    reflexivity.
Qed.

Lemma sorted_stable {A : Type} (lt : A -> A -> bool) (c : A -> bool) :
  (forall x y, c x = true -> c y = true -> lt y x = false) ->
  forall l, List.filter c (sorted lt l) = List.filter c l.
Proof.
  intros Hc. induction l as [|x l IH]; simpl; [reflexivity|].
  rewrite <- IH. generalize (sorted lt l) as s. clear IH.
  induction s as [|y s IHs]; simpl; [reflexivity|].
  destruct (lt y x) eqn:E; simpl; [|reflexivity].
  rewrite IHs.
  destruct (c x) eqn:Hx, (c y) eqn:Hy; try reflexivity.
  rewrite (Hc _ _ Hx Hy) in E. discriminate.
Qed.

Lemma sorted_app_inv {A : Type} (R : A -> A -> Prop) l1 l2 :
  StronglySorted R (l1 ++ l2) ->
  StronglySorted R l1 /\ forall x y, In x l1 -> In y l2 -> R x y.
Proof.
  induction l1 as [|a l1 IH]; simpl; intros H.
  - split; [constructor | intros x y []].
  - inversion H as [|? ? Hs Hall]; subst.
    destruct (IH Hs) as [Hs1 Hcross].
    rewrite List.Forall_forall in Hall. split.
    + constructor; [exact Hs1|]. rewrite List.Forall_forall.
      intros y Hy. apply Hall. apply in_or_app. left. exact Hy.
    + intros x y [<-|Hx] Hy; [|apply Hcross; assumption].
      apply Hall. apply in_or_app. right. exact Hy.
Qed.

Lemma by_priority_desc_sorted gateways :
  StronglySorted (fun x y => (priority y <= priority x)%Z)
                 (by_priority_desc gateways).
Proof.
  unfold by_priority_desc.
  apply (StronglySorted_weaken
           (le (fun x y : GatewayRecord => (priority y <? priority x)%Z))).
  - intros x y. unfold le. intros H. apply Z.ltb_ge in H. exact H.
  - apply sorted_sorted.
    + intros x y H. apply Z.ltb_lt in H. apply Z.ltb_ge. lia.
    + intros x y z. unfold le. intros Hxy Hyz.
      apply Z.ltb_ge in Hxy, Hyz. apply Z.ltb_ge. lia.
Qed.

Lemma top_lines_numbers top :
  map (fun e => match e with
                | TopGateway i _ _ _ => i
                | _ => 0
                end) (top_lines top)
  = seq 1 (length top).
Proof.
  unfold top_lines. generalize 1 as i.
  induction top as [|g top IH]; intros i; simpl; [reflexivity|].
  rewrite IH. reflexivity.
Qed.

(** X18.  The top list of [print_summary] holds the ten gateways of
    highest priority (all of them when there are fewer), by descending
    priority: no gateway left out has a higher priority than one that is
    listed, gateways of equal priority stand in the order of the list
    given, and the lines are numbered from 1. *)
Theorem summary_top_ten g gs (v : world event) :
  let gateways := g :: gs in
  let ranked := by_priority_desc gateways in
  let top := firstn 10 ranked in
  let rest := skipn 10 ranked in
  (exists before,
     console (snd (print_summary gateways v)) = before ++ top_lines top)
  /\ length top = Nat.min 10 (length gateways)
  /\ Permutation gateways (top ++ rest)
  /\ StronglySorted (fun x y => (priority y <= priority x)%Z) top
  /\ (forall x y, In x top -> In y rest -> (priority y <= priority x)%Z)
  /\ (forall p,
        List.filter (fun x => (priority x =? p)%Z) ranked
        = List.filter (fun x => (priority x =? p)%Z) gateways)
  /\ map (fun e => match e with
                   | TopGateway i _ _ _ => i
                   | _ => 0
                   end) (top_lines top)
     = seq 1 (length top).
Proof.
  intros gateways ranked top rest.
  assert (Hperm : Permutation gateways ranked) by apply sorted_perm.
  pose proof (by_priority_desc_sorted gateways) as Hs. fold ranked in Hs.
  assert (Hsplit : ranked = top ++ rest)
    by (symmetry; apply firstn_skipn).
  rewrite Hsplit in Hs. apply sorted_app_inv in Hs. destruct Hs as [Hs Hcross].
  split; [|split; [|split; [|split; [|split; [|split]]]]].
  - pose proof (print_summary_run g gs v) as Hrun. cbv zeta in Hrun.
    change (print_summary gateways v) with (print_summary (g :: gs) v).
    rewrite Hrun. cbn [snd console].
    eexists. rewrite app_assoc. reflexivity.
  - subst top. rewrite length_firstn.
    rewrite <- (Permutation_length Hperm). reflexivity.
  - rewrite <- Hsplit. exact Hperm.
  - exact Hs.
  - exact Hcross.
  - intros p. apply sorted_stable. intros x y Hx Hy.
    apply Z.eqb_eq in Hx, Hy. apply Z.ltb_ge. lia.
  - apply top_lines_numbers.
Qed.

(** *** The exports *)

(** X19.  With no gateway to export, [export_to_csv] prints a notice and
    writes no file, whereas [export_to_text] and [export_to_json] write
    their file all the same.  Whatever the list, an export changes no
    path but its output file. *)
Theorem exports_write_output_only (csv_row : list string -> string)
  (json_dump : list GatewayRecord -> string) gateways output_file
  (v : world event) :
  export_to_csv csv_row [] output_file v
  = (Ok tt, mkWorld (files v) (console v ++ [NoGatewaysToExport]))
  /\ export_to_text [] output_file v
     = (Ok tt, mkWorld (<[output_file := text_header]> (files v))
                 (console v ++ [Exported 0 output_file]))
  /\ export_to_json json_dump [] output_file v
     = (Ok tt, mkWorld (<[output_file := json_dump []]> (files v))
                 (console v ++ [Exported 0 output_file]))
  /\ forall v',
       v' = snd (export_to_csv csv_row gateways output_file v)
       \/ v' = snd (export_to_text gateways output_file v)
       \/ v' = snd (export_to_json json_dump gateways output_file v) ->
       forall p, p <> output_file -> files v' !! p = files v !! p.
Proof.
  split; [reflexivity|]. split; [|split; [reflexivity|]].
  - unfold export_to_text. run_io. rewrite append_nil_r. reflexivity.
  - intros v' [-> | [-> | ->]] p Hp.
    + unfold export_to_csv. destruct gateways; [reflexivity|].
      run_io. apply lookup_insert_ne. congruence.
    + unfold export_to_text. run_io. apply lookup_insert_ne. congruence.
    + unfold export_to_json. run_io. apply lookup_insert_ne. congruence.
Qed.

(** *** [main] *)

Lemma bind_next {A B : Type} (m : proc A) (k : A -> proc B) v a v' :
  m v = (Next a, v') -> (m ≫= k) v = k a v'.
Proof. intros H. unfold mbind, proc_bind. rewrite H. reflexivity. Qed.

Lemma bind_return {A B : Type} (m : proc A) (k : A -> proc B) v v' :
  m v = (Return, v') -> (m ≫= k) v = (Return, v').
Proof. intros H. unfold mbind, proc_bind. rewrite H. reflexivity. Qed.

Lemma bind_uncaught {A B : Type} (m : proc A) (k : A -> proc B) v f v' :
  m v = (Uncaught f, v') -> (m ≫= k) v = (Uncaught f, v').
Proof. intros H. unfold mbind, proc_bind. rewrite H. reflexivity. Qed.

Lemma say_run e (v : world event) :
  say e v = (Next tt, mkWorld (files v) (console v ++ [e])).
Proof. reflexivity. Qed.

Lemma run_core_result {A : Type} (m : io msg A) (v : world event) a F msgs :
  m (mkWorld (files v) []) = (Ok a, mkWorld F msgs) ->
  run (core m) v = (Next a, mkWorld F (console v ++ map Core msgs)).
Proof. intros H. unfold run, core. rewrite H. reflexivity. Qed.

Lemma remove_missing now input_file output_file create_backup (w : world msg) :
  files w !! input_file = None ->
  remove_gateway_list_from_log now input_file output_file create_backup w
  = (Ok false,
     mkWorld (files w) (console w ++ [ErrorRemoving FileNotFoundError])).
Proof.
  intros H. unfold remove_gateway_list_from_log. run_io. rewrite H.
  reflexivity.
Qed.

Lemma filter_missing now input_file start_time end_time output_file
  create_backup (w : world msg) :
  files w !! input_file = None ->
  filter_logs_by_time now input_file start_time end_time output_file
    create_backup w
  = (Ok false,
     mkWorld (files w) (console w ++ [ErrorFiltering FileNotFoundError])).
Proof.
  intros H. unfold filter_logs_by_time. run_io. rewrite H. reflexivity.
Qed.

Lemma parse_missing (fromstring : string -> option Element) file_path
  (w : world msg) :
  files w !! file_path = None ->
  parse_log_file fromstring file_path w
  = (Ok [], mkWorld (files w) (console w ++ [FileNotFound file_path])).
Proof.
  intros H. unfold parse_log_file. run_io. rewrite H. reflexivity.
Qed.

Section MainFacts.
Variable fromstring : string -> option Element.
Variable str_lower : string -> string.
Variable csv_row : list string -> string.
Variable json_dump : list GatewayRecord -> string.
Variable interactive_mode : io event unit.
Variable ago : time_unit -> Z -> option datetime.
Variable now_remove now_filter : string.

Abbreviation main :=
  (main fromstring str_lower csv_row json_dump interactive_mode ago
     now_remove now_filter).
Abbreviation remove_phase := (remove_phase now_remove).
Abbreviation filter_phase := (filter_phase str_lower ago now_filter).
Abbreviation extract_phase := (extract_phase fromstring str_lower csv_row json_dump).
Abbreviation time_bounds := (time_bounds str_lower ago).

Lemma remove_phase_off a cf v :
  arg_remove_gateways a = false -> remove_phase a cf v = (Next cf, v).
Proof. intros H. unfold GatewayParserRest.remove_phase. rewrite H. reflexivity. Qed.

Lemma remove_phase_missing a cf (v : world event) :
  arg_remove_gateways a = true ->
  files v !! cf = None ->
  remove_phase a cf v
  = (Return,
     mkWorld (files v)
       (console v ++ [RemovingFrom cf; Core (ErrorRemoving FileNotFoundError)])).
Proof.
  intros H Hf. unfold GatewayParserRest.remove_phase. rewrite H.
  unfold mbind at 1, proc_bind. rewrite say_run.
  unfold mbind, proc_bind.
  erewrite run_core_result
    by (apply remove_missing; exact Hf).
  cbn. rewrite <- app_assoc. reflexivity.
Qed.

Lemma remove_phase_on a cf (v : world event) content :
  arg_remove_gateways a = true ->
  files v !! cf = Some content ->
  exists msgs,
    remove_phase a cf v
    = ((if String.eqb content "" then Return
        else Next (after_removal a cf)),
       mkWorld
         (<[default cf (arg_cleaned_log a) := cleaned content]>
            (with_backup (negb (arg_no_backup a)) now_remove cf content
               (files v)))
         (console v ++ RemovingFrom cf :: msgs)).
Proof.
  intros H Hf. unfold GatewayParserRest.remove_phase, after_removal.
  rewrite H. unfold mbind at 1, proc_bind. rewrite say_run.
  unfold mbind, proc_bind.
  pose proof (remove_run now_remove cf (arg_cleaned_log a)
                (negb (arg_no_backup a)) (mkWorld (files v) []) content Hf)
    as Hrun.
  cbv zeta in Hrun. destruct Hrun as [Hres Hfiles].
  remember (remove_gateway_list_from_log now_remove cf (arg_cleaned_log a)
              (negb (arg_no_backup a)) (mkWorld (files v) [])) as r eqn:Hr.
  destruct r as [res [F c]]. cbn in Hres, Hfiles. subst res F.
  erewrite run_core_result by (symmetry; exact Hr).
  exists (map Core c). cbn [console files]. rewrite <- app_assoc.
  destruct (String.eqb content ""); reflexivity.
Qed.

Lemma parse_bound_run given invalid (v : world event) :
  parse_bound given invalid v
  = if truthy given
    then match parse_time_input (default "" given) with
         | Some t => (Next (Some t), v)
         | None => (Return,
                    mkWorld (files v)
                      (console v ++ [invalid (default "" given)]))
         end
    else (Next None, v).
Proof.
  unfold parse_bound. destruct (truthy given); [|reflexivity].
  destruct (parse_time_input (default "" given)); reflexivity.
Qed.

Lemma parse_bound_files given invalid (v : world event) :
  files (snd (parse_bound given invalid v)) = files v.
Proof.
  rewrite parse_bound_run. destruct (truthy given); [|reflexivity].
  destruct (parse_time_input (default "" given)); reflexivity.
Qed.

Lemma resolve_recent_files given (v : world event) :
  files (snd (resolve_recent str_lower ago given v)) = files v.
Proof.
  unfold resolve_recent.
  assert (Hsince : forall u,
            files (snd (match int (chop (str_lower given)) with
                        | Ok n =>
                            match ago u n with
                            | Some t => mret (Some t)
                            | None => fun v => (Uncaught OverflowError, v)
                            end
                        | Raise _ => say (InvalidRecent given) ;; return_
                        end v)) = files v).
  { intros u. destruct (int (chop (str_lower given))) as [n|]; [|reflexivity].
    destruct (ago u n); reflexivity. }
  destruct (ends_with "h" (str_lower given)); [apply Hsince|].
  destruct (ends_with "d" (str_lower given)); [apply Hsince|].
  destruct (ends_with "m" (str_lower given)); [apply Hsince|].
  reflexivity.
Qed.

Lemma bind_files {A B : Type} (m : proc A) (k : A -> proc B)
  (v : world event) :
  files (snd (m v)) = files v ->
  (forall a v', files (snd (k a v')) = files v') ->
  files (snd ((m ≫= k) v)) = files v.
Proof.
  intros Hm Hk. unfold mbind, proc_bind.
  destruct (m v) as [[a| |f] v']; cbn in *; [rewrite Hk|..]; exact Hm.
Qed.

Lemma time_bounds_files a (v : world event) :
  files (snd (time_bounds a v)) = files v.
Proof.
  unfold GatewayParserRest.time_bounds.
  apply bind_files; [apply parse_bound_files|]. intros s v1.
  apply bind_files; [apply parse_bound_files|]. intros e v2.
  apply bind_files; [|reflexivity].
  destruct (truthy (arg_recent a)); [apply resolve_recent_files|reflexivity].
Qed.

Lemma filter_phase_off a cf v :
  time_filtering a = false -> filter_phase a cf v = (Next cf, v).
Proof.
  unfold time_filtering, GatewayParserRest.filter_phase. intros ->.
  reflexivity.
Qed.

Lemma filter_phase_return a cf (v v1 : world event) :
  time_filtering a = true ->
  time_bounds a v = (Return, v1) ->
  filter_phase a cf v = (Return, v1).
Proof.
  unfold time_filtering, GatewayParserRest.filter_phase. intros -> H.
  apply bind_return. exact H.
Qed.

Lemma filter_phase_missing a cf (v : world event) :
  time_filtering a = true ->
  files v !! cf = None ->
  files (snd (filter_phase a cf v)) = files v
  /\ forall x, fst (filter_phase a cf v) <> Next x.
Proof.
  unfold time_filtering, GatewayParserRest.filter_phase. intros -> Hf.
  pose proof (time_bounds_files a v) as Hb.
  destruct (time_bounds a v) as [[[s e]| |f] v1] eqn:Hb0; cbn [snd] in Hb.
  - rewrite (bind_next _ _ _ _ _ Hb0). cbv beta iota.
    rewrite (bind_next _ _ _ _ _ (say_run _ _)).
    assert (Hf1 : files (mkWorld (files v1) ([] : list msg)) !! cf = None)
      by (cbn [files]; rewrite Hb; exact Hf).
    rewrite (bind_next _ _ _ _ _
               (run_core_result _
                  (mkWorld (files v1) (console v1 ++ [FilteringFrom cf]))
                  _ _ _
                  (filter_missing now_filter cf s e (arg_filtered_log a)
                     (negb (arg_no_backup a)) (mkWorld (files v1) []) Hf1))).
    cbn. split; [exact Hb|intros x; discriminate].
  - rewrite (bind_return _ _ _ _ Hb0). cbn.
    split; [exact Hb|intros x; discriminate].
  - rewrite (bind_uncaught _ _ _ _ _ Hb0). cbn.
    split; [exact Hb|intros x; discriminate].
Qed.

Lemma filter_phase_on a cf (v v1 : world event) s e content :
  time_filtering a = true ->
  time_bounds a v = (Next (s, e), v1) ->
  files v !! cf = Some content ->
  exists msgs,
    filter_phase a cf v
    = ((if String.eqb content "" then Return
        else if truthy (arg_output a)
             then Next (if truthy (arg_filtered_log a)
                        then default "" (arg_filtered_log a)
                        else cf)
             else Return),
       mkWorld
         (<[default cf (arg_filtered_log a) :=
              joinlines (List.filter (retained s e) (readlines content))]>
            (with_backup (negb (arg_no_backup a)) now_filter cf content
               (files v)))
         (console v1 ++ FilteringFrom cf :: msgs)).
Proof.
  unfold time_filtering, GatewayParserRest.filter_phase. intros -> Hb Hf.
  pose proof (time_bounds_files a v) as Hfs. rewrite Hb in Hfs.
  cbn [snd] in Hfs.
  rewrite (bind_next _ _ _ _ _ Hb).
  unfold mbind at 1, proc_bind. rewrite say_run.
  unfold mbind, proc_bind.
  assert (Hf1 : files (mkWorld (files v1) ([] : list msg)) !! cf
                = Some content)
    by (cbn [files]; rewrite Hfs; exact Hf).
  pose proof (filter_run now_filter cf s e (arg_filtered_log a)
                (negb (arg_no_backup a)) (mkWorld (files v1) []) content Hf1)
    as Hrun.
  cbv zeta in Hrun. destruct Hrun as [Hres Hfiles].
  remember (filter_logs_by_time now_filter cf s e (arg_filtered_log a)
              (negb (arg_no_backup a)) (mkWorld (files v1) [])) as r eqn:Hr.
  destruct r as [res [F c]]. cbn in Hres, Hfiles. subst res F.
  erewrite run_core_result by (symmetry; exact Hr).
  exists (map Core c). cbn [console files]. rewrite <- app_assoc.
  rewrite Hfs.
  destruct (String.eqb content ""); [reflexivity|].
  cbn. destruct (truthy (arg_output a)); reflexivity.
Qed.

Lemma print_summary_files gateways (v : world event) :
  fst (print_summary gateways v) = Ok tt
  /\ files (snd (print_summary gateways v)) = files v.
Proof.
  destruct gateways as [|g gs]; [split; reflexivity|].
  pose proof (print_summary_run g gs v) as H. cbv zeta in H.
  rewrite H. split; reflexivity.
Qed.

Lemma export_run fmt gateways output_file (v : world event) :
  let export :=
    match fmt with
    | Csv => export_to_csv csv_row gateways output_file
    | Json => export_to_json json_dump gateways output_file
    | Txt => export_to_text gateways output_file
    end in
  fst (run export v) = Next tt
  /\ files (snd (run export v))
     = match export_text csv_row json_dump fmt gateways with
       | Some text => <[output_file := text]> (files v)
       | None => files v
       end.
Proof.
  destruct fmt; cbn zeta.
  - destruct gateways; split; reflexivity.
  - split; reflexivity.
  - split; reflexivity.
Qed.

Lemma extract_phase_none a cf (v : world event) messages :
  parse_log_file fromstring cf (mkWorld (files v) [])
  = (Ok [], mkWorld (files v) messages) ->
  extract_phase a cf v
  = (Return,
     mkWorld (files v) (console v ++ ParsingLogFile cf :: map Core messages)).
Proof.
  intros H. unfold GatewayParserRest.extract_phase.
  rewrite (bind_next _ _ _ _ _ (say_run _ _)).
  rewrite (bind_next _ _ _ _ _
             (run_core_result _
                (mkWorld (files v) (console v ++ [ParsingLogFile cf]))
                _ _ _ H)).
  cbn [console]. rewrite <- app_assoc. reflexivity.
Qed.

Lemma extract_phase_records a cf (v : world event) g gs messages :
  parse_log_file fromstring cf (mkWorld (files v) [])
  = (Ok (g :: gs), mkWorld (files v) messages) ->
  let selected := filter_gateways str_lower (g :: gs) (filters_of a) in
  fst (extract_phase a cf v) = Next tt
  /\ files (snd (extract_phase a cf v))
     = if truthy (arg_output a)
       then match export_text csv_row json_dump (arg_format a) selected with
            | Some text => <[default "" (arg_output a) := text]> (files v)
            | None => files v
            end
       else files v.
Proof.
  intros H selected. unfold GatewayParserRest.extract_phase.
  rewrite (bind_next _ _ _ _ _ (say_run _ _)).
  rewrite (bind_next _ _ _ _ _
             (run_core_result _
                (mkWorld (files v) (console v ++ [ParsingLogFile cf]))
                _ _ _ H)).
  cbv zeta. fold (filters_of a). fold selected.
  set (v1 := mkWorld (files v)
               ((console v ++ [ParsingLogFile cf]) ++ map Core messages)).
  assert (Hsum : exists v2,
            (if arg_summary a then run (print_summary selected) else mret tt)
              v1 = (Next tt, v2) /\ files v2 = files v).
  { destruct (arg_summary a).
    - destruct (print_summary_files selected v1) as [Hr Hfs].
      unfold run. destruct (print_summary selected v1) as [r v2].
      cbn in Hr, Hfs. subst r. exists v2. split; [reflexivity|exact Hfs].
    - exists v1. split; reflexivity. }
  destruct Hsum as (v2 & Hsum & Hfs).
  rewrite (bind_next _ _ _ _ _ Hsum).
  destruct (truthy (arg_output a)).
  - pose proof (export_run (arg_format a) selected
                  (default "" (arg_output a)) v2) as He.
    cbv zeta in He. rewrite Hfs in He.
    destruct (arg_format a); exact He.
  - rewrite (bind_next _ _ _ _ _ (say_run _ _)).
    unfold run. rewrite print_all_run. cbn. split; [reflexivity|exact Hfs].
Qed.

Lemma extract_phase_leaves a cf (v : world event) p :
  (truthy (arg_output a) = true -> p <> default "" (arg_output a)) ->
  files (snd (extract_phase a cf v)) !! p = files v !! p.
Proof.
  intros Hp.
  destruct (parse_log_file_cases fromstring cf (mkWorld (files v) []))
    as (recs & messages & Hrun & _).
  cbn [files console app] in Hrun.
  destruct recs as [|g gs].
  - rewrite (extract_phase_none a cf v messages Hrun). reflexivity.
  - destruct (extract_phase_records a cf v g gs messages Hrun) as [_ ->].
    destruct (truthy (arg_output a)); [|reflexivity].
    destruct (export_text csv_row json_dump (arg_format a) _); [|reflexivity].
    apply lookup_insert_ne. intros E. apply Hp; [reflexivity|].
    symmetry. exact E.
Qed.

Lemma bind_unfold {A B : Type} (m : proc A) (k : A -> proc B) v :
  (m ≫= k) v
  = match m v with
    | (Next a, v') => k a v'
    | (Return, v') => (Return, v')
    | (Uncaught f, v') => (Uncaught f, v')
    end.
Proof. reflexivity. Qed.

Lemma resolve_recent_run given (v : world event) :
  resolve_recent str_lower ago given v
  = match unit_of (str_lower given) with
    | None =>
        (Return,
         mkWorld (files v) (console v ++ [InvalidRecentFormat given]))
    | Some u =>
        match int (chop (str_lower given)) with
        | Raise _ =>
            (Return, mkWorld (files v) (console v ++ [InvalidRecent given]))
        | Ok n =>
            match ago u n with
            | Some t => (Next (Some t), v)
            | None => (Uncaught OverflowError, v)
            end
        end
    end.
Proof.
  unfold resolve_recent, unit_of.
  destruct (ends_with "h" (str_lower given));
    [|destruct (ends_with "d" (str_lower given));
      [|destruct (ends_with "m" (str_lower given)); [|reflexivity]]];
    (destruct (int (chop (str_lower given))) as [n|x]; [|reflexivity]);
    destruct (ago _ n); reflexivity.
Qed.

Lemma time_bounds_run a (v : world event) :
  time_bounds a v
  = match bound (arg_start_time a) with
    | None =>
        (Return,
         mkWorld (files v)
           (console v ++ [InvalidStartTime (default "" (arg_start_time a))]))
    | Some s0 =>
        match bound (arg_end_time a) with
        | None =>
            (Return,
             mkWorld (files v)
               (console v ++ [InvalidEndTime (default "" (arg_end_time a))]))
        | Some e =>
            if truthy (arg_recent a)
            then
              let given := default "" (arg_recent a) in
              match unit_of (str_lower given) with
              | None =>
                  (Return,
                   mkWorld (files v)
                     (console v ++ [InvalidRecentFormat given]))
              | Some u =>
                  match int (chop (str_lower given)) with
                  | Raise _ =>
                      (Return,
                       mkWorld (files v) (console v ++ [InvalidRecent given]))
                  | Ok n =>
                      match ago u n with
                      | Some t => (Next (Some t, e), v)
                      | None => (Uncaught OverflowError, v)
                      end
                  end
              end
            else (Next (s0, e), v)
        end
    end.
Proof.
  unfold GatewayParserRest.time_bounds, bound.
  rewrite bind_unfold, parse_bound_run.
  destruct (truthy (arg_start_time a));
    [destruct (parse_time_input (default "" (arg_start_time a)));
     [|reflexivity]|];
    (rewrite bind_unfold, parse_bound_run;
     destruct (truthy (arg_end_time a));
       [destruct (parse_time_input (default "" (arg_end_time a)));
        [|reflexivity]|]);
    (rewrite bind_unfold;
     destruct (truthy (arg_recent a)); [|reflexivity];
     rewrite resolve_recent_run; cbv zeta;
     destruct (unit_of _); [|reflexivity];
     destruct (int _) as [n|x]; [|reflexivity];
     destruct (ago _ n); reflexivity).
Qed.

Lemma time_bounds_complaint a (v : world event) e :
  complaint str_lower a = Some e ->
  time_bounds a v = (Return, mkWorld (files v) (console v ++ [e])).
Proof.
  unfold complaint. rewrite time_bounds_run.
  destruct (bound (arg_start_time a)); [|intros [= <-]; reflexivity].
  destruct (bound (arg_end_time a)); [|intros [= <-]; reflexivity].
  destruct (truthy (arg_recent a)); [|discriminate]. cbv zeta.
  destruct (unit_of _); [|intros [= <-]; reflexivity].
  destruct (int _); [discriminate|intros [= <-]; reflexivity].
Qed.

Lemma complaint_filtering a e :
  complaint str_lower a = Some e -> time_filtering a = true.
Proof.
  unfold complaint, bound, time_filtering.
  destruct (truthy (arg_start_time a)); [rewrite orb_true_r; reflexivity|].
  destruct (truthy (arg_end_time a));
    [rewrite orb_true_r; reflexivity|].
  destruct (truthy (arg_recent a)); [rewrite orb_true_r; reflexivity|].
  discriminate.
Qed.

Lemma truthy_some f : f <> "" -> truthy (Some f) = true.
Proof. destruct f; [congruence|reflexivity]. Qed.

Lemma truthy_default f (o : option string) :
  o <> Some "" -> (if truthy o then default "" o else f) = default f o.
Proof. destruct o as [[|c t]|]; [congruence|reflexivity..]. Qed.

Lemma after_removal_on a f :
  arg_remove_gateways a = true ->
  arg_cleaned_log a <> Some "" ->
  after_removal a f = default f (arg_cleaned_log a).
Proof.
  intros H Hc. unfold after_removal. rewrite H. cbn [andb].
  apply truthy_default. exact Hc.
Qed.

Lemma after_removal_off a f :
  arg_remove_gateways a = false -> after_removal a f = f.
Proof. intros H. unfold after_removal. rewrite H. reflexivity. Qed.

Lemma main_run a f (v : world event) :
  arg_input_file a = Some f -> f <> "" -> arg_interactive a = false ->
  main a v
  = (remove_phase a f ≫= fun current_file =>
       filter_phase a current_file ≫= extract_phase a) v.
Proof.
  intros Hi Hf Hn. unfold GatewayParserRest.main.
  rewrite Hi, Hn, (truthy_some f Hf). reflexivity.
Qed.

Lemma parse_without_block cf (w : world msg) content :
  files w !! cf = Some content ->
  search gateway_list_pattern content = None ->
  parse_log_file fromstring cf w
  = (Ok [], mkWorld (files w) (console w ++ [NoGatewayListFound])).
Proof.
  intros H Hs. unfold parse_log_file. run_io. rewrite H, Hs. reflexivity.
Qed.

Lemma filter_phase_uncaught a cf (v v1 : world event) f :
  time_filtering a = true ->
  time_bounds a v = (Uncaught f, v1) ->
  filter_phase a cf v = (Uncaught f, v1).
Proof.
  unfold time_filtering, GatewayParserRest.filter_phase. intros -> H.
  apply (bind_uncaught _ _ _ _ _ H).
Qed.

Lemma bind_stop {A B : Type} (m : proc A) (k : A -> proc B) v :
  (forall x, fst (m v) <> Next x) ->
  snd ((m ≫= k) v) = snd (m v)
  /\ forall y, fst ((m ≫= k) v) <> Next y.
Proof.
  intros H. rewrite bind_unfold.
  destruct (m v) as [[x| |f] v']; cbn in *;
    [exfalso; apply (H x); reflexivity
    |split; [reflexivity|intros y; discriminate]..].
Qed.

Lemma tail_leaves a cf (v : world event) p :
  (time_filtering a = true -> p <> default cf (arg_filtered_log a)) ->
  (time_filtering a = true -> arg_no_backup a = false ->
   p <> backup_of now_filter cf) ->
  (truthy (arg_output a) = true -> p <> default "" (arg_output a)) ->
  files (snd ((filter_phase a cf ≫= extract_phase a) v)) !! p
  = files v !! p.
Proof.
  intros Ho Hb Hx. destruct (time_filtering a) eqn:Ht.
  2:{ rewrite bind_unfold, (filter_phase_off a cf v Ht).
      apply extract_phase_leaves. exact Hx. }
  destruct (files v !! cf) as [content|] eqn:Hf.
  2:{ destruct (filter_phase_missing a cf v Ht Hf) as [Hfs Hn].
      destruct (bind_stop _ (extract_phase a) v Hn) as [-> _].
      rewrite Hfs. reflexivity. }
  pose proof (time_bounds_files a v) as Hbs.
  destruct (time_bounds a v) as [[[s e]| |fl] v1] eqn:Htb; cbn [snd] in Hbs.
  - destruct (filter_phase_on a cf v v1 s e content Ht Htb Hf)
      as [msgs Hrun].
    rewrite bind_unfold, Hrun.
    assert (Hfiles :
      (<[default cf (arg_filtered_log a) :=
           joinlines (List.filter (retained s e) (readlines content))]>
         (with_backup (negb (arg_no_backup a)) now_filter cf content
            (files v))) !! p = files v !! p).
    { rewrite lookup_insert_ne
        by (intros E; apply (Ho eq_refl); symmetry; exact E).
      destruct (arg_no_backup a) eqn:Hnb; [reflexivity|].
      apply with_backup_other. apply Hb; reflexivity. }
    destruct (String.eqb content ""); [exact Hfiles|].
    destruct (truthy (arg_output a)); [|exact Hfiles].
    rewrite extract_phase_leaves by (intros _; apply Hx; reflexivity).
    exact Hfiles.
  - rewrite bind_unfold, (filter_phase_return a cf v v1 Ht Htb).
    cbn [snd]. rewrite Hbs. reflexivity.
  - rewrite bind_unfold, (filter_phase_uncaught a cf v v1 fl Ht Htb).
    cbn [snd]. rewrite Hbs. reflexivity.
Qed.

(** X20.  A run of [main] on an input file writes no path but those that
    its arguments name: the cleaned log and the filtered log (the file
    they are made from when no other path is given), the backups of the
    two, made unless [--no-backup] is given, and the export.  Every other
    file is after the run what it was before. *)
Theorem main_writes_only a f (v : world event) p :
  arg_input_file a = Some f -> f <> "" -> arg_interactive a = false ->
  arg_cleaned_log a <> Some "" -> arg_filtered_log a <> Some "" ->
  ~ In p (written now_remove now_filter a f) ->
  files (snd (main a v)) !! p = files v !! p.
Proof.
  intros Hi Hf Hn Hc Hfl Hp. rewrite (main_run a f v Hi Hf Hn).
  unfold written in Hp. rewrite !in_app_iff in Hp.
  assert (Htail : forall cf (v1 : world event),
            cf = after_removal a f ->
            files (snd ((filter_phase a cf ≫= extract_phase a) v1)) !! p
            = files v1 !! p).
  { intros cf v1 ->. apply tail_leaves.
    - intros Ht E. apply Hp. right. left. rewrite Ht. left.
      symmetry. exact E.
    - intros Ht Hnb E. apply Hp. right. left. rewrite Ht, Hnb.
      right. left. symmetry. exact E.
    - intros Ht E. apply Hp. right. right. rewrite Ht. left.
      symmetry. exact E. }
  destruct (arg_remove_gateways a) eqn:Hr.
  2:{ rewrite bind_unfold, (remove_phase_off a f v Hr).
      apply Htail. symmetry. apply after_removal_off. exact Hr. }
  destruct (files v !! f) as [content|] eqn:Hfile.
  2:{ rewrite bind_unfold, (remove_phase_missing a f v Hr Hfile).
      reflexivity. }
  destruct (remove_phase_on a f v content Hr Hfile) as [msgs Hrun].
  rewrite bind_unfold, Hrun.
  assert (Hfiles :
    (<[default f (arg_cleaned_log a) := cleaned content]>
       (with_backup (negb (arg_no_backup a)) now_remove f content
          (files v))) !! p = files v !! p).
  { rewrite lookup_insert_ne
      by (intros E; apply Hp; left; left; exact E).
    destruct (arg_no_backup a) eqn:Hnb; [reflexivity|].
    apply with_backup_other. intros E. apply Hp. left. right. left.
    symmetry. exact E. }
  destruct (String.eqb content ""); [exact Hfiles|].
  rewrite Htail by reflexivity. exact Hfiles.
Qed.

(** X21.  On an input file that does not exist, a run of [main] changes
    no file at all and does not reach its end: it stops at the first step
    that opens the file, whatever the other arguments are. *)
Theorem main_missing_input a f (v : world event) :
  arg_input_file a = Some f -> f <> "" -> arg_interactive a = false ->
  files v !! f = None ->
  files (snd (main a v)) = files v
  /\ fst (main a v) <> Next tt.
Proof.
  intros Hi Hf Hn Hfile. rewrite (main_run a f v Hi Hf Hn).
  destruct (arg_remove_gateways a) eqn:Hr.
  { rewrite bind_unfold, (remove_phase_missing a f v Hr Hfile).
    split; [reflexivity|discriminate]. }
  rewrite bind_unfold, (remove_phase_off a f v Hr).
  destruct (time_filtering a) eqn:Ht.
  - destruct (filter_phase_missing a f v Ht Hfile) as [Hfs Hstop].
    destruct (bind_stop _ (extract_phase a) v Hstop) as [Hs Hno].
    rewrite Hs. split; [exact Hfs|apply Hno].
  - rewrite bind_unfold, (filter_phase_off a f v Ht).
    rewrite (extract_phase_none a f v [FileNotFound f]
               (parse_missing fromstring f (mkWorld (files v) []) Hfile)).
    split; [reflexivity|discriminate].
Qed.

(** X22.  When [--remove-gateways] is given without a time filter, the
    extraction of the same run reads the file that the removal has just
    written, finds no gateway list in it and stops: the run exports
    nothing, whatever [-o] says, and leaves the cleaned log and the
    backup as the removal made them. *)
Theorem removed_list_is_not_extracted a f (v : world event) content :
  arg_input_file a = Some f -> f <> "" -> arg_interactive a = false ->
  arg_remove_gateways a = true ->
  arg_cleaned_log a <> Some "" ->
  time_filtering a = false ->
  files v !! f = Some content ->
  content <> "" ->
  ~ has_block (cleaned content) ->
  exists messages,
    main a v
    = (Return,
       mkWorld
         (<[default f (arg_cleaned_log a) := cleaned content]>
            (with_backup (negb (arg_no_backup a)) now_remove f content
               (files v)))
         (console v ++ messages ++ [Core NoGatewayListFound])).
Proof.
  intros Hi Hf Hn Hr Hc Ht Hfile Hne Hnb.
  rewrite (main_run a f v Hi Hf Hn).
  destruct (remove_phase_on a f v content Hr Hfile) as [msgs Hrun].
  rewrite bind_unfold, Hrun.
  assert (Hcontent : String.eqb content "" = false)
    by (apply String.eqb_neq; exact Hne).
  rewrite Hcontent, (after_removal_on a f Hr Hc).
  rewrite bind_unfold, (filter_phase_off a _ _ Ht).
  erewrite extract_phase_none.
  2:{ apply parse_without_block with (content := cleaned content).
      - cbn [files]. apply lookup_insert_eq.
      - apply no_block_search. exact Hnb. }
  cbn [files console app map].
  exists (RemovingFrom f :: msgs
          ++ [ParsingLogFile (default f (arg_cleaned_log a))]).
  cbn [app]. rewrite <- !app_assoc. reflexivity.
Qed.

(** X23.  Without removal and time filter, a run of [main] on a log
    whose gateway list is read into records reaches its end, and what it
    writes is the export, in the format asked for, of the records that
    the filters of the command line accept, in the sorted order of the
    extraction; with [-f csv] and no record accepted, and without [-o],
    it writes nothing. *)
Theorem main_exports a f (v : world event) content m root parsed :
  arg_input_file a = Some f -> f <> "" -> arg_interactive a = false ->
  arg_remove_gateways a = false ->
  time_filtering a = false ->
  files v !! f = Some content ->
  search gateway_list_pattern content = Some m ->
  fromstring (group0 m) = Some root ->
  mapM gateway_info (findall root "entry") = Ok parsed ->
  parsed <> [] ->
  let selected :=
    filter_gateways str_lower (sorted key_lt parsed) (filters_of a) in
  fst (main a v) = Next tt
  /\ files (snd (main a v))
     = if truthy (arg_output a)
       then match export_text csv_row json_dump (arg_format a) selected with
            | Some text => <[default "" (arg_output a) := text]> (files v)
            | None => files v
            end
       else files v.
Proof.
  intros Hi Hf Hn Hr Ht Hfile Hs Hx Hm Hne selected.
  rewrite (main_run a f v Hi Hf Hn).
  rewrite bind_unfold, (remove_phase_off a f v Hr).
  rewrite bind_unfold, (filter_phase_off a f v Ht).
  assert (Hparse : parse_log_file fromstring f (mkWorld (files v) [])
                   = (Ok (sorted key_lt parsed), mkWorld (files v) [])).
  { rewrite (parse_log_file_run fromstring f (mkWorld (files v) [])
               content m root Hfile Hs Hx), Hm. reflexivity. }
  subst selected.
  destruct (sorted key_lt parsed) as [|g gs] eqn:Hsorted.
  { exfalso. apply Hne. apply Permutation_nil.
    rewrite <- Hsorted. symmetry. apply sorted_perm. }
  exact (extract_phase_records a f v g gs [] Hparse).
Qed.

(** X24.  A time argument that cannot be used ends the run before the
    filter and the extraction: [main] prints the one complaint (about
    [--start-time] first, then [--end-time], then [--recent]) and
    returns, and no file is read or written. *)
Theorem unusable_time_argument_stops a f (v : world event) e :
  arg_input_file a = Some f -> f <> "" -> arg_interactive a = false ->
  arg_remove_gateways a = false ->
  complaint str_lower a = Some e ->
  main a v = (Return, mkWorld (files v) (console v ++ [e])).
Proof.
  intros Hi Hf Hn Hr Hc. rewrite (main_run a f v Hi Hf Hn).
  rewrite bind_unfold, (remove_phase_off a f v Hr).
  rewrite bind_unfold.
  rewrite (filter_phase_return a f v _ (complaint_filtering a e Hc)
             (time_bounds_complaint a v e Hc)).
  reflexivity.
Qed.

Lemma removal_then_filter_run a f (v : world event) content s e :
  arg_input_file a = Some f -> f <> "" -> arg_interactive a = false ->
  arg_remove_gateways a = true ->
  arg_cleaned_log a <> Some "" ->
  time_filtering a = true ->
  truthy (arg_recent a) = false ->
  bound (arg_start_time a) = Some s ->
  bound (arg_end_time a) = Some e ->
  truthy (arg_output a) = false ->
  files v !! f = Some content ->
  content <> "" ->
  let cleaned_log := default f (arg_cleaned_log a) in
  let backups := negb (arg_no_backup a) in
  fst (main a v) = Return
  /\ files (snd (main a v))
     = <[default cleaned_log (arg_filtered_log a) :=
           joinlines (List.filter (retained s e)
                                  (readlines (cleaned content)))]>
         (with_backup backups now_filter cleaned_log (cleaned content)
            (<[cleaned_log := cleaned content]>
               (with_backup backups now_remove f content (files v)))).
Proof.
  intros Hi Hf Hn Hr Hc Ht Hrec Hs He Ho Hfile Hne cleaned_log backups.
  rewrite (main_run a f v Hi Hf Hn).
  destruct (remove_phase_on a f v content Hr Hfile) as [msgs Hrun].
  rewrite bind_unfold, Hrun.
  assert (Hcontent : String.eqb content "" = false)
    by (apply String.eqb_neq; exact Hne).
  rewrite Hcontent, (after_removal_on a f Hr Hc). fold cleaned_log backups.
  set (v1 := mkWorld _ _).
  assert (Hb : time_bounds a v1 = (Next (s, e), v1)).
  { rewrite time_bounds_run, Hs, He, Hrec. reflexivity. }
  assert (Hf1 : files v1 !! cleaned_log = Some (cleaned content))
    by apply lookup_insert_eq.
  destruct (filter_phase_on a cleaned_log v1 v1 s e (cleaned content)
              Ht Hb Hf1) as [msgs' Hrun'].
  rewrite bind_unfold, Hrun', Ho.
  destruct (String.eqb (cleaned content) ""); split; reflexivity.
Qed.

(** X25.  With [--remove-gateways] and a window given by [--start-time]
    and [--end-time] (no [--recent], no [-o]), [main] removes first and
    filters what the removal wrote, and returns.  The filtered log holds
    the retained lines of the cleaned text.  When the filtered log is
    another file than the cleaned log, the cleaned log holds the cleaned
    text.  When backups are made, the backup of the filter holds the
    cleaned text unless its path is that of the filtered log, and the
    backup of the removal holds the original text unless its path is
    that of the filtered log, of the backup of the filter or of the
    cleaned log. *)
Theorem removal_then_filter a f (v : world event) content s e :
  arg_input_file a = Some f -> f <> "" -> arg_interactive a = false ->
  arg_remove_gateways a = true ->
  arg_cleaned_log a <> Some "" -> arg_filtered_log a <> Some "" ->
  time_filtering a = true ->
  truthy (arg_recent a) = false ->
  bound (arg_start_time a) = Some s ->
  bound (arg_end_time a) = Some e ->
  truthy (arg_output a) = false ->
  files v !! f = Some content ->
  content <> "" ->
  let cleaned_log := default f (arg_cleaned_log a) in
  let filtered_log := default cleaned_log (arg_filtered_log a) in
  let removal_backup := backup_of now_remove f in
  let filter_backup := backup_of now_filter cleaned_log in
  let after := files (snd (main a v)) in
  fst (main a v) = Return
  /\ after !! filtered_log
     = Some (joinlines (List.filter (retained s e)
                                    (readlines (cleaned content))))
  /\ (filtered_log <> cleaned_log ->
      after !! cleaned_log = Some (cleaned content))
  /\ (arg_no_backup a = false ->
      filter_backup <> filtered_log ->
      after !! filter_backup = Some (cleaned content))
  /\ (arg_no_backup a = false ->
      removal_backup <> filtered_log ->
      removal_backup <> filter_backup ->
      removal_backup <> cleaned_log ->
      after !! removal_backup = Some content).
Proof.
  intros Hi Hf Hn Hr Hc Hfl Ht Hrec Hs He Ho Hfile Hne
    cleaned_log filtered_log removal_backup filter_backup after.
  destruct (removal_then_filter_run a f v content s e Hi Hf Hn Hr Hc Ht
              Hrec Hs He Ho Hfile Hne) as [Hflow Hfiles].
  cbv zeta in Hfiles. fold cleaned_log filtered_log in Hfiles.
  subst after. rewrite Hfiles. clear Hfiles.
  split; [exact Hflow|]. split; [apply lookup_insert_eq|].
  split; [|split].
  - intros Hd. rewrite lookup_insert_ne by exact Hd.
    rewrite with_backup_other
      by (intros E; exact (backup_of_other now_filter cleaned_log
                             (eq_sym E))).
    apply lookup_insert_eq.
  - intros Hnb Hd. rewrite lookup_insert_ne by congruence.
    rewrite Hnb. unfold with_backup at 1. cbn [negb].
    apply lookup_insert_eq.
  - intros Hnb H1 H2 H3. rewrite lookup_insert_ne by congruence.
    rewrite with_backup_other by exact H2.
    rewrite lookup_insert_ne by congruence.
    rewrite Hnb. unfold with_backup. cbn [negb].
    apply lookup_insert_eq.
Qed.

(** X26.  Without [--remove-gateways], with [--recent] the window starts
    at the time of the run minus the duration given, whatever
    [--start-time] says, and ends at [--end-time]: after the run the
    filtered log holds the lines that this window retains, unless [-o]
    names the same path, and without [-o] the run returns after the
    filter, having written the filtered log and its backup only.  A
    duration that the clock cannot go back by is an [OverflowError] that
    nothing catches: the run ends with it, no file changed and nothing
    printed. *)
Theorem recent_window a f (v : world event) content r u n s0 e :
  arg_input_file a = Some f -> f <> "" -> arg_interactive a = false ->
  arg_remove_gateways a = false ->
  arg_filtered_log a <> Some "" ->
  arg_recent a = Some r -> r <> "" ->
  unit_of (str_lower r) = Some u ->
  int (chop (str_lower r)) = Ok n ->
  bound (arg_start_time a) = Some s0 ->
  bound (arg_end_time a) = Some e ->
  files v !! f = Some content ->
  let filtered_log := default f (arg_filtered_log a) in
  match ago u n with
  | Some t =>
      let kept := joinlines (List.filter (retained (Some t) e)
                                         (readlines content)) in
      ((truthy (arg_output a) = true ->
        default "" (arg_output a) <> filtered_log) ->
       files (snd (main a v)) !! filtered_log = Some kept)
      /\ (truthy (arg_output a) = false ->
          fst (main a v) = Return
          /\ files (snd (main a v))
             = <[filtered_log := kept]>
                 (with_backup (negb (arg_no_backup a)) now_filter f content
                    (files v)))
  | None => main a v = (Uncaught OverflowError, v)
  end.
Proof.
  intros Hi Hf Hn Hr Hfl Hrec Hrne Hu Hint Hs He Hfile filtered_log.
  rewrite (main_run a f v Hi Hf Hn).
  rewrite bind_unfold, (remove_phase_off a f v Hr).
  assert (Htr : truthy (arg_recent a) = true)
    by (rewrite Hrec; apply truthy_some; exact Hrne).
  assert (Ht : time_filtering a = true)
    by (unfold time_filtering; rewrite Htr; apply orb_true_r).
  pose proof (time_bounds_run a v) as Hb.
  rewrite Hs, He, Htr, Hrec in Hb.
  change (default "" (Some r)) with r in Hb. cbv zeta in Hb.
  rewrite Hu, Hint in Hb.
  destruct (ago u n) as [t|].
  - destruct (filter_phase_on a f v v (Some t) e content Ht Hb Hfile)
      as [msgs Hrun].
    fold filtered_log in Hrun. cbv zeta.
    rewrite bind_unfold, Hrun. split.
    + intros Ho. destruct (String.eqb content "");
        [apply lookup_insert_eq|].
      destruct (truthy (arg_output a)) eqn:Hout; [|apply lookup_insert_eq].
      rewrite extract_phase_leaves
        by (rewrite Hout; intros _ E; apply Ho;
            [reflexivity|symmetry; exact E]).
      apply lookup_insert_eq.
    + intros Ho. rewrite Ho.
      destruct (String.eqb content ""); split; reflexivity.
  - rewrite bind_unfold, (filter_phase_uncaught a f v v _ Ht Hb).
    reflexivity.
Qed.

End MainFacts.

Lemma main_writes_only_witness :
  files (snd (main MiniET.fromstring ascii_lower comma_row no_json
                no_interaction (fun _ _ => Some sep25) "20250927_120000"
                "20250927_120001" pipeline_args listed_files))
    !! "notes.txt"
  = files listed_files !! "notes.txt".
Proof.
  apply (main_writes_only MiniET.fromstring ascii_lower comma_row no_json
           no_interaction (fun _ _ => Some sep25) "20250927_120000"
           "20250927_120001" pipeline_args "gp.log" listed_files
           "notes.txt");
    try reflexivity; try discriminate.
  vm_compute. intros H.
  repeat (destruct H as [H|H]; [discriminate H|]). exact H.
Defined.

Lemma main_missing_input_witness :
  files (snd (main MiniET.fromstring ascii_lower comma_row no_json
                no_interaction (fun _ _ => Some sep25) "20250927_120000"
                "20250927_120001" pipeline_args notes_only))
  = files notes_only
  /\ fst (main MiniET.fromstring ascii_lower comma_row no_json
            no_interaction (fun _ _ => Some sep25) "20250927_120000"
            "20250927_120001" pipeline_args notes_only)
     <> Next tt.
Proof.
  apply (main_missing_input MiniET.fromstring ascii_lower comma_row no_json
           no_interaction (fun _ _ => Some sep25) "20250927_120000"
           "20250927_120001" pipeline_args "gp.log" notes_only);
    try reflexivity; discriminate.
Defined.

Lemma removed_list_is_not_extracted_witness :
  exists messages,
    main MiniET.fromstring ascii_lower comma_row no_json no_interaction
      (fun _ _ => Some sep25) "20250927_120000" "20250927_120001"
      remove_args listed_files
    = (Return,
       mkWorld
         (<[ "gp.log" := cleaned listed_log ]>
            (with_backup true "20250927_120000" "gp.log" listed_log
               (files listed_files)))
         (messages ++ [Core NoGatewayListFound])).
Proof.
  apply (removed_list_is_not_extracted MiniET.fromstring ascii_lower
           comma_row no_json no_interaction (fun _ _ => Some sep25)
           "20250927_120000" "20250927_120001" remove_args "gp.log"
           listed_files listed_log);
    try reflexivity; try discriminate.
  intros Hb. apply has_block_contains in Hb. vm_compute in Hb.
  discriminate Hb.
Defined.

Lemma main_exports_witness :
  let selected := [east] in
  fst (main MiniET.fromstring ascii_lower comma_row no_json no_interaction
         (fun _ _ => Some sep25) "20250927_120000" "20250927_120001"
         export_args scenario1_files)
  = Next tt
  /\ files (snd (main MiniET.fromstring ascii_lower comma_row no_json
                   no_interaction (fun _ _ => Some sep25) "20250927_120000"
                   "20250927_120001" export_args scenario1_files))
     = <[ "out.txt" := text_header +:+ joinlines (map text_block selected) ]>
         (files scenario1_files).
Proof.
  apply (main_exports MiniET.fromstring ascii_lower comma_row no_json
           no_interaction (fun _ _ => Some sep25) "20250927_120000"
           "20250927_120001" export_args "gp.log" scenario1_files
           scenario1 (mkMatch scenario1 "") scenario1_tree [east; west]);
    try (vm_compute; reflexivity); discriminate.
Defined.

Lemma unusable_time_argument_stops_witness :
  main MiniET.fromstring ascii_lower comma_row no_json no_interaction
    (fun _ _ => Some sep25) "20250927_120000" "20250927_120001"
    bad_start_args sample_files
  = (Return,
     mkWorld (files sample_files) [InvalidStartTime "yesterday"]).
Proof.
  apply (unusable_time_argument_stops MiniET.fromstring ascii_lower
           comma_row no_json no_interaction (fun _ _ => Some sep25)
           "20250927_120000" "20250927_120001" bad_start_args "gp.log"
           sample_files (InvalidStartTime "yesterday"));
    try (vm_compute; reflexivity); discriminate.
Defined.

Lemma removal_then_filter_witness :
  let start := Some (mkdatetime 2025 9 24 8 51 53 0) in
  let after :=
    files (snd (main MiniET.fromstring ascii_lower comma_row no_json
                  no_interaction (fun _ _ => Some sep25) "20250927_120000"
                  "20250927_120001" pipeline_args listed_files)) in
  fst (main MiniET.fromstring ascii_lower comma_row no_json no_interaction
         (fun _ _ => Some sep25) "20250927_120000" "20250927_120001"
         pipeline_args listed_files)
  = Return
  /\ after !! "recent.log"
     = Some (joinlines (List.filter (retained start None)
                                    (readlines (cleaned listed_log))))
  /\ ("recent.log" <> "clean.log" ->
      after !! "clean.log" = Some (cleaned listed_log))
  /\ (false = false ->
      "clean.log.backup_20250927_120001" <> "recent.log" ->
      after !! "clean.log.backup_20250927_120001"
      = Some (cleaned listed_log))
  /\ (false = false ->
      "gp.log.backup_20250927_120000" <> "recent.log" ->
      "gp.log.backup_20250927_120000" <> "clean.log.backup_20250927_120001" ->
      "gp.log.backup_20250927_120000" <> "clean.log" ->
      after !! "gp.log.backup_20250927_120000" = Some listed_log).
Proof.
  apply (removal_then_filter MiniET.fromstring ascii_lower comma_row
           no_json no_interaction (fun _ _ => Some sep25)
           "20250927_120000" "20250927_120001" pipeline_args "gp.log"
           listed_files listed_log
           (Some (mkdatetime 2025 9 24 8 51 53 0)) None);
    try (vm_compute; reflexivity); discriminate.
Defined.

Lemma recent_window_witness :
  let kept := joinlines (List.filter (retained (Some sep25) None)
                                     (readlines sample_log)) in
  ((false = true -> "" <> "gp.log") ->
   files (snd (main MiniET.fromstring ascii_lower comma_row no_json
                 no_interaction (fun _ _ => Some sep25) "20250927_120000"
                 "20250927_120001" recent_args sample_files))
     !! "gp.log"
   = Some kept)
  /\ (false = false ->
      fst (main MiniET.fromstring ascii_lower comma_row no_json
             no_interaction (fun _ _ => Some sep25) "20250927_120000"
             "20250927_120001" recent_args sample_files)
      = Return
      /\ files (snd (main MiniET.fromstring ascii_lower comma_row no_json
                       no_interaction (fun _ _ => Some sep25)
                       "20250927_120000" "20250927_120001" recent_args
                       sample_files))
         = <[ "gp.log" := kept ]> (files sample_files)).
Proof.
  apply (recent_window MiniET.fromstring ascii_lower comma_row no_json
           no_interaction (fun _ _ => Some sep25) "20250927_120000"
           "20250927_120001" recent_args "gp.log" sample_files sample_log
           "2H" Hours 2%Z (Some (mkdatetime 2025 9 24 8 51 53 0)) None);
    try (vm_compute; reflexivity); discriminate.
Defined.

End ClassFacts.

(** ** Removal applied twice *)
Module RemovalFacts.
Import Py GatewayParser Spec Samples PyFacts GatewayParserFacts ClassFacts.

Lemma contains_tail n c t :
  contains n (String c t) = false -> contains n t = false.
Proof.
  simpl. intros H. apply orb_false_iff in H. exact (proj2 H).
Qed.

Lemma contains_prefix n s : String.prefix n s = true -> contains n s = true.
Proof. intros H. destruct s; cbn [contains]; rewrite H; reflexivity. Qed.

Lemma append_cancel a : forall b c : string, a +:+ b = a +:+ c -> b = c.
Proof.
  induction a as [|x a IH]; intros b c H; [exact H|].
  rewrite !append_cons in H. injection H as H. exact (IH _ _ H).
Qed.

Lemma append_eq_append : forall a b c d : string,
  a +:+ b = c +:+ d ->
  (exists k, c = a +:+ k /\ b = k +:+ d)
  \/ (exists k, a = c +:+ k /\ d = k +:+ b).
Proof.
  induction a as [|x a IH]; intros b c d H.
  - left. exists c. split; [reflexivity|exact H].
  - destruct c as [|y c].
    + right. exists (String x a). split; [reflexivity|]. symmetry. exact H.
    + rewrite !append_cons in H. injection H as -> H.
      destruct (IH _ _ _ H) as [(k & -> & ->)|(k & -> & ->)].
      * left. exists k. split; reflexivity.
      * right. exists k. split; reflexivity.
Qed.

Lemma prefix_nil s : String.prefix "" s = true.
Proof. destruct s; reflexivity. Qed.

Lemma prefix_cons c p d t :
  String.prefix (String c p) (String d t) = true ->
  c = d /\ String.prefix p t = true.
Proof.
  simpl. destruct (ascii_dec c d) as [->|]; [auto|discriminate].
Qed.

Lemma prefix_same_head c p t :
  String.prefix p t = true -> String.prefix (String c p) (String c t) = true.
Proof. intros H. simpl. destruct (ascii_dec c c); [exact H|congruence]. Qed.

(** A prefix of [a +:+ b] lies within [a] or runs over its end. *)
Lemma prefix_append_inv : forall p a b,
  String.prefix p (a +:+ b) = true ->
  String.prefix p a = true
  \/ exists p2, p = a +:+ p2 /\ String.prefix p2 b = true.
Proof.
  induction p as [|c p IH]; intros a b H.
  - left. apply prefix_nil.
  - destruct a as [|d a].
    + right. exists (String c p). split; [reflexivity|exact H].
    + rewrite append_cons in H. apply prefix_cons in H. destruct H as [-> H].
      destruct (IH _ _ H) as [Hp|(p2 & -> & Hp)].
      * left. simpl. destruct (ascii_dec d d); [exact Hp|congruence].
      * right. exists p2. split; [reflexivity|exact Hp].
Qed.

Lemma occurs_append c a b : occurs c (a +:+ String c b) = true.
Proof.
  induction a as [|d a IH]; simpl.
  - rewrite Ascii.eqb_refl. reflexivity.
  - rewrite IH. apply orb_true_r.
Qed.

(** The closing tag does not overlap a text that begins with [<]. *)
Lemma closing_tag_apart a b :
  a <> "" ->
  String.prefix "</gateway-list>" (a +:+ String "<" b) = true ->
  String.prefix "</gateway-list>" a = true.
Proof.
  intros Ha H. apply prefix_append_inv in H.
  destruct H as [H|(p2 & Hp & H)]; [exact H|].
  destruct p2 as [|c p2].
  - rewrite append_nil_r in Hp. subst a. reflexivity.
  - apply prefix_cons in H. destruct H as [-> _].
    destruct a as [|x a]; [congruence|].
    rewrite append_cons in Hp. injection Hp as _ Hp.
    pose proof (occurs_append "<" a p2) as Ho. rewrite <- Hp in Ho.
    vm_compute in Ho. discriminate Ho.
Qed.

Lemma contains_after_opening x :
  contains "</gateway-list>" ("<gateway-list" +:+ x)
  = contains "</gateway-list>" x.
Proof. reflexivity. Qed.

Lemma contains_after_placeholder x :
  contains "</gateway-list>" (placeholder +:+ x)
  = contains "</gateway-list>" x.
Proof. reflexivity. Qed.

(** Where the pattern matches, the remover writes the placeholder and
    goes on after the block. *)
Lemma cleaned_at_block s g r :
  match_here gateway_list_pattern s = Some (g, r) ->
  cleaned s = placeholder +:+ cleaned r.
Proof.
  intros H. apply (sub_at_match _ _ _ _ _ H).
  destruct (gateway_list_match _ _ _ H) as (inside & Hs).
  intros Hspan. pose proof (match_span _ _ _ _ H) as Hm.
  rewrite Hspan in Hm. change ("" +:+ r) with r in Hm.
  rewrite Hm in Hs. apply (f_equal String.length) in Hs.
  rewrite !length_append in Hs. simpl in Hs. lia.
Qed.

Lemma block_matches inside rest :
  is_Some (match_here gateway_list_pattern
             ("<gateway-list" +:+ inside +:+ "</gateway-list>" +:+ rest)).
Proof.
  unfold gateway_list_pattern. rewrite match_here_lits_here.
  apply match_here_lazy_later.
  rewrite <- (app_nil_r (lits "</gateway-list>")), match_here_lits_here.
  simpl. eauto.
Qed.

(** A text without [<] at the head of the cleaned content stood at the
    head of the content. *)
Lemma prefix_cleaned : forall q t,
  occurs "<" q = false ->
  String.prefix q (cleaned t) = true ->
  String.prefix q t = true.
Proof.
  induction q as [|d q IH]; intros t Hq H; [apply prefix_nil|].
  simpl in Hq. apply orb_false_iff in Hq. destruct Hq as [Hd Hq].
  destruct t as [|e t]; [discriminate H|].
  destruct (match_here gateway_list_pattern (String e t)) as [[g r]|] eqn:E.
  - rewrite (cleaned_at_block _ _ _ E) in H.
    change (placeholder +:+ cleaned r)
      with (String "<" (drop 1 placeholder +:+ cleaned r)) in H.
    apply prefix_cons in H. destruct H as [-> _].
    rewrite Ascii.eqb_refl in Hd. discriminate Hd.
  - unfold cleaned in H. rewrite (sub_no_match_here _ _ _ _ E) in H.
    apply prefix_cons in H. destruct H as [-> H].
    simpl. destruct (ascii_dec e e); [|congruence].
    apply IH; assumption.
Qed.

(** The first closing tag of a text is at one place. *)
Lemma first_closing_tag u v u' v' :
  u +:+ "</gateway-list>" +:+ v = u' +:+ "</gateway-list>" +:+ v' ->
  contains "</gateway-list>" u = false ->
  contains "</gateway-list>" u' = false ->
  u = u' /\ v = v'.
Proof.
  assert (Hside : forall a b k c,
            "</gateway-list>" +:+ c = k +:+ "</gateway-list>" +:+ b ->
            contains "</gateway-list>" (a +:+ k) = false ->
            k = "").
  { intros a b k c Hk Hc. destruct k as [|x k]; [reflexivity|]. exfalso.
    assert (Hp : String.prefix "</gateway-list>"
                   (String x k +:+ "</gateway-list>" +:+ b) = true)
      by (rewrite <- Hk; apply prefix_append).
    apply closing_tag_apart in Hp; [|discriminate].
    apply contains_prefix in Hp.
    rewrite (contains_append _ a _ Hp) in Hc. discriminate Hc. }
  intros H Hu Hu'.
  destruct (append_eq_append _ _ _ _ H) as [(k & -> & Hk)|(k & -> & Hk)].
  - assert (Ek : k = "") by exact (Hside u v' k v Hk Hu'). subst k.
    rewrite append_nil_r. split; [reflexivity|].
    exact (append_cancel "</gateway-list>" _ _ Hk).
  - assert (Ek : k = "") by exact (Hside u' v k v' Hk Hu). subst k.
    rewrite append_nil_r. split; [reflexivity|]. symmetry.
    exact (append_cancel "</gateway-list>" _ _ Hk).
Qed.

(** Through a segment that ends in its first closing tag, the remover
    copies the text before the first opening tag and writes the
    placeholder: no closing tag gets into its output. *)
Lemma cleaned_segment inside rest :
  contains "</gateway-list>" (cleaned rest) = false ->
  forall before,
    contains "</gateway-list>" (before +:+ "<gateway-list" +:+ inside)
    = false ->
    contains "</gateway-list>"
      (cleaned (before +:+ "<gateway-list" +:+ inside
                +:+ "</gateway-list>" +:+ rest)) = false.
Proof.
  intros Hrest.
  assert (Hblock : forall before g r,
            contains "</gateway-list>"
              (before +:+ "<gateway-list" +:+ inside) = false ->
            match_here gateway_list_pattern
              (before +:+ "<gateway-list" +:+ inside
               +:+ "</gateway-list>" +:+ rest) = Some (g, r) ->
            contains "</gateway-list>"
              (cleaned (before +:+ "<gateway-list" +:+ inside
                        +:+ "</gateway-list>" +:+ rest)) = false).
  { intros before g r Hb E.
    rewrite (cleaned_at_block _ _ _ E), contains_after_placeholder.
    destruct (gateway_list_match_first _ _ _ E) as (inside' & Hs & Hi).
    assert (Heq : (before +:+ "<gateway-list" +:+ inside)
                  +:+ "</gateway-list>" +:+ rest
                  = ("<gateway-list" +:+ inside')
                    +:+ "</gateway-list>" +:+ r)
      by (rewrite !append_assoc; exact Hs).
    apply first_closing_tag in Heq;
      [|exact Hb|rewrite contains_after_opening; exact Hi].
    destruct Heq as [_ <-]. exact Hrest. }
  induction before as [|c before IH]; intros Hb.
  - destruct (block_matches inside rest) as [[g r] E].
    exact (Hblock "" g r Hb E).
  - destruct (match_here gateway_list_pattern
                (String c before +:+ "<gateway-list" +:+ inside
                 +:+ "</gateway-list>" +:+ rest)) as [[g r]|] eqn:E;
      [exact (Hblock _ g r Hb E)|].
    rewrite append_cons in E |- *. unfold cleaned.
    rewrite (sub_no_match_here _ _ _ _ E). fold (cleaned
      (before +:+ "<gateway-list" +:+ inside +:+ "</gateway-list>" +:+ rest)).
    rewrite append_cons in Hb.
    cbn [contains]. rewrite (IH (contains_tail _ _ _ Hb)), orb_false_r.
    destruct (String.prefix "</gateway-list>"
                (String c (cleaned (before +:+ "<gateway-list" +:+ inside
                                    +:+ "</gateway-list>" +:+ rest))))
      eqn:Hp; [|reflexivity].
    exfalso. apply prefix_cons in Hp. destruct Hp as [<- Hp].
    apply prefix_cleaned in Hp; [|reflexivity].
    assert (Hp' : String.prefix "</gateway-list>"
                    (String "<" (before +:+ "<gateway-list" +:+ inside)
                     +:+ String "<" ("/gateway-list>" +:+ rest)) = true).
    { change (String "<" ("/gateway-list>" +:+ rest))
        with ("</gateway-list>" +:+ rest).
      rewrite append_cons, !append_assoc.
      apply (prefix_same_head "<" "/gateway-list>"). exact Hp. }
    apply closing_tag_apart in Hp'; [|discriminate].
    apply contains_prefix in Hp'. rewrite Hp' in Hb. discriminate Hb.
Qed.

(** When every closing tag of the content ends a block, the cleaned
    content holds no closing tag. *)
Lemma cleaned_no_closing_tag content :
  closing_tags_matched content ->
  contains "</gateway-list>" (cleaned content) = false.
Proof.
  induction 1 as [content Hc|content before inside rest -> Hb _ IH].
  - unfold cleaned.
    rewrite (sub_no_match _ _ _ (no_closing_tag_search _ Hc)). exact Hc.
  - exact (cleaned_segment inside rest IH before Hb).
Qed.

(** The content of the counterexample has a closing tag that ends no
    block. *)
Lemma stray_tag_unmatched : ~ closing_tags_matched stray_log.
Proof.
  intros H. apply cleaned_no_closing_tag in H. vm_compute in H.
  discriminate H.
Qed.

(** C2, amended.  On a content in which every closing tag ends a block,
    the remover is idempotent: applied to its own output it finds no
    block and writes the same content again. *)
Theorem remove_idempotent_matched_tags now1 now2 input_file
  output1 output2 backup1 backup2 w content :
  files w !! input_file = Some content ->
  closing_tags_matched content ->
  let out1 := default input_file output1 in
  let w1 := snd (remove_gateway_list_from_log now1 input_file output1
                   backup1 w) in
  let out2 := default out1 output2 in
  let w2 := snd (remove_gateway_list_from_log now2 out1 output2
                   backup2 w1) in
  files w1 !! out1 = Some (cleaned content)
  /\ ~ has_block (cleaned content)
  /\ files w2 !! out2 = files w1 !! out1.
Proof.
  intros H Hc out1 w1 out2 w2.
  pose proof (cleaned_no_closing_tag content Hc) as Hnone.
  pose proof (remove_output now1 input_file output1 backup1 w content H)
    as H1.
  fold out1 w1 in H1.
  pose proof (remove_output now2 out1 output2 backup2 w1 _ H1) as H2.
  fold out2 w2 in H2.
  split; [exact H1|]. split.
  - intros Hb. apply has_block_contains in Hb. rewrite Hnone in Hb.
    discriminate Hb.
  - rewrite H1, H2. f_equal. unfold cleaned at 1. apply sub_no_match.
    apply no_closing_tag_search. exact Hnone.
Qed.

Lemma remove_idempotent_matched_tags_witness :
  let w1 := snd (remove_gateway_list_from_log "20250927_120000" "gp.log"
                   None true listed_world) in
  let w2 := snd (remove_gateway_list_from_log "20250927_120001" "gp.log"
                   None true w1) in
  files w1 !! "gp.log" = Some (cleaned listed_log)
  /\ ~ has_block (cleaned listed_log)
  /\ files w2 !! "gp.log" = files w1 !! "gp.log".
Proof.
  apply (remove_idempotent_matched_tags "20250927_120000"
           "20250927_120001" "gp.log" None None true true listed_world
           listed_log).
  - reflexivity.
  - apply (closed_block listed_log
             ("P2104-T34307 09/24/2025 08:51:52:597 list follows"
              +:+ String newline "")
             "><entry><gateway>gw1</gateway></entry>"
             (String newline "P2104-T34307 09/24/2025 08:51:53:000 done")).
    + reflexivity.
    + reflexivity.
    + apply no_closing_tag. reflexivity.
Defined.

End RemovalFacts.
